(** * Puffer analysis scripts: SSIM / rebuffer aggregation and reporting

    A shallow embedding of [src/scripts/plot_ssim_rebuffer.py] and
    [src/scripts/plot_bbr_vs_cubic.py], together with the helpers they
    import ([helpers.retrieve_expt_config], [stream_processor.BufferStream],
    [helpers.ssim_index_to_db], ...), the properties the design document
    states about them, and further properties of the scripts' loops: keys,
    totals, paging, what is written and drawn, and how a run fails.

    Layout: numbers, ordered dictionaries, effects, the experiment
    resolver, the buffer stream, the two scripts, the vocabulary of the
    properties and sample data; then the lemmas, component by component. *)

From Stdlib Require Import ZArith List String Reals Lra Lia Permutation Sorted.
From Stdlib Require Import PrimFloat FloatOps SpecFloat.
From stdpp Require Import gmap strings list fin_maps.

Set Warnings "-inexact-float".

(* ===================================================================== *)
(** * Numbers *)
(* ===================================================================== *)

(** The scripts compute on Python numbers: [int]s (counts, constants such
    as [60] and [100]) and binary64 [float]s (SSIM indices, sums, rates).
    The embedding is written once against the operations the scripts use;
    [float_arith] is what CPython and numpy execute, [real_arith] is the
    exact arithmetic those operations round. *)
Class Arith (num : Type) : Type := {
  of_int : Z -> num;              (* an int operand of [/], [*], [==] *)
  add : num -> num -> num;        (* [+], [+=] *)
  sub : num -> num -> num;        (* [-] *)
  mul : num -> num -> num;        (* [*] *)
  div : num -> num -> num;        (* IEEE [/] (numpy): total *)
  nabs : num -> num;              (* [abs] *)
  num_eqb : num -> num -> bool;   (* [==] *)
  np_ceil : num -> num;           (* [np.ceil] *)
  int_div : Z -> Z -> num;        (* [/] on two ints: the quotient, rounded once *)
  num_ltb : num -> num -> bool;   (* [<] *)
  num_isnan : num -> bool;        (* [np.isnan] *)
  num_isfinite : num -> bool      (* [np.isfinite] *)
}.

(** [helpers.ssim_index_to_db], called by both scripts; its body is not
    part of the scripts, so they are embedded over any implementation. *)
Class DbScale (num : Type) : Type :=
  ssim_index_to_db : num -> num.

(** ** binary64 *)

(** [float(z)]: the nearest binary64 value, ties to even; an infinity
    where no binary64 value is near enough, which is where Python raises
    [OverflowError] instead (see [np_float] below). *)
Definition float_of_int (z : Z) : float :=
  SF2Prim (binary_normalize 53 1024 z 0 false).

(** [a / b] on two [int]s: CPython rounds the exact quotient once, to the
    nearest binary64 value, ties to even.  The quotient is taken with at
    least 55 significant bits and a sticky bit for the remainder, which is
    enough for [binary_normalize] to round as the exact quotient rounds;
    an infinity where Python raises [OverflowError] (see [py_int_div]
    below).  The sign of a zero quotient is that of the divisor. *)
Definition float_int_div (a b : Z) : float :=
  match b with
  | Z0 => nan
  | _ =>
      match a with
      | Z0 => if (b <? 0)%Z then (-0)%float else 0%float
      | _ =>
          let n := Z.abs a in
          let d := Z.abs b in
          let k := Z.max 0 (Z.log2 d + 56 - Z.log2 n) in
          let q := (n * 2 ^ k / d)%Z in
          let sticky := if (n * 2 ^ k mod d =? 0)%Z then 0%Z else 1%Z in
          let m := (2 * q + sticky)%Z in
          SF2Prim (binary_normalize 53 1024
                     (if xorb (a <? 0)%Z (b <? 0)%Z then (- m)%Z else m)
                     (- (k + 1)) false)
      end
  end.

Definition two52 : float := 4503599627370496%float.

(** [np.ceil] on binary64.  Below [2^52] in magnitude, adding and
    subtracting [2^52] rounds to the nearest integer, which is then
    corrected upwards; larger values, infinities and NaN are returned
    unchanged.  The sign of a zero result follows the argument. *)
Definition float_ceil (x : float) : float :=
  if PrimFloat.ltb (PrimFloat.abs x) two52 then
    let r := (if PrimFloat.ltb x 0 then (x - two52) + two52
              else (x + two52) - two52)%float in
    let c := (if PrimFloat.ltb r x then r + 1 else r)%float in
    if PrimFloat.eqb c 0 && PrimFloat.ltb x 0 then (-0)%float
    else if PrimFloat.eqb c x then x else c
  else x.

#[export] Instance float_arith : Arith float := {|
  of_int := float_of_int;
  add := PrimFloat.add;
  sub := PrimFloat.sub;
  mul := PrimFloat.mul;
  div := PrimFloat.div;
  nabs := PrimFloat.abs;
  num_eqb := PrimFloat.eqb;
  np_ceil := float_ceil;
  int_div := float_int_div;
  num_ltb := PrimFloat.ltb;
  num_isnan := PrimFloat.is_nan;
  num_isfinite := PrimFloat.is_finite
|}.

(** ** Exact arithmetic *)

Definition Req_bool (x y : R) : bool :=
  if Req_dec_T x y then true else false.

Definition Rlt_bool (x y : R) : bool :=
  if Rlt_dec x y then true else false.

#[export] Instance real_arith : Arith R := {|
  of_int := IZR;
  add := Rplus;
  sub := Rminus;
  mul := Rmult;
  div := Rdiv;
  nabs := Rabs;
  num_eqb := Req_bool;
  np_ceil := fun x => IZR (Zceil x);
  int_div := fun a b => (IZR a / IZR b)%R;
  num_ltb := Rlt_bool;
  num_isnan := fun _ => false;
  num_isfinite := fun _ => true
|}.

Definition log10 (x : R) : R := (ln x / ln 10)%R.

(** The decibel formula of the design document, [-10 * log10 (1 - index)]. *)
Definition db_formula (index : R) : R := (-10 * log10 (1 - index))%R.

(** Modelled from the spec: [helpers.ssim_index_to_db] (helpers.py is not
    among the sources).  "Conversion from linear SSIM index to decibel
    scale: db = -10 * log10(1 - index) when index < 1, undefined (excluded)
    when index == 1." *)
Definition ssim_index_to_db_spec (index : R) : option R :=
  if Rlt_dec index 1 then Some (db_formula index) else None.

#[export] Instance real_db : DbScale R := db_formula.

(* ===================================================================== *)
(** * Python dictionaries that are iterated *)
(* ===================================================================== *)

(** A [dict] iterates in insertion order, and assigning to an existing key
    keeps its position.  Dictionaries the scripts loop over are lists of
    items; dictionaries that are only indexed are [gmap]s. *)
Section ODict.
Context {K : Type} `{EqDecision K} {V : Type}.

Definition odict : Type := list (K * V).

(** [d.get(k)] *)
Fixpoint oget (k : K) (d : odict) : option V :=
  match d with
  | [] => None
  | (k', v) :: rest => if decide (k = k') then Some v else oget k rest
  end.

(** [d[k] = v] *)
Fixpoint oset (k : K) (v : V) (d : odict) : odict :=
  match d with
  | [] => [(k, v)]
  | (k', v') :: rest =>
      if decide (k = k') then (k', v) :: rest else (k', v') :: oset k v rest
  end.

(** [list(d)] *)
Definition okeys (d : odict) : list K := map fst d.

(** [k in d] *)
Definition ocontains (k : K) (d : odict) : bool :=
  match oget k d with Some _ => true | None => false end.
End ODict.
Global Arguments odict : clear implicits.

(* ===================================================================== *)
(** * Effects: exceptions, the experiment cache, stderr, the figure *)
(* ===================================================================== *)

(** A scheme: [(abr, cc)], as [helpers.get_abr_cc] returns it. *)
Definition SchemeKey : Type := option string * string.

(** Why the process stopped. *)
Inductive exn : Type :=
  | ZeroDivisionError
  | OverflowError                            (* an int too large for a float *)
  | ValueError                               (* raised by numpy and matplotlib *)
  | IndexError                               (* a bin of np.histogram out of bounds *)
  | TypeError                                (* a comparison with None *)
  | ConfigResolutionError (expt_id : string)
  | ExitNotInRebuffer (abr_cc : SchemeKey)   (* sys.exit('Error: {} does not exist in rebuffer') *)
  | ExitNoData.                              (* sys.exit('Error: no data found in the queried range') *)

Inductive outcome (A : Type) : Type :=
  | Return (a : A)
  | Raise (e : exn).
Global Arguments Return {A} a.
Global Arguments Raise {A} e.

(** Lines written to [sys.stderr]. *)
Inductive message : Type :=
  | Processing (measurement s_str e_str : string)
  | WarnNoSsim (abr_cc : SchemeKey)
  | WarnMalformedSample
  | WarnOutOfOrder
  | WarnUnresolved (expt_id : string)
  | SavedPlot (figname : string).

Record ExperimentConfig : Type := {
  experiment_id : string;
  congestion_control : string;
  abr_algorithm : option string
}.

#[export] Instance ExperimentConfig_eq_dec : EqDecision ExperimentConfig.
Proof. solve_decision. Defined.

(** What [collect_ssim] binds a scheme to: the running [[sum, count]] list,
    replaced by the average in dB once the count is known to be non-zero. *)
Inductive ssim_entry (num : Type) : Type :=
  | SumCount (sum : num) (count : Z)
  | AvgDb (db : num).
Global Arguments SumCount {num} sum count.
Global Arguments AvgDb {num} db.

(** The annotation of a scatter point: ['{}+{}\n({:.1f}m/{:.1f}h)'] with
    the four values it formats. *)
Record label (num : Type) : Type := {
  label_scheme : SchemeKey;
  label_rebuf_minutes : num;
  label_play_hours : num
}.
Global Arguments label_scheme {num} _.
Global Arguments label_rebuf_minutes {num} _.
Global Arguments label_play_hours {num} _.

(** Calls into matplotlib. *)
Inductive plot_event (num : Type) : Type :=
  | Scatter (x : num) (y : ssim_entry num)
  | Annotate (text : label num) (x : num) (y : ssim_entry num)
  | CdfSeries (figname : string) (series : odict string (list num))
  | Savefig (output : string).
Global Arguments Scatter {num} x y.
Global Arguments Annotate {num} text x y.
Global Arguments CdfSeries {num} figname series.
Global Arguments Savefig {num} output.

Record World (num : Type) : Type := {
  expt : gmap string ExperimentConfig;   (* the experiment cache *)
  pg_queries : list string;              (* lookups sent to the metadata store, latest first *)
  stderr : list message;                 (* latest first *)
  plots : list (plot_event num)          (* latest first *)
}.
Global Arguments expt {num} _.
Global Arguments pg_queries {num} _.
Global Arguments stderr {num} _.
Global Arguments plots {num} _.

Definition M (num A : Type) : Type := World num -> outcome A * World num.

Definition ret {num A} (a : A) : M num A := fun w => (Return a, w).

Definition raise {num A} (e : exn) : M num A := fun w => (Raise e, w).

Definition bind {num A B} (c : M num A) (k : A -> M num B) : M num B :=
  fun w =>
    match c w with
    | (Return a, w') => k a w'
    | (Raise e, w') => (Raise e, w')
    end.

Declare Scope py_scope.
Delimit Scope py_scope with py.
Notation "x <- c ;; k" := (bind c (fun x => k))
  (at level 100, c at next level, right associativity) : py_scope.
Notation "c ;; k" := (bind c (fun _ => k))
  (at level 100, right associativity) : py_scope.
Open Scope py_scope.

Definition write_stderr {num} (m : message) : M num unit :=
  fun w => (Return tt, {| expt := expt w; pg_queries := pg_queries w;
                          stderr := m :: stderr w; plots := plots w |}).

Definition emit {num} (e : plot_event num) : M num unit :=
  fun w => (Return tt, {| expt := expt w; pg_queries := pg_queries w;
                          stderr := stderr w; plots := e :: plots w |}).

(** [for x in xs: body(x)] *)
Fixpoint for_each {num A} (xs : list A) (body : A -> M num unit) : M num unit :=
  match xs with
  | [] => ret tt
  | x :: rest => body x ;; for_each rest body
  end.

(** A loop that threads a local variable. *)
Fixpoint fold_each {num A S} (xs : list A) (body : S -> A -> M num S) (s : S)
  : M num S :=
  match xs with
  | [] => ret s
  | x :: rest => s' <- body s x ;; fold_each rest body s'
  end.

(** [try: c except: h] *)
Definition catch {num A} (c : M num A) (h : exn -> M num A) : M num A :=
  fun w =>
    match c w with
    | (Return a, w') => (Return a, w')
    | (Raise e, w') => h e w'
    end.

(** [[f(x) for x in xs]], effects in order. *)
Fixpoint map_each {num A B} (f : A -> M num B) (xs : list A) : M num (list B) :=
  match xs with
  | [] => ret []
  | x :: rest => y <- f x ;; ys <- map_each f rest ;; ret (y :: ys)
  end.

(** [d[k]] mutated in place by [f]; nothing happens when [k] is absent. *)
Fixpoint oupdate {K} `{EqDecision K} {V} (k : K) (f : V -> V) (d : odict K V)
  : odict K V :=
  match d with
  | [] => []
  | (k', v) :: rest =>
      if decide (k = k') then (k', f v) :: rest else (k', v) :: oupdate k f rest
  end.

(** [if k not in d: d[k] = v] *)
Definition osetdefault {K} `{EqDecision K} {V} (k : K) (v : V) (d : odict K V)
  : odict K V :=
  if ocontains k d then d else oset k v d.

(** One time window of a measurement, as [datetime_iter] delimits it and
    [query_measurement] answers it. *)
Record Window (A : Type) : Type := {
  s_str : string;
  e_str : string;
  points : list A
}.
Global Arguments s_str {A} _.
Global Arguments e_str {A} _.
Global Arguments points {A} _.

(* ===================================================================== *)
(** * Experiment metadata resolver *)
(* ===================================================================== *)

(** [helpers.py], which holds the resolver, is not among the sources: this
    section follows section 4.1 of the design document. *)

(** Modelled from the spec: a row of the metadata store, "structured
    key-value". *)
Definition Payload : Type := gmap string string.

(** Modelled from the spec: the metadata collaborator, "lookup(experiment_id)
    -> {cc, abr (optional)}"; [None] when no cursor was opened (the
    configurations were preloaded with [--expt]). *)
Definition MetadataStore : Type := option (gmap string Payload).

(** Modelled from the spec: parsing a payload, "at minimum containing cc
    and optionally abr". *)
Definition parse_config (expt_id : string) (p : Payload) : option ExperimentConfig :=
  match p !! "cc"%string with
  | Some cc => Some {| experiment_id := expt_id;
                       congestion_control := cc;
                       abr_algorithm := p !! "abr"%string |}
  | None => None
  end.

(** Modelled from the spec: the lookup; it fails without a cursor and for
    an unknown id. *)
Definition lookup_row (pg : MetadataStore) (expt_id : string) : option Payload :=
  match pg with
  | Some rows => rows !! expt_id
  | None => None
  end.

(** Modelled from the spec: [helpers.retrieve_expt_config(expt_id, expt,
    postgres_cursor)] (helpers.py is not among the sources).  "On cache
    hit: return cached value, no I/O.  On cache miss: issue a lookup
    against the external metadata collaborator, parse its config payload,
    store in cache keyed by experiment_id, return.  Lookup fails or returns
    malformed config: fails with ConfigResolutionError." *)
Definition retrieve_expt_config {num} (pg : MetadataStore) (expt_id : string)
  : M num ExperimentConfig :=
  fun w =>
    match expt w !! expt_id with
    | Some config => (Return config, w)
    | None =>
        let asked := {| expt := expt w; pg_queries := expt_id :: pg_queries w;
                        stderr := stderr w; plots := plots w |} in
        match lookup_row pg expt_id with
        | None => (Raise (ConfigResolutionError expt_id), asked)
        | Some payload =>
            match parse_config expt_id payload with
            | None => (Raise (ConfigResolutionError expt_id), asked)
            | Some config =>
                (Return config,
                 {| expt := <[expt_id := config]> (expt w);
                    pg_queries := expt_id :: pg_queries w;
                    stderr := stderr w; plots := plots w |})
            end
        end
    end.

(** Modelled from the spec: [helpers.get_abr_cc].  "SchemeKey: the tuple
    (abr_algorithm, congestion_control)". *)
Definition get_abr_cc (config : ExperimentConfig) : SchemeKey :=
  (abr_algorithm config, congestion_control config).

(* ===================================================================== *)
(** * Session / buffer reconstructor *)
(* ===================================================================== *)

(** [stream_processor.py], which holds [BufferStream], is not among the
    sources: this section follows sections 3 and 4.2 of the design
    document.  Timestamps and totals are whole seconds. *)

(** Modelled from the spec: a sample's "play/rebuffer indicator". *)
Inductive Indicator : Type := Playing | Rebuffering.

(** Modelled from the spec: "State machine per session, states:
    {NO_DATA, PLAYING, REBUFFERING}". *)
Inductive SessionState : Type := NO_DATA | PLAYING | REBUFFERING.

(** Modelled from the spec: "a composite key (stream endpoint identity +
    start time + experiment id)". *)
Definition SessionKey : Type := string * Z * string.

Definition session_expt (k : SessionKey) : string := snd k.

(** Modelled from the spec: a raw [client_buffer] point, "{session_id,
    timestamp, buffer_level_or_event, play/rebuffer indicator}".  A point
    may lack its timestamp or its indicator (malformed), or carry the
    no-playback sentinel (degenerate). *)
Record Sample : Type := {
  sample_session : SessionKey;
  sample_timestamp : option Z;
  sample_indicator : option Indicator;
  sample_no_playback : bool
}.

(** Modelled from the spec: a session "accumulates two running totals". *)
Record Session : Type := {
  state : SessionState;
  last_seen : Z;
  total_play_seconds : Z;
  total_rebuf_seconds : Z
}.

(** A value of [BufferStream.out], with the keys [plot_ssim_rebuffer]
    reads: ['total_play'], ['total_rebuf'], ['rebuf_minute']. *)
Record AggregateRecord : Type := {
  total_play : Z;
  total_rebuf : Z;
  rebuf_minute : Z
}.

(** Modelled from the spec: "a shared dictionary of in-progress sessions"
    and the per-scheme output. *)
Record BufferStream : Type := {
  smap : odict SessionKey Session;            (* sessions in progress *)
  out : gmap SchemeKey AggregateRecord        (* per-scheme totals *)
}.

(** Modelled from the spec: "initial state NO_DATA on first sample seen". *)
Definition new_session : Session :=
  {| state := NO_DATA; last_seen := 0;
     total_play_seconds := 0; total_rebuf_seconds := 0 |}.

(** [BufferStream(expt, postgres_cursor)] *)
Definition new_buffer_stream : BufferStream := {| smap := []; out := ∅ |}.

Definition state_of (i : Indicator) : SessionState :=
  match i with Playing => PLAYING | Rebuffering => REBUFFERING end.

(** Modelled from the spec: the per-session transition of
    [BufferStream.add_data_point] (stream_processor.py is not among the
    sources).  "On each new sample for a session, compute the elapsed
    interval since the session's last-seen timestamp; the elapsed interval
    is added to total_play_seconds if the prior state was PLAYING, or to
    total_rebuf_seconds if the prior state was REBUFFERING.  The session's
    state then updates to match the new sample's indicator."  A sample
    older than the last-seen timestamp is discarded ([None]); one at the
    last-seen timestamp adds an empty interval and updates the state. *)
Definition advance (s : Session) (ts : Z) (i : Indicator) : option Session :=
  match state s with
  | NO_DATA =>
      Some {| state := state_of i; last_seen := ts;
              total_play_seconds := total_play_seconds s;
              total_rebuf_seconds := total_rebuf_seconds s |}
  | PLAYING =>
      if (ts <? last_seen s)%Z then None
      else Some {| state := state_of i; last_seen := ts;
                   total_play_seconds := total_play_seconds s + (ts - last_seen s);
                   total_rebuf_seconds := total_rebuf_seconds s |}
  | REBUFFERING =>
      if (ts <? last_seen s)%Z then None
      else Some {| state := state_of i; last_seen := ts;
                   total_play_seconds := total_play_seconds s;
                   total_rebuf_seconds := total_rebuf_seconds s + (ts - last_seen s) |}
  end.

(** Modelled from the spec: [BufferStream.add_data_point].  "Sessions are
    created lazily on first-seen sample for that session key";  "malformed
    samples (missing timestamp or indicator) are skipped with a warning";
    "degenerate samples must not count toward either total". *)
Definition add_data_point {num} (bs : BufferStream) (pt : Sample)
  : M num BufferStream :=
  match sample_timestamp pt, sample_indicator pt with
  | Some ts, Some i =>
      if sample_no_playback pt then ret bs
      else
        let key := sample_session pt in
        let s := default new_session (oget key (smap bs)) in
        match advance s ts i with
        | Some s' => ret {| smap := oset key s' (smap bs); out := out bs |}
        | None => write_stderr WarnOutOfOrder ;; ret bs
        end
  | _, _ => write_stderr WarnMalformedSample ;; ret bs
  end.

(** Modelled from the spec: "fold (total_play_seconds,
    total_rebuf_seconds) into that key's AggregateRecord". *)
Definition fold_session (minutes : Z) (s : Session) (r : option AggregateRecord)
  : AggregateRecord :=
  match r with
  | Some r => {| total_play := total_play r + total_play_seconds s;
                 total_rebuf := total_rebuf r + total_rebuf_seconds s;
                 rebuf_minute := rebuf_minute r + minutes |}
  | None => {| total_play := total_play_seconds s;
               total_rebuf := total_rebuf_seconds s;
               rebuf_minute := minutes |}
  end.

(** Modelled from the spec: [BufferStream.done_data_points].  "For each
    session, once finalized, look up its SchemeKey via the Resolver and
    fold its totals into that key's AggregateRecord.  A session whose
    config cannot be resolved is dropped from aggregation with a warning."
    "ConfigResolutionError causes the affected session to be dropped
    (non-fatal) except where the CLI pre-supplies a config file, in which
    case a missing key is fatal":  without a cursor ([pg = None], the
    configurations preloaded with [--expt]) the failure is passed on.
    The design document does not say how a session's rebuffered minutes
    are counted: [minutes] stands for that count. *)
Definition done_data_points {num} (pg : MetadataStore) (minutes : Session -> Z)
    (bs : BufferStream) : M num BufferStream :=
  o <- fold_each (smap bs)
         (fun o item =>
            catch
              (config <- retrieve_expt_config pg (session_expt (fst item)) ;;
               let abr_cc := get_abr_cc config in
               ret (<[abr_cc := fold_session (minutes (snd item)) (snd item)
                                  (o !! abr_cc)]> o))
              (fun e =>
                 match pg with
                 | Some _ =>
                     write_stderr (WarnUnresolved (session_expt (fst item))) ;;
                     ret o
                 | None => raise e
                 end))
         (out bs) ;;
  ret {| smap := []; out := o |}.

(* ===================================================================== *)
(** * scripts/plot_ssim_rebuffer.py *)
(* ===================================================================== *)

(** A [video_acked] point: [str(pt['expt_id'])] and the SSIM index it
    carries, if any. *)
Record VideoAcked (num : Type) : Type := {
  va_expt_id : string;
  va_ssim_index : option num
}.
Global Arguments va_expt_id {num} _.
Global Arguments va_ssim_index {num} _.

(** [helpers.get_ssim_index], called by [do_collect_ssim]; its body is not
    part of the scripts, so they are embedded over any implementation. *)
Class SsimIndex (num : Type) : Type :=
  get_ssim_index : VideoAcked num -> option num.

(** A helper for the sample runs: it hands back the index a point
    carries, unless that index is exactly 1.  Neither the sources nor the
    design document say what [helpers.get_ssim_index] returns; the
    properties of [do_collect_ssim] and [collect_ssim] are proved for any
    helper, and none of them rests on this one. *)
#[export] Instance sample_get_ssim_index {num} `{Arith num} : SsimIndex num :=
  fun pt =>
    match va_ssim_index pt with
    | Some index => if num_eqb index (of_int 1) then None else Some index
    | None => None
    end.

(** Another helper for the sample runs: it hands back the index as the
    point carries it. *)
Definition stored_ssim_index {num} : SsimIndex num := va_ssim_index.

Section PlotSsimRebuffer.
Context {num : Type} `{Arith num} `{DbScale num} `{SsimIndex num}.

(** The body of the [for pt in ...] loop of [do_collect_ssim]. *)
Definition collect_point (pg : MetadataStore)
    (d : odict SchemeKey (num * Z)) (pt : VideoAcked num)
  : M num (odict SchemeKey (num * Z)) :=
  expt_config <- retrieve_expt_config pg (va_expt_id pt) ;;
  let abr_cc := get_abr_cc expt_config in
  let d := osetdefault abr_cc (of_int 0, 0%Z) d in      (* sum, count *)
  match get_ssim_index pt with
  | Some ssim_index =>
      ret (oupdate abr_cc (fun sc => (add (fst sc) ssim_index, (snd sc + 1)%Z)) d)
  | None => ret d
  end.

Definition do_collect_ssim (pg : MetadataStore) (w : Window (VideoAcked num))
    (d : odict SchemeKey (num * Z)) : M num (odict SchemeKey (num * Z)) :=
  write_stderr (Processing "video_acked" (s_str w) (e_str w)) ;;
  fold_each (points w) (collect_point pg) d.

(** The body of the [for abr_cc in d] loop of [collect_ssim]. *)
Definition average_ssim (item : SchemeKey * (num * Z))
  : M num (SchemeKey * ssim_entry num) :=
  let abr_cc := fst item in
  let sum := fst (snd item) in
  let count := snd (snd item) in
  if (count =? 0)%Z then
    write_stderr (WarnNoSsim abr_cc) ;;
    ret (abr_cc, SumCount sum count)
  else
    let avg_ssim_index := div sum (of_int count) in
    let avg_ssim_db := ssim_index_to_db avg_ssim_index in
    ret (abr_cc, AvgDb avg_ssim_db).

(** The dictionary after every window has been processed. *)
Definition accumulate_ssim (pg : MetadataStore)
    (windows : list (Window (VideoAcked num)))
  : M num (odict SchemeKey (num * Z)) :=
  fold_each windows (fun d w => do_collect_ssim pg w d) [].

Definition collect_ssim (pg : MetadataStore)
    (windows : list (Window (VideoAcked num)))
  : M num (odict SchemeKey (ssim_entry num)) :=
  d <- accumulate_ssim pg windows ;;
  map_each average_ssim d.

Definition do_collect_rebuffer (w : Window Sample) (buffer_stream : BufferStream)
  : M num BufferStream :=
  write_stderr (Processing "client_buffer" (s_str w) (e_str w)) ;;
  fold_each (points w) add_data_point buffer_stream.

Definition collect_rebuffer (pg : MetadataStore) (minutes : Session -> Z)
    (windows : list (Window Sample))
  : M num (gmap SchemeKey AggregateRecord) :=
  buffer_stream <- fold_each windows (fun bs w => do_collect_rebuffer w bs)
                     new_buffer_stream ;;
  buffer_stream <- done_data_points pg minutes buffer_stream ;;
  ret (out buffer_stream).

(** Python's [a / b] on two [int]s: the quotient rounded once;
    [OverflowError] when it is too large for a float. *)
Definition py_int_div (a b : Z) : M num num :=
  if (b =? 0)%Z then raise ZeroDivisionError
  else
    let q := int_div a b in
    if num_isfinite q then ret q else raise OverflowError.

(** An [int] operand of arithmetic with a numpy float, converted to
    binary64: [OverflowError] when it is too large. *)
Definition np_float (z : Z) : M num num :=
  let x := of_int z in
  if num_isfinite x then ret x else raise OverflowError.

(** [ax.scatter(x, y)]: matplotlib wants [x] and [y] of the same size and
    raises [ValueError] for the number [x] against the two-element list
    [[sum, count]] that [collect_ssim] leaves for a scheme without SSIM
    data. *)
Definition scatter (x : num) (y : ssim_entry num) : M num unit :=
  match y with
  | AvgDb _ => emit (Scatter x y)
  | SumCount _ _ => raise ValueError
  end.

(** The body of the [for abr_cc in ssim] loop of [plot_ssim_rebuffer]. *)
Definition plot_scheme (rebuffer : gmap SchemeKey AggregateRecord)
    (item : SchemeKey * ssim_entry num) : M num unit :=
  let abr_cc := fst item in
  match rebuffer !! abr_cc with
  | None => raise (ExitNotInRebuffer abr_cc)
  | Some r =>
      rebuf_m <- py_int_div (total_rebuf r) 60 ;;
      play_h <- py_int_div (total_play r) 3600 ;;
      let abr_cc_str := {| label_scheme := abr_cc;
                           label_rebuf_minutes := rebuf_m;
                           label_play_hours := play_h |} in
      play_m <- py_int_div (total_play r) 60 ;;
      let total_minutes := np_ceil play_m in
      rebuf_minutes <- np_float (rebuf_minute r) ;;
      let rebuf_rate := div rebuf_minutes total_minutes in
      let x := mul rebuf_rate (of_int 100) in           (* % *)
      let y := snd item in
      scatter x y ;;
      emit (Annotate abr_cc_str x y)
  end.

(** The figure's title and axis labels, and the clamping of the x-axis to
    [[0, 100]] (lines 122-127, on the limits matplotlib has chosen), are
    left out: no property below speaks about them. *)
Definition plot_ssim_rebuffer (output : string)
    (ssim : odict SchemeKey (ssim_entry num))
    (rebuffer : gmap SchemeKey AggregateRecord) : M num unit :=
  for_each ssim (plot_scheme rebuffer) ;;
  emit (Savefig output) ;;
  write_stderr (SavedPlot output).

(** [main], from the two collections on ([print(ssim)] and
    [print(rebuffer)] left out). *)
Definition report (output : string) (pg : MetadataStore) (minutes : Session -> Z)
    (video_acked : list (Window (VideoAcked num)))
    (client_buffer : list (Window Sample)) : M num unit :=
  ssim <- collect_ssim pg video_acked ;;
  rebuffer <- collect_rebuffer pg minutes client_buffer ;;
  if bool_decide (ssim = []) || bool_decide (rebuffer = ∅) then raise ExitNoData
  else plot_ssim_rebuffer output ssim rebuffer.
End PlotSsimRebuffer.

(* ===================================================================== *)
(** * scripts/plot_bbr_vs_cubic.py *)
(* ===================================================================== *)

(** A session of [collect_video_data] / [collect_buffer_data]: a tuple
    whose component 3 is the experiment id. *)
Definition VideoSession : Type := string * Z * string * string.

Definition session_3 (session : VideoSession) : string := snd session.

(** [d[session][video_ts]] *)
Record Dsv (num : Type) : Type := { ssim_index : num }.
Global Arguments ssim_index {num} _.

(** [d[session]] of [collect_buffer_data] *)
Record PlayRebuf (num : Type) : Type := { rebuf : num; play : num }.
Global Arguments rebuf {num} _.
Global Arguments play {num} _.

Section PlotBbrVsCubic.
Context {num : Type} `{Arith num} `{DbScale num}.

(** [collect_data.VIDEO_DURATION], a constant of a module that is not
    among the sources. *)
Variable VIDEO_DURATION : Z.

(** [data[cc].append(x)] *)
Definition append_to (cc : string) (x : num) (data : odict string (list num))
  : odict string (list num) :=
  oupdate cc (fun l => l ++ [x]) data.

(** The body of the [for video_ts in d[session]] loop of [plot_ssim]. *)
Definition plot_ssim_video (cc : string) (ds : odict Z (Dsv num))
    (acc : odict string (list num) * odict string (list num))
    (item : Z * Dsv num)
  : odict string (list num) * odict string (list num) :=
  let video_ts := fst item in
  let dsv := snd item in
  (* append SSIM *)
  let curr_ssim_index := ssim_index dsv in
  if num_eqb curr_ssim_index (of_int 1) then acc
  else
    let curr_ssim_db := ssim_index_to_db curr_ssim_index in
    let ssim_by_cc := append_to cc curr_ssim_db (fst acc) in
    (* append SSIM variation *)
    let prev_ts := (video_ts - VIDEO_DURATION)%Z in
    match oget prev_ts ds with
    | None => (ssim_by_cc, snd acc)
    | Some prev =>
        let prev_ssim_index := ssim_index prev in
        if num_eqb prev_ssim_index (of_int 1) then (ssim_by_cc, snd acc)
        else
          let prev_ssim_db := ssim_index_to_db prev_ssim_index in
          let ssim_diff := nabs (sub curr_ssim_db prev_ssim_db) in
          (ssim_by_cc, append_to cc ssim_diff (snd acc))
    end.

(** The body of the [for session in d] loop of [plot_ssim]. *)
Definition plot_ssim_session (pg : MetadataStore)
    (acc : odict string (list num) * odict string (list num))
    (item : VideoSession * odict Z (Dsv num))
  : M num (odict string (list num) * odict string (list num)) :=
  let session := fst item in
  let expt_id := session_3 session in
  expt_config <- retrieve_expt_config pg expt_id ;;
  let cc := congestion_control expt_config in
  let acc := if ocontains cc (fst acc) then acc
             else (oset cc [] (fst acc), oset cc [] (snd acc)) in
  ret (fold_left (plot_ssim_video cc (snd item)) (snd item) acc).

(** [plot_ssim_cdf] and [plot_ssim_var_cdf]: the series handed to
    matplotlib, and the line written to stderr.  The histograms are taken
    over the fixed ranges [[0, 25]] and [[0, 4]]. *)
Definition plot_cdf (figname : string) (data : odict string (list num))
  : M num unit :=
  emit (CdfSeries figname data) ;;
  write_stderr (SavedPlot figname).

(** [np.min] and [np.max] of a list: a NaN among the values is the result;
    an empty list has no minimum. *)
Definition np_minimum (x y : num) : num :=
  if num_isnan x then x else if num_isnan y then y
  else if num_ltb y x then y else x.

Definition np_maximum (x y : num) : num :=
  if num_isnan x then x else if num_isnan y then y
  else if num_ltb x y then y else x.

Definition np_min (values : list num) : M num num :=
  match values with
  | [] => raise ValueError
  | x :: rest => ret (fold_left np_minimum rest x)
  end.

Definition np_max (values : list num) : M num num :=
  match values with
  | [] => raise ValueError
  | x :: rest => ret (fold_left np_maximum rest x)
  end.

(** The body of the first [for cc in data] loop of [plot_rebuf_rate_cdf],
    on [(x_min, x_max)]. *)
Definition rate_range (range : option num * option num)
    (item : string * list num) : M num (option num * option num) :=
  data_min <- np_min (snd item) ;;
  let x_min := match fst range with
               | None => data_min
               | Some x_min => if num_ltb data_min x_min then data_min else x_min
               end in
  data_max <- np_max (snd item) ;;
  let x_max := match snd range with
               | None => data_max
               | Some x_max => if num_ltb x_max data_max then data_max else x_max
               end in
  ret (Some x_min, Some x_max).

(** What [np.histogram(data[cc], bins=num_bins, range=(x_min, x_max))]
    asks of its range.  The edges must be in order and both finite, or it
    raises [ValueError].  An empty range is then widened by a half on
    either side, and the bin of a value is its distance to the first edge
    divided by the width of the range: when that width is still zero, or
    is too large for a float, the quotient of the greatest value is a NaN,
    and the bin looked up for it is out of bounds. *)
Definition np_histogram_range (range : option num * option num) : M num unit :=
  match range with
  | (Some first_edge, Some last_edge) =>
      if num_ltb last_edge first_edge then raise ValueError
      else if negb (num_isfinite first_edge && num_isfinite last_edge)
      then raise ValueError
      else
        let half := div (of_int 1) (of_int 2) in
        let empty := num_eqb first_edge last_edge in
        let first_edge := if empty then sub first_edge half else first_edge in
        let last_edge := if empty then add last_edge half else last_edge in
        let width := sub last_edge first_edge in
        if num_isfinite width && num_ltb (of_int 0) width then ret tt
        else raise IndexError
  | _ => raise TypeError
  end.

(** The two [for cc in data] loops of [plot_rebuf_rate_cdf]: the range
    of the histograms is taken from the data, and tested by every
    [np.histogram]. *)
Definition rebuf_rate_histograms (data : odict string (list num)) : M num unit :=
  range <- fold_each data rate_range (None, None) ;;
  for_each data (fun _ => np_histogram_range range).

Definition plot_rebuf_rate_cdf (data : odict string (list num)) : M num unit :=
  rebuf_rate_histograms data ;;
  emit (CdfSeries "bbr_cubic_rebuf_rate_cdf.png" data) ;;
  write_stderr (SavedPlot "bbr_cubic_rebuf_rate_cdf.png").

Definition plot_ssim (pg : MetadataStore)
    (d : odict VideoSession (odict Z (Dsv num))) : M num unit :=
  series <- fold_each d (plot_ssim_session pg) ([], []) ;;
  (* plot CDF of SSIM *)
  plot_cdf "bbr_cubic_ssim_cdf.png" (fst series) ;;
  (* plot CDF of SSIM variation *)
  plot_cdf "bbr_cubic_ssim_var_cdf.png" (snd series).

(** Python's [/] on [int] and [float] operands. *)
Definition py_div (a b : num) : M num num :=
  if num_eqb b (of_int 0) then raise ZeroDivisionError else ret (div a b).

(** The body of the [for session in d] loop of [plot_rebuf_rate]. *)
Definition plot_rebuf_rate_session (pg : MetadataStore)
    (rebuf_rate_by_cc : odict string (list num))
    (item : VideoSession * PlayRebuf num) : M num (odict string (list num)) :=
  let session := fst item in
  let expt_id := session_3 session in
  expt_config <- retrieve_expt_config pg expt_id ;;
  let cc := congestion_control expt_config in
  let rebuf_rate_by_cc := osetdefault cc [] rebuf_rate_by_cc in
  rate <- py_div (mul (of_int 100) (rebuf (snd item))) (play (snd item)) ;;
  ret (append_to cc rate rebuf_rate_by_cc).

Definition plot_rebuf_rate (pg : MetadataStore)
    (d : odict VideoSession (PlayRebuf num)) : M num unit :=
  rebuf_rate_by_cc <- fold_each d (plot_rebuf_rate_session pg) [] ;;
  (* plot CDF of rebuffer rate *)
  plot_rebuf_rate_cdf rebuf_rate_by_cc.
End PlotBbrVsCubic.

(** [main], from the two plots on: [video_data] and [buffer_data] come from
    [collect_data], which is not among the sources. *)
Definition bbr_vs_cubic_main {num} `{Arith num} `{DbScale num}
    (VIDEO_DURATION : Z) (pg : MetadataStore)
    (video_data : odict VideoSession (odict Z (Dsv num)))
    (buffer_data : odict VideoSession (PlayRebuf num)) : M num unit :=
  (* plot SSIM and its variation *)
  plot_ssim VIDEO_DURATION pg video_data ;;
  (* plot rebuffer rate *)
  plot_rebuf_rate pg buffer_data.

(* ===================================================================== *)
(** * Vocabulary of the properties *)
(* ===================================================================== *)

(** What resolving [expt_id] yields in world [w]: the cached
    configuration, else the parsed row of the metadata store. *)
Definition resolved {num} (pg : MetadataStore) (w : World num) (expt_id : string)
  : option ExperimentConfig :=
  match expt w !! expt_id with
  | Some config => Some config
  | None =>
      match lookup_row pg expt_id with
      | Some payload => parse_config expt_id payload
      | None => None
      end
  end.

(** [w'] is a later state of a run started in [w]: the cache only gained
    entries that agree with the store, and earlier output is still there. *)
Record later {num} (pg : MetadataStore) (w w' : World num) : Prop := {
  later_resolved : ∀ expt_id, resolved pg w' expt_id = resolved pg w expt_id;
  later_cache : ∀ expt_id config,
      expt w !! expt_id = Some config → expt w' !! expt_id = Some config;
  later_stderr : ∃ more, stderr w' = more ++ stderr w;
  later_plots : ∃ more, plots w' = more ++ plots w
}.

(** [c] only moves the world forward. *)
Definition steady {num A} (pg : MetadataStore) (c : M num A) : Prop :=
  ∀ w, later pg w (snd (c w)).

(** A sample the reconstructor counts: timestamp and indicator present, no
    no-playback sentinel. *)
Definition usable (pt : Sample) : Prop :=
  is_Some (sample_timestamp pt) ∧ is_Some (sample_indicator pt)
  ∧ sample_no_playback pt = false.

Definition timestamps (samples : list Sample) : list Z :=
  omap sample_timestamp samples.

(** All points of a paginated query, in arrival order. *)
Definition all_points {A} (windows : list (Window A)) : list A :=
  concat (map points windows).

Definition mk_sample (key : SessionKey) (ts : Z) (i : Indicator) : Sample :=
  {| sample_session := key; sample_timestamp := Some ts;
     sample_indicator := Some i; sample_no_playback := false |}.

(** What [add_data_point] does to the stream, warnings aside. *)
Definition absorb (bs : BufferStream) (pt : Sample) : BufferStream :=
  match sample_timestamp pt, sample_indicator pt with
  | Some ts, Some i =>
      if sample_no_playback pt then bs
      else
        let key := sample_session pt in
        match advance (default new_session (oget key (smap bs))) ts i with
        | Some s' => {| smap := oset key s' (smap bs); out := out bs |}
        | None => bs
        end
  | _, _ => bs
  end.

(** The world after the matplotlib calls [events] (in call order). *)
Definition draw {num} (events : list (plot_event num)) (w : World num) : World num :=
  {| expt := expt w; pg_queries := pg_queries w; stderr := stderr w;
     plots := rev events ++ plots w |}.

(** The values [plot_ssim_rebuffer] computes for a scheme with the totals
    [r], when no conversion overflows: [total_minutes], [rebuf_rate], [x]
    and the annotation. *)
Definition total_minutes {num} `{Arith num} (r : AggregateRecord) : num :=
  np_ceil (int_div (total_play r) 60).

Definition rebuf_rate {num} `{Arith num} (r : AggregateRecord) : num :=
  div (of_int (rebuf_minute r)) (total_minutes r).

Definition rebuf_percent {num} `{Arith num} (r : AggregateRecord) : num :=
  mul (rebuf_rate r) (of_int 100).

Definition abr_cc_str {num} `{Arith num} (abr_cc : SchemeKey) (r : AggregateRecord)
  : label num :=
  {| label_scheme := abr_cc;
     label_rebuf_minutes := int_div (total_rebuf r) 60;
     label_play_hours := int_div (total_play r) 3600 |}.

(** The totals [r] are within the range of the number type: none of the
    divisions and conversions of [plot_ssim_rebuffer] overflows. *)
Definition convertible {num} `{Arith num} (r : AggregateRecord) : bool :=
  num_isfinite (int_div (total_rebuf r) 60 : num)
  && num_isfinite (int_div (total_play r) 3600 : num)
  && num_isfinite (int_div (total_play r) 60 : num)
  && num_isfinite (of_int (rebuf_minute r) : num).

(** The entry is an average in dB, not a raw [[sum, count]] list. *)
Definition averaged {num} (y : ssim_entry num) : bool :=
  match y with
  | AvgDb _ => true
  | SumCount _ _ => false
  end.

(** Nothing but a missing key can stop the reporter at [item]: its entry
    is an average, and its totals, if it has any, are convertible. *)
Definition drawable {num} `{Arith num} (rebuffer : gmap SchemeKey AggregateRecord)
    (item : SchemeKey * ssim_entry num) : bool :=
  averaged (snd item)
  && match rebuffer !! fst item with
     | Some r => convertible (num:=num) r
     | None => true
     end.

(** What one scheme adds to the figure. *)
Definition scheme_drawing {num} `{Arith num}
    (rebuffer : gmap SchemeKey AggregateRecord) (item : SchemeKey * ssim_entry num)
  : list (plot_event num) :=
  match rebuffer !! fst item with
  | Some r => [Scatter (rebuf_percent r) (snd item);
               Annotate (abr_cc_str (fst item) r) (rebuf_percent r) (snd item)]
  | None => []
  end.

(** Both scripts group their input by scheme with the same loop body:
    [if k not in d: d[k] = v0], then [d[k]] is updated in place. *)
Definition group_step {K} `{EqDecision K} {V X} (v0 : V) (f : X → V → V)
    (d : odict K V) (kx : K * X) : odict K V :=
  oupdate (fst kx) (f (snd kx)) (osetdefault (fst kx) v0 d).

(** The items whose experiment resolves, each with its scheme; [None] when
    some experiment does not resolve. *)
Fixpoint tag_all {num K X} (expt_of : X → string) (scheme : ExperimentConfig → K)
    (pg : MetadataStore) (w : World num) (xs : list X) : option (list (K * X)) :=
  match xs with
  | [] => Some []
  | x :: rest =>
      match resolved pg w (expt_of x), tag_all expt_of scheme pg w rest with
      | Some config, Some tagged => Some ((scheme config, x) :: tagged)
      | _, _ => None
      end
  end.

(** The items of scheme [k]. *)
Definition of_scheme {K} `{EqDecision K} {X} (k : K) (tagged : list (K * X))
  : list X :=
  map snd (List.filter (λ kx, bool_decide (fst kx = k)) tagged).

(** [c] neither reads nor changes the world. *)
Definition stateless {num A} (c : M num A) : Prop :=
  ∀ w w0, c w = (fst (c w0), w).

(** How the two loops of [plot_rebuf_rate_cdf] end on [data]; they neither
    read nor change the world. *)
Definition histograms_outcome {num} `{Arith num} (data : odict string (list num))
  : outcome unit :=
  fst (rebuf_rate_histograms data
         {| expt := ∅; pg_queries := []; stderr := []; plots := [] |}).

(** The two loops go through on [data]: no series is empty, and the least
    and the greatest value, as the first loop finds them, are finite, in
    order, and span a range [np.histogram] can divide into bins. *)
Definition plottable {num} `{Arith num} (data : odict string (list num)) : bool :=
  match histograms_outcome data with
  | Return _ => true
  | Raise _ => false
  end.

(** [np.histogram] refuses the range taken from [data], or [np.min] an
    empty series. *)
Definition refused {num} `{Arith num} (data : odict string (list num)) : bool :=
  match histograms_outcome data with
  | Raise ValueError => true
  | _ => false
  end.

(** [100 * d[session]['rebuf'] / d[session]['play']], once the division
    has gone through. *)
Definition session_rate {num} `{Arith num} (item : VideoSession * PlayRebuf num) : num :=
  div (mul (of_int 100) (rebuf (snd item))) (play (snd item)).

Definition zero_play {num} `{Arith num} (item : VideoSession * PlayRebuf num) : bool :=
  num_eqb (play (snd item)) (of_int 0).

(** What a point does to its scheme's [[sum, count]] list. *)
Definition ssim_step {num} `{Arith num} `{SsimIndex num} (pt : VideoAcked num)
  : num * Z → num * Z :=
  match get_ssim_index pt with
  | Some ssim_index => λ sc, (add (fst sc) ssim_index, (snd sc + 1)%Z)
  | None => λ sc, sc
  end.

(** The SSIM indices that are aggregated, in arrival order. *)
Fixpoint indices {num} `{SsimIndex num} (pts : list (VideoAcked num)) : list num :=
  match pts with
  | [] => []
  | pt :: rest =>
      match get_ssim_index pt with
      | Some ssim_index => ssim_index :: indices rest
      | None => indices rest
      end
  end.

(** [d[abr_cc]] once the loop of [collect_ssim] has passed over it. *)
Definition ssim_average {num} `{Arith num} `{DbScale num} (sc : num * Z)
  : ssim_entry num :=
  if (snd sc =? 0)%Z then SumCount (fst sc) (snd sc)
  else AvgDb (ssim_index_to_db (div (fst sc) (of_int (snd sc)))).

(** The schemes [collect_ssim] warns about, in order. *)
Definition no_ssim_data {num} (d : odict SchemeKey (num * Z)) : list message :=
  map (λ item, WarnNoSsim (fst item)) (List.filter (λ item, (snd (snd item) =? 0)%Z) d).

(** The world after the lines [msgs] (in order) were written to stderr. *)
Definition say {num} (msgs : list message) (w : World num) : World num :=
  {| expt := expt w; pg_queries := pg_queries w;
     stderr := rev msgs ++ stderr w; plots := plots w |}.

(** [d[abr_cc][0] / d[abr_cc][1]] *)
Definition avg_ssim_index {num} `{Arith num} (sc : num * Z) : num :=
  div (fst sc) (of_int (snd sc)).

(** A [video_acked] point whose SSIM index is exactly 1. *)
Definition perfect {num} `{Arith num} (pt : VideoAcked num) : bool :=
  match va_ssim_index pt with
  | Some index => num_eqb index (of_int 1)
  | None => false
  end.

(** A window without its perfect points. *)
Definition drop_perfect {num} `{Arith num} (win : Window (VideoAcked num))
  : Window (VideoAcked num) :=
  {| s_str := s_str win; e_str := e_str win;
     points := List.filter (λ pt, negb (perfect pt)) (points win) |}.

(** [d[session][video_ts]] has SSIM index 1. *)
Definition perfect_dsv {num} `{Arith num} (entry : Z * Dsv num) : bool :=
  num_eqb (ssim_index (snd entry)) (of_int 1).

(** A session of [collect_video_data] without its perfect chunks. *)
Definition drop_perfect_chunks {num} `{Arith num}
    (item : VideoSession * odict Z (Dsv num)) : VideoSession * odict Z (Dsv num) :=
  (fst item, List.filter (λ entry, negb (perfect_dsv entry)) (snd item)).

(** [c] leaves the figure as it is. *)
Definition quiet {num A} (c : M num A) : Prop :=
  ∀ w, plots (snd (c w)) = plots w.

(** [list(d)] after [if k not in d: d[k] = ...], from [list(d)] before. *)
Definition note_key {K} `{EqDecision K} (keys : list K) (k : K) : list K :=
  if decide (k ∈ keys) then keys else keys ++ [k].

(** The distinct elements of [ks], in order of first appearance. *)
Definition first_seen {K} `{EqDecision K} (ks : list K) : list K :=
  fold_left note_key ks [].

(** A measure of the values of a dictionary, summed over its items. *)
Definition weigh {K V} (m : V → Z) (d : odict K V) : Z :=
  foldr (λ item total, (m (snd item) + total)%Z) 0%Z d.

(** The first loop of [collect_ssim] on the points of all windows taken as
    one sequence, resolution answering as it does in world [w]. *)
Fixpoint accumulate_points {num} `{Arith num} `{SsimIndex num}
    (pg : MetadataStore) (w : World num) (pts : list (VideoAcked num))
    (d : odict SchemeKey (num * Z)) : outcome (odict SchemeKey (num * Z)) :=
  match pts with
  | [] => Return d
  | pt :: rest =>
      match resolved pg w (va_expt_id pt) with
      | Some config =>
          accumulate_points pg w rest
            (group_step (of_int 0, 0%Z) ssim_step d (get_abr_cc config, pt))
      | None => Raise (ConfigResolutionError (va_expt_id pt))
      end
  end.

(** The lines [do_collect_ssim] writes for the windows, in order. *)
Definition processing {A} (measurement : string) (windows : list (Window A))
  : list message :=
  map (λ win, Processing measurement (s_str win) (e_str win)) windows.

(** What a chunk adds to the SSIM series of its session's cc. *)
Definition chunk_ssim {num} `{Arith num} `{DbScale num} (entry : Z * Dsv num)
  : list num :=
  if perfect_dsv entry then []
  else [ssim_index_to_db (ssim_index (snd entry))].

(** What a chunk adds to the variation series of its session's cc: the
    distance to the chunk [VIDEO_DURATION] earlier in the same session,
    when there is one and neither has index 1. *)
Definition chunk_variation {num} `{Arith num} `{DbScale num} (VIDEO_DURATION : Z)
    (ds : odict Z (Dsv num)) (entry : Z * Dsv num) : list num :=
  if perfect_dsv entry then []
  else
    match oget (fst entry - VIDEO_DURATION)%Z ds with
    | Some prev =>
        if num_eqb (ssim_index prev) (of_int 1) then []
        else [nabs (sub (ssim_index_to_db (ssim_index (snd entry)))
                        (ssim_index_to_db (ssim_index prev)))]
    | None => []
    end.

Definition session_ssim {num} `{Arith num} `{DbScale num}
    (item : VideoSession * odict Z (Dsv num)) : list num :=
  flat_map chunk_ssim (snd item).

Definition session_variation {num} `{Arith num} `{DbScale num} (VIDEO_DURATION : Z)
    (item : VideoSession * odict Z (Dsv num)) : list num :=
  flat_map (chunk_variation VIDEO_DURATION (snd item)) (snd item).

(** The body of the [for session in d] loop of [plot_ssim], once the
    session's cc is known. *)
Definition plot_ssim_chunks {num} `{Arith num} `{DbScale num} (VIDEO_DURATION : Z)
    (acc : odict string (list num) * odict string (list num))
    (kx : string * (VideoSession * odict Z (Dsv num)))
  : odict string (list num) * odict string (list num) :=
  let cc := fst kx in
  let ds := snd (snd kx) in
  let acc := if ocontains cc (fst acc) then acc
             else (oset cc [] (fst acc), oset cc [] (snd acc)) in
  fold_left (plot_ssim_video VIDEO_DURATION cc ds) ds acc.

(** The series bound to [k] when every item of [k] appends [g item] to it:
    unbound when no item is of [k]. *)
Definition series_of {K} `{EqDecision K} {X B} (g : X → list B)
    (tagged : list (K * X)) (k : K) : option (list B) :=
  if decide (k ∈ map fst tagged) then Some (flat_map g (of_scheme k tagged))
  else None.

(** The three figures of [plot_bbr_vs_cubic.py]. *)
Definition ssim_cdf {num} (series : odict string (list num) * odict string (list num))
  : list (plot_event num) :=
  [CdfSeries "bbr_cubic_ssim_var_cdf.png" (snd series);
   CdfSeries "bbr_cubic_ssim_cdf.png" (fst series)].

(** What [done_data_points] folds the sessions into, resolution answering
    as it does in world [w]: a session whose experiment does not resolve
    is left out, or ends the run when the configurations were preloaded. *)
Fixpoint finalize {num} (pg : MetadataStore) (w : World num) (minutes : Session → Z)
    (sessions : odict SessionKey Session) (o : gmap SchemeKey AggregateRecord)
  : outcome (gmap SchemeKey AggregateRecord) :=
  match sessions with
  | [] => Return o
  | item :: rest =>
      match resolved pg w (session_expt (fst item)) with
      | Some config =>
          finalize pg w minutes rest
            (<[get_abr_cc config := fold_session (minutes (snd item)) (snd item)
                                      (o !! get_abr_cc config)]> o)
      | None =>
          match pg with
          | Some _ => finalize pg w minutes rest o
          | None => Raise (ConfigResolutionError (session_expt (fst item)))
          end
      end
  end.

(* ===================================================================== *)
(** * Sample data *)
(* ===================================================================== *)

(** Sample data: a metadata store with two experiments, and a fresh run. *)
Definition example_store : MetadataStore :=
  Some (<["1"%string := <["cc"%string := "bbr"%string]>
                          (<["abr"%string := "linear_bba"%string]> ∅)]>
       (<["2"%string := <["cc"%string := "cubic"%string]>
                          (<["abr"%string := "linear_bba"%string]> ∅)]> ∅)).

Definition fresh_world {num} : World num :=
  {| expt := ∅; pg_queries := []; stderr := []; plots := [] |}.

Definition bbr : SchemeKey := (Some "linear_bba"%string, "bbr"%string).
Definition cubic : SchemeKey := (Some "linear_bba"%string, "cubic"%string).

(** The scenario of the design document: t=0 playing, t=10 playing,
    t=10 rebuffering, t=40 playing. *)
Definition scenario : list Sample :=
  let key : SessionKey := ("client"%string, 0%Z, "1"%string) in
  [mk_sample key 0 Playing; mk_sample key 10 Playing;
   mk_sample key 10 Rebuffering; mk_sample key 40 Playing].

(** The scenario, delivered in two pages. *)
Definition scenario_pages : list (Window Sample) :=
  [{| s_str := "2019-01-01T11:00:00Z"; e_str := "2019-01-02T11:00:00Z";
      points := take 3 scenario |};
   {| s_str := "2019-01-02T11:00:00Z"; e_str := "2019-01-03T11:00:00Z";
      points := drop 3 scenario |}].

(** Sample data: one scheme with an SSIM average, rebuffer totals for two. *)
Definition ssim_bbr_only : odict SchemeKey (ssim_entry float) :=
  [(bbr, AvgDb 15%float)].

Definition rebuffer_both : gmap SchemeKey AggregateRecord :=
  (<[bbr := Build_AggregateRecord 5400 60 1]>
     (<[cubic := Build_AggregateRecord 7200 120 2]> ∅)).

(** Two finished sessions of one scheme: an hour of play with a minute of
    rebuffering, half an hour of play without.  The rebuffered minutes of
    the sessions, 1 and 0, are given, as the design document's example
    gives them ("rebuf_minutes=1"). *)
Definition two_sessions : AggregateRecord :=
  let s1 := {| state := PLAYING; last_seen := 3660;
               total_play_seconds := 3600; total_rebuf_seconds := 60 |} in
  let s2 := {| state := PLAYING; last_seen := 1800;
               total_play_seconds := 1800; total_rebuf_seconds := 0 |} in
  fold_session 0 s2 (Some (fold_session 1 s1 None)).

(** Sample data: two sessions of experiment "1" (bbr), the second one
    without any play time. *)
Definition session_a : VideoSession := ("alice"%string, 1%Z, "nbc"%string, "1"%string).
Definition session_b : VideoSession := ("bob"%string, 2%Z, "nbc"%string, "1"%string).

Definition buffer_data_zero_play : odict VideoSession (PlayRebuf float) :=
  [(session_a, {| rebuf := 5%float; play := 100%float |});
   (session_b, {| rebuf := 3%float; play := 0%float |})].

Definition buffer_data_played : odict VideoSession (PlayRebuf float) :=
  [(session_a, {| rebuf := 5%float; play := 100%float |});
   (session_b, {| rebuf := 3%float; play := 60%float |})].

(** A window whose only point carries no SSIM index. *)
Definition silent_window : Window (VideoAcked R) :=
  {| s_str := "2019-01-01T11:00:00Z"; e_str := "2019-01-02T11:00:00Z";
     points := [{| va_expt_id := "2"; va_ssim_index := None |}] |}.

(** Two points of experiment "1" (bbr) with indices 0 and 0.9. *)
Definition two_indices : Window (VideoAcked R) :=
  {| s_str := "2019-01-01T11:00:00Z"; e_str := "2019-01-02T11:00:00Z";
     points := [{| va_expt_id := "1"; va_ssim_index := Some 0%R |};
                {| va_expt_id := "1"; va_ssim_index := Some 0.9%R |}] |}.

Definition acked (expt_id : string) (index : float) : VideoAcked float :=
  {| va_expt_id := expt_id; va_ssim_index := Some index |}.

(** The same three samples of experiment "1" (bbr), in two orders. *)
Definition ascending : Window (VideoAcked float) :=
  {| s_str := "2019-01-01T11:00:00Z"; e_str := "2019-01-02T11:00:00Z";
     points := [acked "1" 0.1; acked "1" 0.2; acked "1" 0.3]%float |}.

Definition descending : Window (VideoAcked float) :=
  {| s_str := "2019-01-01T11:00:00Z"; e_str := "2019-01-02T11:00:00Z";
     points := [acked "1" 0.3; acked "1" 0.2; acked "1" 0.1]%float |}.

(** A session with chunks at 0, 180180 and 360360, the middle one with
    index 1; and a window with a perfect point between two others. *)
Definition video_data_perfect : odict VideoSession (odict Z (Dsv R)) :=
  [(session_a, [(0%Z, {| ssim_index := 0.9%R |});
                (180180%Z, {| ssim_index := 1%R |});
                (360360%Z, {| ssim_index := 0.99%R |})])].

Definition window_perfect : Window (VideoAcked R) :=
  {| s_str := "2019-01-01T11:00:00Z"; e_str := "2019-01-02T11:00:00Z";
     points := [{| va_expt_id := "1"; va_ssim_index := Some 0.9%R |};
                {| va_expt_id := "1"; va_ssim_index := Some 1%R |};
                {| va_expt_id := "2"; va_ssim_index := Some 1%R |}] |}.

(** The two points of [two_indices], one per page. *)
Definition two_indices_pages : list (Window (VideoAcked R)) :=
  [{| s_str := "2019-01-01T11:00:00Z"; e_str := "2019-01-02T11:00:00Z";
      points := take 1 (points two_indices) |};
   {| s_str := "2019-01-02T11:00:00Z"; e_str := "2019-01-03T11:00:00Z";
      points := drop 1 (points two_indices) |}].

(** A window whose second point is of an experiment the store does not
    know. *)
Definition window_unknown : Window (VideoAcked R) :=
  {| s_str := "2019-01-01T11:00:00Z"; e_str := "2019-01-02T11:00:00Z";
     points := [{| va_expt_id := "1"; va_ssim_index := None |};
                {| va_expt_id := "3"; va_ssim_index := None |};
                {| va_expt_id := "2"; va_ssim_index := None |}] |}.

(** A session of experiment "2" (cubic) whose only chunk has index 1. *)
Definition video_data_only_perfect : odict VideoSession (odict Z (Dsv R)) :=
  [(("carol"%string, 3%Z, "nbc"%string, "2"%string),
    [(0%Z, {| ssim_index := 1%R |})])].

(** Sample data: SSIM averages for two schemes, rebuffer totals for the
    first only. *)
Definition ssim_both : odict SchemeKey (ssim_entry float) :=
  [(bbr, AvgDb 15%float); (cubic, AvgDb 14%float)].

Definition rebuffer_bbr_only : gmap SchemeKey AggregateRecord :=
  <[bbr := Build_AggregateRecord 5400 60 1]> ∅.

(* ===================================================================== *)
(** * Lemmas: numbers *)
(* ===================================================================== *)

(** [float_of_int] and [float_ceil] against values of [float(z)] and
    [np.ceil]: ties go to even, the sign of zero is kept, and values
    without a fractional part are fixed points. *)
Lemma float_of_int_values :
  map float_of_int [0; 1; 60; 100; 3600; -7; 9007199254740993]%Z
  = [0; 1; 60; 100; 3600; -7; 9007199254740992]%float.
Proof. reflexivity. Qed.

Lemma float_ceil_values :
  map float_ceil [90; 89.2; 0.5; 1.5; 2.5; 0; -0; -0.5; -1.5; 1e-300;
                  4503599627370495.5; 1e300; infinity; neg_infinity]%float
  = [90; 90; 1; 2; 3; 0; -0; -0; -1; 1;
     4503599627370496; 1e300; infinity; neg_infinity]%float.
Proof. reflexivity. Qed.

(** [float_int_div] against values of Python's [int / int]: the exact
    quotient is rounded once (converting the dividend first would round
    twice), and the largest quotient that does not overflow is finite. *)
Lemma float_int_div_values :
  map (λ ab, float_int_div (fst ab) (snd ab))
    [(5400, 60); (5401, 60); (1, 3600); (-7, 60); (0, 60);
     (2885625564274332318, 60); (15086501732307615, 60);
     (540431955284459580, 60); (10 ^ 30, 60);
     ((2 ^ 1024 - 2 ^ 970) * 60 - 1, 60); ((2 ^ 1024 - 2 ^ 970) * 60, 60)]%Z
  = [90; 0x1.6811111111111p+6; 0x1.23456789abcdfp-12; -0x1.ddddddddddddep-4; 0;
     0x1.55ba09ea71fc6p+55; 0x1.c95ea9e37a388p+47;
     9007199254740992; 0x1.aed2bf933c982p+93;
     0x1.fffffffffffffp+1023; infinity]%float
  ∧ PrimFloat.eqb (of_int 15086501732307615 / 60)
      (float_int_div 15086501732307615 60) = false.
Proof. split; reflexivity. Qed.

(** The minutes of play of a scheme: the quotient by 60, rounded up. *)
Lemma minutes_of_play_values :
  map (λ r, total_minutes (num:=float) r)
    [Build_AggregateRecord 5400 60 1; Build_AggregateRecord 5401 60 1;
     Build_AggregateRecord 59 0 0; Build_AggregateRecord 0 0 0]
  = [90; 91; 1; 0]%float.
Proof. reflexivity. Qed.

(* ===================================================================== *)
(** * Lemmas: dictionaries *)
(* ===================================================================== *)

Section ODictFacts.
Context {K : Type} `{EqDecision K} {V : Type}.
Implicit Types (k : K) (v : V) (d : odict K V).

Lemma oget_oset_eq k v d : oget k (oset k v d) = Some v.
Proof.
  induction d as [|[k' v'] d IH]; simpl.
  - by rewrite decide_True.
  - destruct (decide (k = k')) as [->|Hne]; simpl.
    + by rewrite decide_True.
    + by rewrite decide_False.
Qed.

Lemma oget_oset_ne k k' v d : k ≠ k' → oget k' (oset k v d) = oget k' d.
Proof.
  intros Hne. induction d as [|[k0 v0] d IH]; simpl.
  - rewrite decide_False; [done | congruence].
  - destruct (decide (k = k0)) as [->|Hk]; simpl.
    + rewrite !decide_False; [done | congruence | congruence].
    + by rewrite IH.
Qed.

Lemma oget_oupdate_eq k (f : V → V) d : oget k (oupdate k f d) = f <$> oget k d.
Proof.
  induction d as [|[k' v'] d IH]; simpl; [done|].
  destruct (decide (k = k')) as [->|Hne]; simpl.
  - by rewrite decide_True.
  - by rewrite decide_False.
Qed.

Lemma oget_oupdate_ne k k' (f : V → V) d :
  k ≠ k' → oget k' (oupdate k f d) = oget k' d.
Proof.
  intros Hne. induction d as [|[k0 v0] d IH]; simpl; [done|].
  destruct (decide (k = k0)) as [->|Hk]; simpl.
  - rewrite !decide_False; [done | congruence | congruence].
  - by rewrite IH.
Qed.

Lemma ocontains_true k d : ocontains k d = true ↔ is_Some (oget k d).
Proof.
  unfold ocontains. destruct (oget k d) as [v|].
  - split; [by eexists | done].
  - split; [done | by intros [? ?]].
Qed.

Lemma oget_osetdefault_eq k v d :
  oget k (osetdefault k v d) = Some (default v (oget k d)).
Proof.
  unfold osetdefault, ocontains. destruct (oget k d) eqn:Hget; simpl.
  - done.
  - apply oget_oset_eq.
Qed.

Lemma oget_osetdefault_ne k k' v d :
  k ≠ k' → oget k' (osetdefault k v d) = oget k' d.
Proof.
  intros Hne. unfold osetdefault. destruct (ocontains k d); [done|].
  by apply oget_oset_ne.
Qed.

Lemma oget_Some_elem k v d : oget k d = Some v → (k, v) ∈ d.
Proof.
  induction d as [|[k' v'] d IH]; simpl; [done|].
  destruct (decide (k = k')) as [->|Hne].
  - intros [= ->]. apply list_elem_of_here.
  - intros Hget. apply list_elem_of_further. by apply IH.
Qed.

Lemma oget_None_keys k d : oget k d = None ↔ k ∉ okeys d.
Proof.
  unfold okeys. induction d as [|[k' v'] d IH]; simpl.
  - split; [intros _; apply not_elem_of_nil | done].
  - rewrite not_elem_of_cons. destruct (decide (k = k')) as [->|Hne].
    + split; [done | intros [Hk _]; done].
    + rewrite IH. tauto.
Qed.

(** Rewriting every value keeps the keys and their order. *)
Lemma oget_map_items {W} (f : K * V → W) k d :
  oget k (map (λ item, (fst item, f item)) d) = (λ v, f (k, v)) <$> oget k d.
Proof.
  induction d as [|[k' v'] d IH]; simpl; [done|].
  destruct (decide (k = k')) as [->|Hne]; [done | apply IH].
Qed.

(** Dropping items of a dictionary (whose keys are distinct). *)
Lemma oget_filter (P : K * V → bool) k d :
  NoDup (okeys d) →
  oget k (List.filter P d)
  = match oget k d with
    | Some v => if P (k, v) then Some v else None
    | None => None
    end.
Proof.
  unfold okeys. induction d as [|[k' v'] d IH]; simpl; [done|].
  intros Hnd. apply NoDup_cons in Hnd as [Hnotin Hnd].
  destruct (decide (k = k')) as [->|Hne].
  - destruct (P (k', v')) eqn:HP; simpl.
    + by rewrite decide_True.
    + rewrite IH by done.
      change (map fst d) with (okeys d) in Hnotin.
      apply oget_None_keys in Hnotin. by rewrite Hnotin.
  - destruct (P (k', v')); simpl.
    + rewrite decide_False by done. by apply IH.
    + by apply IH.
Qed.
End ODictFacts.

(* ===================================================================== *)
(** * Lemmas: the experiment resolver *)
(* ===================================================================== *)

Section Resolver.
Context {num : Type}.
Implicit Types (w : World num) (pg : MetadataStore).

Lemma later_refl pg w : later pg w w.
Proof. split; try done; by exists []. Qed.

Lemma later_trans pg w1 w2 w3 : later pg w1 w2 → later pg w2 w3 → later pg w1 w3.
Proof.
  intros [Hr1 Hc1 [m1 Hs1] [p1 Hp1]] [Hr2 Hc2 [m2 Hs2] [p2 Hp2]]. split.
  - intros i. by rewrite Hr2.
  - eauto.
  - exists (m2 ++ m1). by rewrite Hs2, Hs1, app_assoc.
  - exists (p2 ++ p1). by rewrite Hp2, Hp1, app_assoc.
Qed.

(** Resolution answers with [resolved], and leaves a later world whose
    stderr and figure are untouched. *)
Lemma retrieve_expt_config_spec pg expt_id w :
  ∃ w', retrieve_expt_config pg expt_id w
        = (match resolved pg w expt_id with
           | Some config => Return config
           | None => Raise (ConfigResolutionError expt_id)
           end, w')
        ∧ later pg w w' ∧ stderr w' = stderr w ∧ plots w' = plots w.
Proof.
  unfold retrieve_expt_config, resolved.
  destruct (expt w !! expt_id) as [config|] eqn:Hhit.
  { exists w. split; [done|]. split; [apply later_refl | done]. }
  destruct (lookup_row pg expt_id) as [payload|] eqn:Hrow.
  2:{ eexists. split; [done|]. split; [|done].
      split; simpl; try done; by exists []. }
  destruct (parse_config expt_id payload) as [config|] eqn:Hparse.
  2:{ eexists. split; [done|]. split; [|done].
      split; simpl; try done; by exists []. }
  eexists. split; [done|]. split; [|done].
  split; simpl; try (by exists []).
  - intros i. unfold resolved; simpl.
    destruct (decide (expt_id = i)) as [<-|Hne].
    + by rewrite lookup_insert_eq, Hhit, Hrow.
    + by rewrite lookup_insert_ne.
  - intros i c Hi. destruct (decide (expt_id = i)) as [<-|Hne].
    + congruence.
    + by rewrite lookup_insert_ne.
Qed.

Lemma retrieve_expt_config_hit pg expt_id w config :
  expt w !! expt_id = Some config →
  retrieve_expt_config pg expt_id w = (Return config, w).
Proof. intros Hhit. unfold retrieve_expt_config. by rewrite Hhit. Qed.

Lemma retrieve_expt_config_caches pg expt_id w config w' :
  retrieve_expt_config pg expt_id w = (Return config, w') →
  expt w' !! expt_id = Some config.
Proof.
  unfold retrieve_expt_config.
  destruct (expt w !! expt_id) as [c|] eqn:Hhit.
  { intros [= <- <-]. done. }
  destruct (lookup_row pg expt_id) as [payload|]; [|done].
  destruct (parse_config expt_id payload) as [c|]; [|done].
  intros [= <- <-]. simpl. apply lookup_insert_eq.
Qed.
End Resolver.

(* ===================================================================== *)
(** * Lemmas: every step of a script leads to a later world *)
(* ===================================================================== *)

Section Steady.
Context {num : Type}.
Implicit Types (w : World num) (pg : MetadataStore).

Lemma steady_ret {A} pg (a : A) : steady (num:=num) pg (ret a).
Proof. intros w. apply later_refl. Qed.

Lemma steady_raise {A} pg e : steady (num:=num) (A:=A) pg (raise e).
Proof. intros w. apply later_refl. Qed.

Lemma steady_bind {A B} pg (c : M num A) (k : A → M num B) :
  steady pg c → (∀ a, steady pg (k a)) → steady pg (bind c k).
Proof.
  intros Hc Hk w. unfold bind. specialize (Hc w).
  destruct (c w) as [[a|e] w']; simpl in *; [|done].
  eapply later_trans; [done | apply Hk].
Qed.

Lemma steady_catch {A} pg (c : M num A) (h : exn → M num A) :
  steady pg c → (∀ e, steady pg (h e)) → steady pg (catch c h).
Proof.
  intros Hc Hh w. unfold catch. specialize (Hc w).
  destruct (c w) as [[a|e] w']; simpl in *; [done|].
  eapply later_trans; [done | apply Hh].
Qed.

Lemma steady_write_stderr pg m : steady (num:=num) pg (write_stderr m).
Proof.
  intros w. split; simpl; try done; [by exists [m] | by exists []].
Qed.

Lemma steady_emit pg e : steady (num:=num) pg (emit e).
Proof.
  intros w. split; simpl; try done; [by exists [] | by exists [e]].
Qed.

Lemma steady_retrieve_expt_config pg expt_id :
  steady (num:=num) pg (retrieve_expt_config pg expt_id).
Proof.
  intros w. destruct (retrieve_expt_config_spec pg expt_id w) as (w' & -> & Hl & _).
  done.
Qed.

Lemma steady_for_each {A} pg (xs : list A) (body : A → M num unit) :
  (∀ x, steady pg (body x)) → steady pg (for_each xs body).
Proof.
  intros Hbody. induction xs as [|x xs IH]; simpl.
  - apply steady_ret.
  - apply steady_bind; [apply Hbody | intros _; apply IH].
Qed.

Lemma steady_fold_each {A S} pg (xs : list A) (body : S → A → M num S) s :
  (∀ s x, steady pg (body s x)) → steady pg (fold_each xs body s).
Proof.
  intros Hbody. revert s. induction xs as [|x xs IH]; intros s; simpl.
  - apply steady_ret.
  - apply steady_bind; [apply Hbody | intros s'; apply IH].
Qed.

Lemma steady_map_each {A B} pg (f : A → M num B) (xs : list A) :
  (∀ x, steady pg (f x)) → steady pg (map_each f xs).
Proof.
  intros Hf. induction xs as [|x xs IH]; simpl.
  - apply steady_ret.
  - apply steady_bind; [apply Hf | intros y].
    apply steady_bind; [apply IH | intros ys; apply steady_ret].
Qed.
End Steady.

Create HintDb steady discriminated.
#[export] Hint Resolve steady_ret steady_raise steady_write_stderr steady_emit
  steady_retrieve_expt_config : steady.
#[export] Hint Extern 2 (steady _ (bind _ _)) =>
  (apply steady_bind; [|intros ?]) : steady.
#[export] Hint Extern 2 (steady _ (catch _ _)) =>
  (apply steady_catch; [|intros ?]) : steady.
#[export] Hint Extern 2 (steady _ (for_each _ _)) =>
  (apply steady_for_each; intros ?) : steady.
#[export] Hint Extern 2 (steady _ (fold_each _ _ _)) =>
  (apply steady_fold_each; intros ? ?) : steady.
#[export] Hint Extern 2 (steady _ (map_each _ _)) =>
  (apply steady_map_each; intros ?) : steady.
#[export] Hint Extern 3 (steady _ (match ?x with _ => _ end)) =>
  destruct x : steady.
#[export] Hint Extern 3 (steady _ (if ?x then _ else _)) =>
  destruct x : steady.

Section ScriptsSteady.
Context {num : Type} `{Arith num} `{DbScale num} `{SsimIndex num}.
Implicit Types (pg : MetadataStore).

Lemma steady_add_data_point pg bs pt : steady (num:=num) pg (add_data_point bs pt).
Proof. unfold add_data_point. eauto 30 with steady. Qed.

Lemma steady_done_data_points pg minutes bs :
  steady (num:=num) pg (done_data_points pg minutes bs).
Proof. unfold done_data_points. eauto 30 with steady. Qed.

Lemma steady_collect_point pg d pt : steady pg (collect_point pg d pt).
Proof. unfold collect_point. eauto 30 with steady. Qed.

Lemma steady_do_collect_ssim pg win d : steady pg (do_collect_ssim pg win d).
Proof.
  unfold do_collect_ssim. apply steady_bind; [eauto with steady|intros _].
  apply steady_fold_each. intros. apply steady_collect_point.
Qed.

Lemma steady_accumulate_ssim pg windows : steady pg (accumulate_ssim pg windows).
Proof.
  unfold accumulate_ssim. apply steady_fold_each. intros.
  apply steady_do_collect_ssim.
Qed.

Lemma steady_collect_ssim pg windows : steady pg (collect_ssim pg windows).
Proof.
  unfold collect_ssim. apply steady_bind; [apply steady_accumulate_ssim|intros d].
  apply steady_map_each. intros item. unfold average_ssim. eauto 30 with steady.
Qed.

Lemma steady_collect_rebuffer pg minutes windows :
  steady pg (collect_rebuffer (num:=num) pg minutes windows).
Proof.
  unfold collect_rebuffer. apply steady_bind.
  - apply steady_fold_each. intros bs win. unfold do_collect_rebuffer.
    apply steady_bind; [eauto with steady|intros _].
    apply steady_fold_each. intros. apply steady_add_data_point.
  - intros bs. apply steady_bind; [apply steady_done_data_points|].
    intros; apply steady_ret.
Qed.

Lemma steady_py_int_div pg a b : steady (num:=num) pg (py_int_div a b).
Proof. unfold py_int_div. cbv zeta. eauto with steady. Qed.

Lemma steady_np_float pg z : steady (num:=num) pg (np_float z).
Proof. unfold np_float. cbv zeta. eauto with steady. Qed.

Lemma steady_scatter pg (x : num) y : steady pg (scatter x y).
Proof. unfold scatter. eauto with steady. Qed.

Lemma steady_plot_scheme pg rebuffer item : steady pg (plot_scheme rebuffer item).
Proof.
  unfold plot_scheme. cbv zeta.
  destruct (rebuffer !! fst item); [|apply steady_raise].
  repeat (apply steady_bind; [first [apply steady_py_int_div | apply steady_np_float
                                    | apply steady_scatter]|intros ?]).
  apply steady_emit.
Qed.

Lemma steady_plot_ssim_rebuffer pg output ssim rebuffer :
  steady pg (plot_ssim_rebuffer output ssim rebuffer).
Proof.
  unfold plot_ssim_rebuffer.
  apply steady_bind; [apply steady_for_each; intros; apply steady_plot_scheme|].
  intros _. eauto with steady.
Qed.

Lemma steady_plot_ssim pg VIDEO_DURATION d :
  steady pg (plot_ssim VIDEO_DURATION pg d).
Proof.
  unfold plot_ssim, plot_ssim_session, plot_cdf. eauto 30 with steady.
Qed.

Lemma steady_np_min pg (values : list num) : steady pg (np_min values).
Proof. unfold np_min. eauto with steady. Qed.

Lemma steady_np_max pg (values : list num) : steady pg (np_max values).
Proof. unfold np_max. eauto with steady. Qed.

Lemma steady_rate_range pg range item : steady pg (rate_range range item).
Proof.
  unfold rate_range.
  apply steady_bind; [apply steady_np_min|intros data_min].
  apply steady_bind; [apply steady_np_max|intros data_max]. apply steady_ret.
Qed.

Lemma steady_np_histogram_range pg range : steady pg (np_histogram_range range).
Proof.
  unfold np_histogram_range. destruct range as [[first_edge|] [last_edge|]];
    eauto with steady.
Qed.

Lemma steady_plot_rebuf_rate_cdf pg data : steady pg (plot_rebuf_rate_cdf data).
Proof.
  unfold plot_rebuf_rate_cdf, rebuf_rate_histograms.
  apply steady_bind; [|intros _; eauto with steady].
  apply steady_bind; [apply steady_fold_each; intros; apply steady_rate_range|].
  intros range. apply steady_for_each; intros; apply steady_np_histogram_range.
Qed.

Lemma steady_plot_rebuf_rate pg d : steady pg (plot_rebuf_rate pg d).
Proof.
  unfold plot_rebuf_rate.
  apply steady_bind; [|intros; apply steady_plot_rebuf_rate_cdf].
  unfold plot_rebuf_rate_session, py_div. eauto 30 with steady.
Qed.
End ScriptsSteady.

(* ===================================================================== *)
(** * The resolver's cache *)
(* ===================================================================== *)

(** C6.  Once an experiment id has been resolved, resolving it again at any
    later point of the run returns the same configuration and leaves the
    world as it is: in particular no further lookup is sent to the
    metadata store. *)
Theorem retrieve_expt_config_idempotent {num} pg expt_id (w w1 w2 : World num) config :
  retrieve_expt_config pg expt_id w = (Return config, w1) →
  later pg w1 w2 →
  retrieve_expt_config pg expt_id w2 = (Return config, w2)
  ∧ pg_queries (snd (retrieve_expt_config pg expt_id w2)) = pg_queries w2.
Proof.
  intros Hfirst Hlater.
  apply retrieve_expt_config_caches in Hfirst.
  apply (later_cache _ _ _ Hlater) in Hfirst.
  by rewrite (retrieve_expt_config_hit _ _ _ _ Hfirst).
Qed.

(** Resolving "1", then "2", then "1" again: one lookup for each id. *)
Lemma retrieve_expt_config_idempotent_witness :
  let first := retrieve_expt_config (num:=float) example_store "1" fresh_world in
  let between := retrieve_expt_config example_store "2" (snd first) in
  let second := retrieve_expt_config example_store "1" (snd between) in
  fst second = fst first
  ∧ pg_queries (snd second) = ["2"; "1"]%string
  ∧ pg_queries (snd between) = ["2"; "1"]%string.
Proof.
  intros first between second.
  destruct (retrieve_expt_config_idempotent example_store "1" fresh_world
              (snd first) (snd between)
              {| experiment_id := "1"; congestion_control := "bbr";
                 abr_algorithm := Some "linear_bba"%string |}) as [Hsame Hq].
  - reflexivity.
  - apply steady_retrieve_expt_config.
  - subst second. rewrite Hq. split; [|split].
    + rewrite Hsame. reflexivity.
    + reflexivity.
    + reflexivity.
Defined.

(* ===================================================================== *)
(** * Reconstruction of play and rebuffer time *)
(* ===================================================================== *)

Section Reconstruction.
Context {num : Type}.
Implicit Types (w : World num) (bs : BufferStream) (s : Session).

Lemma last_nonempty_default {A} (x : A) (l : list A) (d d' : A) :
  List.last (x :: l) d = List.last (x :: l) d'.
Proof. revert x. induction l as [|y l IH]; intros x; [done | apply IH]. Qed.

Lemma last_cons_default {A} (l : list A) (x d : A) :
  List.last l x = List.last (x :: l) d.
Proof. destruct l as [|y l]; [done | exact (last_nonempty_default y l x d)]. Qed.

Lemma timestamps_cons key ts i samples :
  timestamps (mk_sample key ts i :: samples) = ts :: timestamps samples.
Proof. done. Qed.

(** A session that has seen data absorbs a sample that is not older than
    its last one: the interval goes to exactly one of the totals. *)
Lemma advance_started s ts i :
  state s ≠ NO_DATA → (last_seen s <= ts)%Z →
  ∃ s', advance s ts i = Some s'
        ∧ state s' ≠ NO_DATA ∧ last_seen s' = ts
        ∧ (total_play_seconds s' + total_rebuf_seconds s'
           = total_play_seconds s + total_rebuf_seconds s + (ts - last_seen s))%Z.
Proof.
  intros Hstate Hle. unfold advance.
  assert ((ts <? last_seen s)%Z = false) as -> by lia.
  destruct (state s); [done| |]; eexists; (split; [done|]); simpl;
    (split; [by destruct i|]); (split; [done|]); lia.
Qed.

Lemma add_data_point_usable bs key ts i s' w :
  advance (default new_session (oget key (smap bs))) ts i = Some s' →
  add_data_point bs (mk_sample key ts i) w
  = (Return {| smap := oset key s' (smap bs); out := out bs |}, w).
Proof. intros Hadv. unfold add_data_point; simpl. by rewrite Hadv. Qed.

Lemma usable_mk_sample pt key :
  sample_session pt = key → usable pt →
  ∃ ts i, pt = mk_sample key ts i.
Proof.
  intros <- ([ts Hts] & [i Hi] & Hplay). exists ts, i.
  destruct pt; simpl in *; by subst.
Qed.

(** Samples of one session, fed to a stream that holds only that session
    and has seen data for it. *)
Lemma add_data_points_started key samples : ∀ s o w,
  Forall (λ pt, sample_session pt = key ∧ usable pt) samples →
  Sorted Z.le (last_seen s :: timestamps samples) →
  state s ≠ NO_DATA →
  ∃ s', fold_each samples add_data_point {| smap := [(key, s)]; out := o |} w
        = (Return {| smap := [(key, s')]; out := o |}, w)
        ∧ state s' ≠ NO_DATA
        ∧ last_seen s' = List.last (timestamps samples) (last_seen s)
        ∧ (total_play_seconds s' + total_rebuf_seconds s'
           = total_play_seconds s + total_rebuf_seconds s
             + (last_seen s' - last_seen s))%Z.
Proof.
  induction samples as [|pt samples IH]; intros s o w Hall Hsorted Hstate.
  - exists s. simpl. repeat split; try done. lia.
  - apply Forall_cons in Hall as [[Hkey Huse] Hall].
    destruct (usable_mk_sample pt key Hkey Huse) as (ts & i & ->).
    rewrite timestamps_cons in *.
    apply Sorted_inv in Hsorted as [Hsorted Hhd].
    apply HdRel_inv in Hhd.
    destruct (advance_started s ts i Hstate Hhd) as (s1 & Hadv & Hst1 & Hlast1 & Hsum1).
    destruct (IH s1 o w Hall) as (s' & Hrun & Hst' & Hlast' & Hsum');
      [by rewrite Hlast1 | done |].
    exists s'. split; [|split; [done|split]].
    + simpl. unfold bind.
      rewrite (add_data_point_usable {| smap := [(key, s)]; out := o |}
                 key ts i s1 w); simpl.
      * by rewrite decide_True.
      * by rewrite decide_True.
    + rewrite Hlast', Hlast1. apply last_cons_default.
    + lia.
Qed.

(** The same from an empty stream: the first sample opens the session. *)
Lemma add_data_points_fresh key samples w :
  samples ≠ [] →
  Forall (λ pt, sample_session pt = key ∧ usable pt) samples →
  Sorted Z.le (timestamps samples) →
  ∃ s, fold_each samples add_data_point new_buffer_stream w
       = (Return {| smap := [(key, s)]; out := ∅ |}, w)
       ∧ (total_play_seconds s + total_rebuf_seconds s
          = List.last (timestamps samples) 0 - hd 0 (timestamps samples))%Z.
Proof.
  destruct samples as [|pt samples]; [done|]. intros _ Hall Hsorted.
  apply Forall_cons in Hall as [[Hkey Huse] Hall].
  destruct (usable_mk_sample pt key Hkey Huse) as (ts & i & ->).
  rewrite timestamps_cons in *.
  set (s1 := {| state := state_of i; last_seen := ts;
                total_play_seconds := 0; total_rebuf_seconds := 0 |}).
  destruct (add_data_points_started key samples s1 ∅ w Hall)
    as (s' & Hrun & _ & Hlast & Hsum); [done | by destruct i |].
  exists s'. split.
  - simpl. unfold bind.
    by rewrite (add_data_point_usable new_buffer_stream key ts i s1 w).
  - simpl in Hsum, Hlast. rewrite Hlast in Hsum.
    rewrite <- (last_cons_default (timestamps samples) ts 0%Z). simpl hd. lia.
Qed.
End Reconstruction.

Section Pagination.
Context {num : Type}.
Implicit Types (w : World num) (bs : BufferStream).

Lemma add_data_point_absorb bs pt w :
  fst (add_data_point bs pt w) = Return (absorb bs pt).
Proof.
  unfold add_data_point, absorb.
  destruct (sample_timestamp pt), (sample_indicator pt); try done.
  destruct (sample_no_playback pt); [done|].
  by destruct (advance _ _ _).
Qed.

Lemma add_data_points_absorb samples : ∀ bs w,
  fst (fold_each samples add_data_point bs w)
  = Return (fold_left absorb samples bs).
Proof.
  induction samples as [|pt samples IH]; intros bs w; simpl; [done|].
  unfold bind. pose proof (add_data_point_absorb bs pt w) as Hpt.
  destruct (add_data_point bs pt w) as [[bs'|e] w']; simplify_eq/=.
  apply IH.
Qed.

(** Pages do not matter: the stream ends as if the points had arrived in
    one request. *)
Lemma do_collect_rebuffer_pages (windows : list (Window Sample)) : ∀ bs w,
  fst (fold_each windows (λ bs win, do_collect_rebuffer win bs) bs w)
  = Return (fold_left absorb (all_points windows) bs).
Proof.
  induction windows as [|win windows IH]; intros bs w; [done|].
  unfold all_points. simpl. rewrite fold_left_app.
  unfold bind, do_collect_rebuffer at 1, bind, write_stderr.
  match goal with |- context [fold_each (points win) add_data_point bs ?w1] =>
    pose proof (add_data_points_absorb (points win) bs w1) as Hwin;
    destruct (fold_each (points win) add_data_point bs w1) as [[bs'|e] w']
  end; simplify_eq/=.
  apply IH.
Qed.

Lemma done_data_points_single pg minutes key s w config :
  resolved pg w (session_expt key) = Some config →
  ∃ w', done_data_points pg minutes {| smap := [(key, s)]; out := ∅ |} w
        = (Return {| smap := [];
                     out := {[ get_abr_cc config :=
                                 {| total_play := total_play_seconds s;
                                    total_rebuf := total_rebuf_seconds s;
                                    rebuf_minute := minutes s |} ]} |}, w').
Proof.
  intros Hres. unfold done_data_points. simpl. unfold bind, catch. simpl.
  destruct (retrieve_expt_config_spec pg (session_expt key) w) as (w' & -> & _).
  rewrite Hres. simpl. rewrite lookup_empty. simpl.
  rewrite insert_empty. by eexists.
Qed.
End Pagination.

(** C1.  For the samples of one session, none malformed or degenerate, with
    non-decreasing timestamps, in any number of pages: feeding them to
    [add_data_point] leaves one session whose play and rebuffer totals add
    up to the span between the first and the last timestamp, and
    [done_data_points] reports exactly these totals under the session's
    scheme.  For the samples t=0 playing, t=10 playing, t=10 rebuffering,
    t=40 playing the totals are 10 and 30. *)
Theorem collect_rebuffer_covers_span :
  (∀ (num : Type) (pg : MetadataStore) (minutes : Session → Z) (key : SessionKey)
     (windows : list (Window Sample)) (w : World num) (config : ExperimentConfig),
      all_points windows ≠ [] →
      Forall (λ pt, sample_session pt = key ∧ usable pt) (all_points windows) →
      Sorted Z.le (timestamps (all_points windows)) →
      resolved pg w (session_expt key) = Some config →
      ∃ s w',
        fst (fold_each (all_points windows) add_data_point new_buffer_stream w)
        = Return {| smap := [(key, s)]; out := ∅ |}
        ∧ collect_rebuffer pg minutes windows w
          = (Return {[ get_abr_cc config :=
                         {| total_play := total_play_seconds s;
                            total_rebuf := total_rebuf_seconds s;
                            rebuf_minute := minutes s |} ]}, w')
        ∧ (total_play_seconds s + total_rebuf_seconds s
           = List.last (timestamps (all_points windows)) 0
             - hd 0 (timestamps (all_points windows)))%Z)
  ∧ fst (collect_rebuffer example_store (λ _, 0%Z)
           [{| s_str := "2019-01-01T11:00:00Z"; e_str := "2019-01-02T11:00:00Z";
               points := scenario |}] (fresh_world (num:=float)))
    = Return {[ bbr := {| total_play := 10; total_rebuf := 30; rebuf_minute := 0 |} ]}.
Proof.
  split; [|reflexivity].
  intros num pg minutes key windows w config Hne Hall Hsorted Hres.
  destruct (add_data_points_fresh key (all_points windows) w Hne Hall Hsorted)
    as (s & Hrun & Hsum).
  unfold collect_rebuffer, bind.
  pose proof (do_collect_rebuffer_pages windows new_buffer_stream w) as Hpages.
  pose proof (steady_fold_each pg windows
                (λ bs win, do_collect_rebuffer (num:=num) win bs) new_buffer_stream) as Hlater.
  specialize (Hlater ltac:(intros bs win; unfold do_collect_rebuffer;
                           apply steady_bind; [apply steady_write_stderr|intros _];
                           apply steady_fold_each; intros; apply steady_add_data_point) w).
  destruct (fold_each windows _ new_buffer_stream w) as [[bs|e] w1];
    simpl in Hpages, Hlater; [|done].
  pose proof (add_data_points_absorb (all_points windows) new_buffer_stream w) as Hflat.
  rewrite Hrun in Hflat. simpl in Hflat.
  assert (bs = {| smap := [(key, s)]; out := ∅ |}) as -> by congruence.
  destruct (done_data_points_single pg minutes key s w1 config) as [w2 Hdone].
  { by rewrite (later_resolved _ _ _ Hlater). }
  exists s, w2. rewrite Hrun, Hdone. done.
Qed.

Lemma collect_rebuffer_covers_span_witness :
  all_points scenario_pages ≠ []
  ∧ Forall (λ pt, sample_session pt = ("client"%string, 0%Z, "1"%string) ∧ usable pt)
      (all_points scenario_pages)
  ∧ Sorted Z.le (timestamps (all_points scenario_pages))
  ∧ ∃ s w',
      collect_rebuffer example_store (λ _, 0%Z) scenario_pages (fresh_world (num:=float))
      = (Return {[ bbr := {| total_play := total_play_seconds s;
                             total_rebuf := total_rebuf_seconds s;
                             rebuf_minute := 0 |} ]}, w')
      ∧ (total_play_seconds s + total_rebuf_seconds s = 40 - 0)%Z.
Proof.
  assert (all_points scenario_pages ≠ []) as Hne by done.
  assert (Forall (λ pt, sample_session pt = ("client"%string, 0%Z, "1"%string) ∧ usable pt)
            (all_points scenario_pages)) as Hall.
  { repeat constructor; by eexists. }
  assert (Sorted Z.le (timestamps (all_points scenario_pages))) as Hsorted.
  { repeat constructor; done. }
  repeat split; try done.
  destruct (proj1 collect_rebuffer_covers_span float example_store (λ _, 0%Z)
              ("client"%string, 0%Z, "1"%string) scenario_pages fresh_world
              {| experiment_id := "1"; congestion_control := "bbr";
                 abr_algorithm := Some "linear_bba"%string |}
              Hne Hall Hsorted eq_refl) as (s & w' & _ & Hrun & Hsum).
  exists s, w'. split; [exact Hrun | exact Hsum].
Defined.

(* ===================================================================== *)
(** * The scatter plot of [plot_ssim_rebuffer] *)
(* ===================================================================== *)

Section Reporter.
Context {num : Type} `{Arith num}.
Implicit Types (w : World num) (rebuffer : gmap SchemeKey AggregateRecord)
  (ssim : odict SchemeKey (ssim_entry num)).

Lemma draw_nil w : draw [] w = w.
Proof. by destruct w. Qed.

Lemma draw_draw (es1 es2 : list (plot_event num)) w :
  draw es2 (draw es1 w) = draw (es1 ++ es2) w.
Proof. unfold draw; simpl. by rewrite rev_app_distr, app_assoc. Qed.

Lemma py_int_div_spec (a b : Z) w :
  b ≠ 0%Z →
  py_int_div a b w
  = (if num_isfinite (int_div a b : num) then Return (int_div a b)
     else Raise OverflowError, w).
Proof.
  intros Hb. unfold py_int_div. rewrite (proj2 (Z.eqb_neq b 0) Hb). cbv zeta.
  by destruct (num_isfinite (int_div a b : num)).
Qed.

(** One scheme with rebuffer data: the conversions, then [ax.scatter],
    then [ax.annotate]; a failure leaves the figure as it was. *)
Lemma plot_scheme_spec rebuffer item r w :
  rebuffer !! fst item = Some r →
  plot_scheme rebuffer item w
  = if convertible (num:=num) r then
      if averaged (snd item)
      then (Return tt, draw (scheme_drawing rebuffer item) w)
      else (Raise ValueError, w)
    else (Raise OverflowError, w).
Proof.
  intros Hr. unfold plot_scheme, scheme_drawing, convertible. rewrite Hr.
  cbv zeta. unfold bind. rewrite !py_int_div_spec by done.
  destruct (num_isfinite (int_div (total_rebuf r) 60 : num)); [|done].
  destruct (num_isfinite (int_div (total_play r) 3600 : num)); [|done].
  destruct (num_isfinite (int_div (total_play r) 60 : num)); [|done].
  unfold np_float. cbv zeta.
  destruct (num_isfinite (of_int (rebuf_minute r) : num)); [|done].
  simpl. unfold scatter. by destruct (snd item).
Qed.

Lemma plot_scheme_present rebuffer item r w :
  rebuffer !! fst item = Some r → drawable rebuffer item = true →
  plot_scheme rebuffer item w = (Return tt, draw (scheme_drawing rebuffer item) w).
Proof.
  intros Hr Hd. rewrite (plot_scheme_spec _ _ r) by done.
  unfold drawable in Hd. rewrite Hr in Hd.
  apply andb_true_iff in Hd as [-> ->]. done.
Qed.

Lemma plot_scheme_missing rebuffer item w :
  rebuffer !! fst item = None →
  plot_scheme rebuffer item w = (Raise (ExitNotInRebuffer (fst item)), w).
Proof. intros Hr. unfold plot_scheme. by rewrite Hr. Qed.

(** Whatever happens at a scheme, it is drawn whole or not at all. *)
Lemma plot_scheme_outcome rebuffer item w :
  plot_scheme rebuffer item w = (Return tt, draw (scheme_drawing rebuffer item) w)
  ∨ ∃ e, plot_scheme rebuffer item w = (Raise e, w).
Proof.
  destruct (rebuffer !! fst item) as [r|] eqn:Hr.
  - rewrite (plot_scheme_spec _ _ r) by done.
    destruct (convertible r); [|by right; eexists].
    destruct (averaged (snd item)); [by left | by right; eexists].
  - right. rewrite plot_scheme_missing by done. by eexists.
Qed.

(** Every scheme of [ssim] has rebuffer data and can be drawn: all of them
    are. *)
Lemma plot_schemes_present rebuffer ssim : ∀ w,
  Forall (λ item, is_Some (rebuffer !! fst item)) ssim →
  Forall (λ item, drawable rebuffer item = true) ssim →
  for_each ssim (plot_scheme rebuffer) w
  = (Return tt, draw (flat_map (scheme_drawing rebuffer) ssim) w).
Proof.
  induction ssim as [|item ssim IH]; intros w Hall Hdraw; simpl.
  - by rewrite draw_nil.
  - apply Forall_cons in Hall as [[r Hr] Hall].
    apply Forall_cons in Hdraw as [Hd Hdraw]. unfold bind.
    rewrite (plot_scheme_present _ _ r) by done.
    rewrite IH by done. by rewrite draw_draw.
Qed.

(** The schemes before the first one without rebuffer data are drawn, and
    the loop stops there. *)
Lemma plot_schemes_first_missing rebuffer (before after : odict SchemeKey (ssim_entry num))
    item : ∀ w,
  Forall (λ item, is_Some (rebuffer !! fst item)) before →
  Forall (λ item, drawable rebuffer item = true) before →
  rebuffer !! fst item = None →
  for_each (before ++ item :: after) (plot_scheme rebuffer) w
  = (Raise (ExitNotInRebuffer (fst item)),
     draw (flat_map (scheme_drawing rebuffer) before) w).
Proof.
  induction before as [|first before IH]; intros w Hall Hdraw Hitem; simpl.
  - unfold bind. by rewrite plot_scheme_missing, draw_nil.
  - apply Forall_cons in Hall as [[r Hr] Hall].
    apply Forall_cons in Hdraw as [Hd Hdraw]. unfold bind.
    rewrite (plot_scheme_present _ _ r) by done.
    rewrite IH by done. by rewrite draw_draw.
Qed.

(** Some scheme of [ssim] has no rebuffer data: the loop does not get
    through, and what it has drawn are schemes of [ssim]. *)
Lemma plot_schemes_missing rebuffer ssim : ∀ w,
  Exists (λ item, rebuffer !! fst item = None) ssim →
  ∃ e drawn,
    for_each ssim (plot_scheme rebuffer) w
    = (Raise e, draw (flat_map (scheme_drawing rebuffer) drawn) w)
    ∧ (Forall (λ item, drawable rebuffer item = true) ssim →
       ∃ abr_cc, e = ExitNotInRebuffer abr_cc
                 ∧ abr_cc ∈ okeys ssim ∧ rebuffer !! abr_cc = None).
Proof.
  induction ssim as [|item ssim IH]; intros w Hex.
  - by apply Exists_nil in Hex.
  - simpl. unfold bind.
    destruct (rebuffer !! fst item) as [r|] eqn:Hr.
    + apply Exists_cons in Hex as [Hex|Hex]; [congruence|].
      destruct (plot_scheme_outcome rebuffer item w) as [->|[e Hfail]].
      * destruct (IH (draw (scheme_drawing rebuffer item) w) Hex)
          as (e & drawn & -> & Hname).
        exists e, (item :: drawn). split; [by rewrite draw_draw|].
        intros [_ Hdraw]%Forall_cons.
        destruct (Hname Hdraw) as (abr_cc & -> & Hin & Hmiss).
        exists abr_cc. split; [done|]. split; [by right | done].
      * exists e, []. rewrite Hfail. split; [by rewrite draw_nil|].
        intros [Hd _]%Forall_cons.
        rewrite (plot_scheme_present _ _ r) in Hfail by done. done.
    + exists (ExitNotInRebuffer (fst item)), [].
      rewrite plot_scheme_missing by done. split; [by rewrite draw_nil|].
      intros _. exists (fst item). split; [done|]. split; [left | done].
Qed.

Lemma scheme_drawing_no_savefig rebuffer (items : list (SchemeKey * ssim_entry num)) o :
  Savefig o ∉ flat_map (scheme_drawing rebuffer) items.
Proof.
  intros Hin. apply list_elem_of_In, in_flat_map in Hin as (item & _ & Hin).
  unfold scheme_drawing in Hin. destruct (rebuffer !! fst item); simpl in Hin.
  - by destruct Hin as [|[|[]]].
  - done.
Qed.

Lemma scheme_drawing_length rebuffer (items : list (SchemeKey * ssim_entry num)) :
  Forall (λ item, is_Some (rebuffer !! fst item)) items →
  length (flat_map (scheme_drawing rebuffer) items) = 2 * length items.
Proof.
  induction 1 as [|item items [r Hr] _ IH]; simpl; [done|].
  rewrite length_app, IH. unfold scheme_drawing. rewrite Hr. simpl. lia.
Qed.

(** The ceiling of exact arithmetic: the least whole number of minutes
    that holds the play time. *)
Lemma total_minutes_exact (r : AggregateRecord) :
  ∃ m : Z, total_minutes (num:=R) r = IZR m
           ∧ (60 * (m - 1) < total_play r ≤ 60 * m)%Z.
Proof.
  exists (Zceil (IZR (total_play r) / 60)). split; [done|].
  destruct (Zceil_bound (IZR (total_play r) / 60)) as [Hlo Hhi].
  split.
  - apply lt_IZR. rewrite mult_IZR, minus_IZR. lra.
  - apply le_IZR. rewrite mult_IZR. lra.
Qed.
End Reporter.

(** A scheme that is only in [rebuffer] does not stop the reporter: the
    figure is saved without it. *)
Lemma plot_ssim_rebuffer_omits_rebuffer_only :
  (cubic ∉ okeys ssim_bbr_only)
  ∧ is_Some (rebuffer_both !! cubic)
  ∧ plot_ssim_rebuffer "out.png" ssim_bbr_only rebuffer_both fresh_world
    = (Return tt,
       {| expt := ∅; pg_queries := [];
          stderr := [SavedPlot "out.png"];
          plots := [Savefig "out.png";
                    Annotate {| label_scheme := bbr;
                                label_rebuf_minutes := 1%float;
                                label_play_hours := 1.5%float |}
                      1.1111111111111112%float (AvgDb 15%float);
                    Scatter 1.1111111111111112%float (AvgDb 15%float)] |}).
Proof.
  split; [|split].
  - unfold okeys, ssim_bbr_only. simpl. apply not_elem_of_cons.
    split; [done | apply not_elem_of_nil].
  - by eexists.
  - reflexivity.
Qed.

(** C2 (amended).  When a scheme of the SSIM aggregate is missing from the
    rebuffer aggregate the reporter fails and the figure is not saved; when
    the SSIM entries are averages and the rebuffer totals convert to
    floats, so that nothing else can stop the reporter, the failure is the
    exit that names such a scheme.  When every SSIM scheme has rebuffer
    data, the figure is saved, whatever else the rebuffer aggregate
    holds. *)
Theorem plot_ssim_rebuffer_missing_in_rebuffer {num} `{Arith num}
    (output : string) (ssim : odict SchemeKey (ssim_entry num))
    (rebuffer : gmap SchemeKey AggregateRecord) (w : World num) :
  (Exists (λ item, rebuffer !! fst item = None) ssim →
   ∃ e w',
     plot_ssim_rebuffer output ssim rebuffer w = (Raise e, w')
     ∧ (∀ o, Savefig o ∈ plots w' → Savefig o ∈ plots w)
     ∧ (Forall (λ item, drawable rebuffer item = true) ssim →
        ∃ abr_cc, e = ExitNotInRebuffer abr_cc
                  ∧ abr_cc ∈ okeys ssim ∧ rebuffer !! abr_cc = None))
  ∧ (Forall (λ item, is_Some (rebuffer !! fst item)) ssim →
     Forall (λ item, drawable rebuffer item = true) ssim →
     ∃ w', plot_ssim_rebuffer output ssim rebuffer w = (Return tt, w')
           ∧ Savefig output ∈ plots w').
Proof.
  split.
  - intros Hex.
    destruct (plot_schemes_missing rebuffer ssim w Hex) as (e & drawn & Hrun & Hname).
    exists e, (draw (flat_map (scheme_drawing rebuffer) drawn) w).
    split; [|split; [|done]].
    + unfold plot_ssim_rebuffer, bind. by rewrite Hrun.
    + intros o. simpl. rewrite elem_of_app. intros [Hin|Hin]; [|done].
      apply list_elem_of_In, in_rev, list_elem_of_In in Hin.
      by apply scheme_drawing_no_savefig in Hin.
  - intros Hall Hdraw. eexists. split.
    + unfold plot_ssim_rebuffer, bind. rewrite plot_schemes_present by done.
      simpl. reflexivity.
    + simpl. apply list_elem_of_here.
Qed.

Lemma plot_ssim_rebuffer_missing_in_rebuffer_witness :
  Exists (λ item : SchemeKey * ssim_entry float, rebuffer_both !! fst item = None)
    [(bbr, AvgDb 15%float); ((None, "vegas"%string), AvgDb 14%float)]
  ∧ Forall (λ item : SchemeKey * ssim_entry float, drawable rebuffer_both item = true)
      [(bbr, AvgDb 15%float); ((None, "vegas"%string), AvgDb 14%float)]
  ∧ ∃ w', plot_ssim_rebuffer "out.png"
            [(bbr, AvgDb 15%float); ((None, "vegas"%string), AvgDb 14%float)]
            rebuffer_both fresh_world
          = (Raise (ExitNotInRebuffer (None, "vegas"%string)), w')
          ∧ ∀ o, Savefig o ∉ plots w'.
Proof.
  assert (Exists (λ item : SchemeKey * ssim_entry float, rebuffer_both !! fst item = None)
            [(bbr, AvgDb 15%float); ((None, "vegas"%string), AvgDb 14%float)]) as Hex.
  { apply Exists_cons_tl, Exists_cons_hd. reflexivity. }
  assert (Forall (λ item : SchemeKey * ssim_entry float,
                    drawable rebuffer_both item = true)
            [(bbr, AvgDb 15%float); ((None, "vegas"%string), AvgDb 14%float)]) as Hdraw.
  { repeat constructor. }
  split; [exact Hex|]. split; [exact Hdraw|].
  destruct (proj1 (plot_ssim_rebuffer_missing_in_rebuffer "out.png"
                     [(bbr, AvgDb 15%float); ((None, "vegas"%string), AvgDb 14%float)]
                     rebuffer_both fresh_world) Hex)
    as (e & w' & Hrun & Hsave & _).
  exists w'. split.
  - rewrite Hrun. f_equal.
    assert (fst (plot_ssim_rebuffer "out.png"
                   [(bbr, AvgDb 15%float); ((None, "vegas"%string), AvgDb 14%float)]
                   rebuffer_both fresh_world)
            = Raise (ExitNotInRebuffer (None, "vegas"%string))) as Hfst by reflexivity.
    rewrite Hrun in Hfst. exact Hfst.
  - intros o Hin. apply Hsave in Hin. simpl in Hin. by apply elem_of_nil in Hin.
Defined.

(** The abscissa handed to [ax.scatter] is not the rate: for the totals of
    the design document's example, with one rebuffered minute in ninety,
    the rate is 1/90 and the point is plotted at 1.11, the rate in per
    cent. *)
Lemma scatter_gets_the_percentage :
  two_sessions = {| total_play := 5400; total_rebuf := 60; rebuf_minute := 1 |}
  ∧ rebuf_rate (num:=float) two_sessions = (1 / 90)%float
  ∧ plots (snd (plot_ssim_rebuffer "out.png" [(bbr, AvgDb 15%float)]
                  {[ bbr := two_sessions ]} fresh_world))
    = [Savefig "out.png";
       Annotate {| label_scheme := bbr; label_rebuf_minutes := 1%float;
                   label_play_hours := 1.5%float |}
         1.1111111111111112%float (AvgDb 15%float);
       Scatter 1.1111111111111112%float (AvgDb 15%float)]
  ∧ PrimFloat.eqb 1.1111111111111112 (1 / 90) = false.
Proof. repeat split; reflexivity. Qed.

(** C3 (amended).  For every scheme the reporter plots (its SSIM entry an
    average, its totals convertible), the rate is [rebuf_minute /
    ceil(total_play / 60)], and the abscissa handed to [ax.scatter] is that
    rate times 100.  The ceiling is the least whole number of minutes that
    holds the play time: 5400 seconds are 90 minutes, 5401 seconds 91.
    For the totals 5400 and one rebuffered minute the rate is 1/90. *)
Theorem plot_ssim_rebuffer_rebuf_rate :
  (∀ (num : Type) (A : Arith num) (output : string)
     (ssim : odict SchemeKey (ssim_entry num))
     (rebuffer : gmap SchemeKey AggregateRecord) (w : World num),
      Forall (λ item, is_Some (rebuffer !! fst item)) ssim →
      Forall (λ item, drawable rebuffer item = true) ssim →
      ∃ w', plot_ssim_rebuffer output ssim rebuffer w = (Return tt, w')
            ∧ rev (plots w')
              = rev (plots w)
                ++ flat_map
                     (λ item,
                        match rebuffer !! fst item with
                        | Some r =>
                            let rate :=
                              div (of_int (rebuf_minute r))
                                (np_ceil (int_div (total_play r) 60)) in
                            [Scatter (mul rate (of_int 100)) (snd item);
                             Annotate (abr_cc_str (fst item) r)
                               (mul rate (of_int 100)) (snd item)]
                        | None => []
                        end) ssim
                ++ [Savefig output])
  ∧ (∀ r : AggregateRecord,
       ∃ m : Z, np_ceil (int_div (total_play r) 60 : R) = IZR m
                ∧ (60 * (m - 1) < total_play r ≤ 60 * m)%Z)
  ∧ map (λ seconds, np_ceil (int_div seconds 60 : float))
      [5400; 5401; 5459; 5460; 59; 1; 0]%Z
    = [90; 91; 91; 91; 1; 1; 0]%float
  ∧ two_sessions = {| total_play := 5400; total_rebuf := 60; rebuf_minute := 1 |}
  ∧ rebuf_rate (num:=float) two_sessions = (1 / 90)%float
  ∧ rebuf_rate (num:=R) two_sessions = (1 / 90)%R
  ∧ rebuf_rate (num:=float) {| total_play := 5401; total_rebuf := 60; rebuf_minute := 1 |}
    = (1 / 91)%float
  ∧ rebuf_rate (num:=R) {| total_play := 5401; total_rebuf := 60; rebuf_minute := 1 |}
    = (1 / 91)%R.
Proof.
  split; [|split; [|split; [|split; [|split; [|split; [|split]]]]]].
  - intros num A output ssim rebuffer w Hall Hdraw. eexists. split.
    + unfold plot_ssim_rebuffer, bind. rewrite plot_schemes_present by done.
      simpl. reflexivity.
    + simpl. by rewrite rev_app_distr, rev_involutive, <- app_assoc.
  - apply total_minutes_exact.
  - reflexivity.
  - reflexivity.
  - reflexivity.
  - unfold rebuf_rate, total_minutes. simpl.
    change (3600 + 1800)%Z with 5400%Z.
    rewrite (Zceil_eq 90); [done|]. lra.
  - reflexivity.
  - unfold rebuf_rate, total_minutes. simpl.
    rewrite (Zceil_eq 91); [done|]. lra.
Qed.

Lemma plot_ssim_rebuffer_rebuf_rate_witness :
  Forall (λ item : SchemeKey * ssim_entry float, is_Some (rebuffer_both !! fst item))
    ssim_bbr_only
  ∧ Forall (λ item : SchemeKey * ssim_entry float, drawable rebuffer_both item = true)
      ssim_bbr_only
  ∧ ∃ w', plot_ssim_rebuffer "out.png" ssim_bbr_only rebuffer_both fresh_world
          = (Return tt, w')
          ∧ rev (plots w')
            = [Scatter ((1 / 90) * 100)%float (AvgDb 15%float);
               Annotate {| label_scheme := bbr; label_rebuf_minutes := 1%float;
                           label_play_hours := 1.5%float |}
                 ((1 / 90) * 100)%float (AvgDb 15%float);
               Savefig "out.png"].
Proof.
  assert (Forall (λ item : SchemeKey * ssim_entry float,
                    is_Some (rebuffer_both !! fst item)) ssim_bbr_only) as Hall.
  { repeat constructor. by eexists. }
  assert (Forall (λ item : SchemeKey * ssim_entry float,
                    drawable rebuffer_both item = true) ssim_bbr_only) as Hdraw.
  { repeat constructor. }
  split; [exact Hall|]. split; [exact Hdraw|].
  destruct (proj1 plot_ssim_rebuffer_rebuf_rate float _ "out.png" ssim_bbr_only
              rebuffer_both fresh_world Hall Hdraw) as (w' & Hrun & Hplots).
  exists w'. split; [exact Hrun|]. rewrite Hplots. reflexivity.
Defined.

(* ===================================================================== *)
(** * Grouping loops *)
(* ===================================================================== *)

Section GroupFold.
Context {K : Type} `{EqDecision K} {V X : Type}.
Implicit Types (d : odict K V) (k : K) (f : X → V → V).

Lemma oupdate_id k d : oupdate k (λ v, v) d = d.
Proof.
  induction d as [|[k' v'] d IH]; simpl; [done|].
  destruct (decide (k = k')); [done | by rewrite IH].
Qed.

Lemma oget_group_step_eq v0 f d k x :
  oget k (group_step v0 f d (k, x)) = Some (f x (default v0 (oget k d))).
Proof.
  unfold group_step. simpl. by rewrite oget_oupdate_eq, oget_osetdefault_eq.
Qed.

Lemma oget_group_step_ne v0 f d k k' x :
  k ≠ k' → oget k' (group_step v0 f d (k, x)) = oget k' d.
Proof.
  intros Hne. unfold group_step. simpl.
  by rewrite oget_oupdate_ne, oget_osetdefault_ne.
Qed.

(** After the loop, a scheme is bound iff it was bound before or occurs in
    the input, and its value has absorbed the scheme's items in order. *)
Lemma oget_group_fold v0 f (tagged : list (K * X)) : ∀ d k,
  oget k (fold_left (group_step v0 f) tagged d)
  = match of_scheme k tagged with
    | [] => oget k d
    | xs => Some (fold_left (λ v x, f x v) xs (default v0 (oget k d)))
    end.
Proof.
  unfold of_scheme.
  induction tagged as [|[k0 x] tagged IH]; intros d k; simpl; [done|].
  rewrite IH. destruct (decide (k0 = k)) as [->|Hne].
  - rewrite bool_decide_eq_true_2 by done. simpl.
    rewrite oget_group_step_eq. simpl.
    by destruct (map snd _).
  - rewrite bool_decide_eq_false_2 by done.
    by rewrite oget_group_step_ne.
Qed.

Lemma of_scheme_Permutation k (t1 t2 : list (K * X)) :
  t1 ≡ₚ t2 → of_scheme k t1 ≡ₚ of_scheme k t2.
Proof.
  intros Hp. unfold of_scheme. apply Permutation_map.
  induction Hp as [|y l1 l2 Hp IH|y z l|l1 l2 l3 Hp1 IH1 Hp2 IH2]; simpl.
  - done.
  - destruct (bool_decide _); [by apply perm_skip | done].
  - destruct (bool_decide _), (bool_decide _); try done. apply perm_swap.
  - by etrans.
Qed.
End GroupFold.

Section Tagging.
Context {num K X : Type} (expt_of : X → string) (scheme : ExperimentConfig → K).
Implicit Types (w : World num) (pg : MetadataStore) (xs : list X).

Lemma tag_all_later pg w w' xs :
  later pg w w' → tag_all expt_of scheme pg w' xs = tag_all expt_of scheme pg w xs.
Proof.
  intros Hl. induction xs as [|x xs IH]; simpl; [done|].
  by rewrite (later_resolved _ _ _ Hl), IH.
Qed.

Lemma tag_all_app pg w xs ys :
  tag_all expt_of scheme pg w (xs ++ ys)
  = match tag_all expt_of scheme pg w xs, tag_all expt_of scheme pg w ys with
    | Some t1, Some t2 => Some (t1 ++ t2)
    | _, _ => None
    end.
Proof.
  induction xs as [|x xs IH]; simpl.
  - by destruct (tag_all _ _ _ _ ys).
  - rewrite IH. destruct (resolved pg w (expt_of x)); [|done].
    destruct (tag_all _ _ _ _ xs); [|done].
    by destruct (tag_all _ _ _ _ ys).
Qed.

Lemma tag_all_items pg w xs tagged :
  tag_all expt_of scheme pg w xs = Some tagged → map snd tagged = xs.
Proof.
  revert tagged. induction xs as [|x xs IH]; intros tagged; simpl.
  - by intros [= <-].
  - destruct (resolved pg w (expt_of x)); [|done].
    destruct (tag_all _ _ _ _ xs) as [t|]; [|done].
    intros [= <-]. simpl. by rewrite (IH t).
Qed.

(** Resolution does not depend on the order of the items. *)
Lemma tag_all_Permutation pg w xs ys tagged :
  xs ≡ₚ ys → tag_all expt_of scheme pg w xs = Some tagged →
  ∃ tagged', tag_all expt_of scheme pg w ys = Some tagged' ∧ tagged ≡ₚ tagged'.
Proof.
  intros Hp. revert tagged.
  induction Hp as [|x l1 l2 Hp IH|x y l|l1 l2 l3 Hp1 IH1 Hp2 IH2];
    intros tagged; simpl.
  - intros [= <-]. by exists [].
  - destruct (resolved pg w (expt_of x)) as [c|]; [|done].
    destruct (tag_all _ _ _ _ l1) as [t|]; [|done].
    intros [= <-]. destruct (IH t eq_refl) as (t' & -> & Ht). eauto.
  - destruct (resolved pg w (expt_of y)) as [cy|]; [|done].
    destruct (resolved pg w (expt_of x)) as [cx|]; [|done].
    destruct (tag_all _ _ _ _ l) as [t|]; [|done].
    intros [= <-]. eexists. split; [done | apply perm_swap].
  - intros Ht. destruct (IH1 _ Ht) as (t2 & Ht2 & Hp12).
    destruct (IH2 _ Ht2) as (t3 & Ht3 & Hp23).
    exists t3. split; [done | by etrans].
Qed.
End Tagging.

(* ===================================================================== *)
(** * Rebuffer rates per session ([plot_rebuf_rate]) *)
(* ===================================================================== *)

Section RebufRate.
Context {num : Type} `{Arith num}.
Implicit Types (w : World num) (pg : MetadataStore)
  (d : odict VideoSession (PlayRebuf num)) (by_cc : odict string (list num)).

Local Abbreviation tag := (tag_all (λ item : VideoSession * PlayRebuf num, session_3 (fst item))
                   congestion_control).
Local Abbreviation step := (group_step [] (λ (item : VideoSession * PlayRebuf num) l,
                                   l ++ [session_rate item])).

Lemma fold_left_append {A B} (g : A → B) (xs : list A) : ∀ l0,
  fold_left (λ l x, l ++ [g x]) xs l0 = l0 ++ map g xs.
Proof.
  induction xs as [|x xs IH]; intros l0; simpl.
  - by rewrite app_nil_r.
  - by rewrite IH, <- app_assoc.
Qed.

Lemma plot_rebuf_rate_session_spec pg by_cc item w config :
  resolved pg w (session_3 (fst item)) = Some config →
  ∃ w', later pg w w' ∧ stderr w' = stderr w ∧ plots w' = plots w
        ∧ plot_rebuf_rate_session pg by_cc item w
          = (if zero_play item then Raise ZeroDivisionError
             else Return (step by_cc (congestion_control config, item)), w').
Proof.
  intros Hres. unfold plot_rebuf_rate_session, bind.
  destruct (retrieve_expt_config_spec pg (session_3 (fst item)) w)
    as (w' & -> & Hl & Hs & Hp).
  rewrite Hres. exists w'. do 3 (split; [done|]).
  unfold py_div, zero_play.
  by destruct (num_eqb (play (snd item)) (of_int 0)).
Qed.

Lemma plot_rebuf_rate_loop_nonzero pg d : ∀ by_cc w tagged,
  tag pg w d = Some tagged →
  Forall (λ item, zero_play item = false) d →
  ∃ w', later pg w w' ∧ stderr w' = stderr w ∧ plots w' = plots w
        ∧ fold_each d (plot_rebuf_rate_session pg) by_cc w
          = (Return (fold_left step tagged by_cc), w').
Proof.
  induction d as [|item d IH]; intros by_cc w tagged; simpl.
  - intros [= <-] _. exists w. split; [apply later_refl | done].
  - destruct (resolved pg w (session_3 (fst item))) as [config|] eqn:Hres; [|done].
    destruct (tag pg w d) as [t|] eqn:Ht; [|done].
    intros [= <-] Hall. apply Forall_cons in Hall as [Hitem Hall].
    destruct (plot_rebuf_rate_session_spec pg by_cc item w config Hres)
      as (w1 & Hl1 & Hs1 & Hp1 & Hrun1).
    rewrite Hitem in Hrun1.
    destruct (IH (step by_cc (congestion_control config, item)) w1 t)
      as (w2 & Hl2 & Hs2 & Hp2 & Hrun2); [by rewrite (tag_all_later _ _ _ _ _ _ Hl1) | done |].
    exists w2. split; [by eapply later_trans|].
    split; [congruence|]. split; [congruence|].
    unfold bind. by rewrite Hrun1.
Qed.

Lemma plot_rebuf_rate_loop_zero pg d : ∀ by_cc w tagged,
  tag pg w d = Some tagged →
  Exists (λ item, zero_play item = true) d →
  ∃ w', fold_each d (plot_rebuf_rate_session pg) by_cc w
        = (Raise ZeroDivisionError, w')
        ∧ plots w' = plots w.
Proof.
  induction d as [|item d IH]; intros by_cc w tagged; simpl.
  - intros _ Hex. by apply Exists_nil in Hex.
  - destruct (resolved pg w (session_3 (fst item))) as [config|] eqn:Hres; [|done].
    destruct (tag pg w d) as [t|] eqn:Ht; [|done].
    intros _ Hex.
    destruct (plot_rebuf_rate_session_spec pg by_cc item w config Hres)
      as (w1 & Hl1 & Hs1 & Hp1 & Hrun1).
    unfold bind. rewrite Hrun1.
    destruct (zero_play item) eqn:Hzero.
    + by exists w1.
    + apply Exists_cons in Hex as [Hex|Hex]; [congruence|].
      destruct (IH (step by_cc (congestion_control config, item)) w1 t)
        as (w2 & Hrun2 & Hp2); [by rewrite (tag_all_later _ _ _ _ _ _ Hl1) | done |].
      exists w2. split; [done | congruence].
Qed.

(** ** The range test of [plot_rebuf_rate_cdf] *)

Lemma stateless_ret {A} (a : A) : stateless (num:=num) (ret a).
Proof. done. Qed.

Lemma stateless_raise {A} e : stateless (num:=num) (A:=A) (raise e).
Proof. done. Qed.

Lemma stateless_bind {A B} (c : M num A) (k : A → M num B) :
  stateless c → (∀ a, stateless (k a)) → stateless (bind c k).
Proof.
  intros Hc Hk w w0. unfold bind. rewrite (Hc w w0).
  destruct (fst (c w0)) as [a|e] eqn:Hfst.
  - rewrite (Hk a w w0).
    destruct (c w0) as [o w1]; simpl in Hfst; subst o.
    by rewrite (Hk a w1 w0).
  - destruct (c w0) as [o w1]; simpl in Hfst; by subst o.
Qed.

Lemma stateless_for_each {A} (xs : list A) (body : A → M num unit) :
  (∀ x, stateless (body x)) → stateless (for_each xs body).
Proof.
  intros Hbody. induction xs as [|x xs IH]; simpl.
  - apply stateless_ret.
  - apply stateless_bind; [apply Hbody | intros _; apply IH].
Qed.

Lemma stateless_fold_each {A S} (xs : list A) (body : S → A → M num S) s :
  (∀ s x, stateless (body s x)) → stateless (fold_each xs body s).
Proof.
  intros Hbody. revert s. induction xs as [|x xs IH]; intros s; simpl.
  - apply stateless_ret.
  - apply stateless_bind; [apply Hbody | intros s'; apply IH].
Qed.

Lemma stateless_rate_range range (item : string * list num) :
  stateless (rate_range range item).
Proof.
  unfold rate_range, np_min, np_max.
  destruct (snd item); [apply stateless_raise|].
  apply stateless_bind; [apply stateless_ret|intros data_min].
  apply stateless_bind; [apply stateless_ret|intros data_max]. apply stateless_ret.
Qed.

Lemma stateless_np_histogram_range (range : option num * option num) :
  stateless (np_histogram_range range).
Proof.
  unfold np_histogram_range. destruct range as [[first_edge|] [last_edge|]];
    try apply stateless_raise.
  destruct (num_ltb last_edge first_edge); [apply stateless_raise|].
  destruct (num_isfinite first_edge && num_isfinite last_edge); simpl;
    [|apply stateless_raise].
  match goal with
  | |- stateless (if ?test then _ else _) =>
      destruct test; [apply stateless_ret | apply stateless_raise]
  end.
Qed.

Lemma stateless_rebuf_rate_histograms by_cc : stateless (rebuf_rate_histograms by_cc).
Proof.
  unfold rebuf_rate_histograms. apply stateless_bind.
  - apply stateless_fold_each. intros. apply stateless_rate_range.
  - intros range. apply stateless_for_each. intros.
    apply stateless_np_histogram_range.
Qed.

(** The first loop leaves both ends of the range set, unless a series is
    empty. *)
Lemma rate_ranges (data : odict string (list num)) : ∀ range w,
  (data ≠ [] ∨ (is_Some (fst range) ∧ is_Some (snd range))) →
  (∃ x_min x_max, fold_each data rate_range range w = (Return (Some x_min, Some x_max), w))
  ∨ fold_each data rate_range range w = (Raise ValueError, w).
Proof.
  induction data as [|item data IH]; intros range w Hset; simpl.
  - destruct Hset as [?|[[x_min Hmin] [x_max Hmax]]]; [done|].
    left. exists x_min, x_max. destruct range; simpl in *. by subst.
  - unfold rate_range, np_min, np_max, bind.
    destruct (snd item) as [|x rest]; [by right|]. simpl.
    apply IH. right. simpl. split; by eexists.
Qed.

(** With a series to plot, every [np.histogram] tests one and the same
    range: the one the first loop has found. *)
Lemma rebuf_rate_histograms_range (data : odict string (list num)) w x_min x_max :
  data ≠ [] →
  fold_each data rate_range (None, None) w = (Return (Some x_min, Some x_max), w) →
  rebuf_rate_histograms data w = np_histogram_range (Some x_min, Some x_max) w.
Proof.
  intros Hdata Hrange. unfold rebuf_rate_histograms, bind. rewrite Hrange.
  pose proof (stateless_np_histogram_range (Some x_min, Some x_max)) as Hpure.
  destruct data as [|item data]; [done|]. cbn [for_each]. unfold bind at 1.
  rewrite (Hpure w w) at 1.
  destruct (fst (np_histogram_range (Some x_min, Some x_max) w)) as [[]|e] eqn:Hfst;
    [|by rewrite (Hpure w w), Hfst].
  clear Hrange Hdata. induction data as [|item' data IH]; cbn [for_each].
  - by rewrite (Hpure w w), Hfst.
  - unfold bind at 1. rewrite (Hpure w w) at 1. by rewrite Hfst.
Qed.

Lemma plot_rebuf_rate_cdf_spec by_cc w :
  plot_rebuf_rate_cdf by_cc w
  = match histograms_outcome by_cc with
    | Return _ =>
        (Return tt,
         {| expt := expt w; pg_queries := pg_queries w;
            stderr := SavedPlot "bbr_cubic_rebuf_rate_cdf.png" :: stderr w;
            plots := CdfSeries "bbr_cubic_rebuf_rate_cdf.png" by_cc :: plots w |})
    | Raise e => (Raise e, w)
    end.
Proof.
  unfold plot_rebuf_rate_cdf, histograms_outcome, bind.
  rewrite (stateless_rebuf_rate_histograms by_cc w
             {| expt := ∅; pg_queries := []; stderr := []; plots := [] |}).
  by destruct (fst (rebuf_rate_histograms by_cc _)) as [[]|e].
Qed.
End RebufRate.

(** A session without play time is not skipped: [plot_rebuf_rate] divides
    by its zero play time and the run dies before any CDF is plotted; and
    [plot_ssim_rebuffer] divides by [ceil(0 / 60) = 0] and plots the
    infinite rate. *)
Lemma zero_play_is_divided_by :
  plot_rebuf_rate example_store buffer_data_zero_play fresh_world
  = (Raise ZeroDivisionError,
     {| expt := {[ "1"%string := {| experiment_id := "1"; congestion_control := "bbr";
                                    abr_algorithm := Some "linear_bba"%string |} ]};
        pg_queries := ["1"%string]; stderr := []; plots := [] |})
  ∧ total_minutes (num:=float) (Build_AggregateRecord 0 30 1) = 0%float
  ∧ plots (snd (plot_ssim_rebuffer "out.png" ssim_bbr_only
                  {[ bbr := Build_AggregateRecord 0 30 1 ]} fresh_world))
    = [Savefig "out.png";
       Annotate {| label_scheme := bbr; label_rebuf_minutes := 0.5%float;
                   label_play_hours := 0%float |} infinity (AvgDb 15%float);
       Scatter infinity (AvgDb 15%float)].
Proof. split; [|split]; reflexivity. Qed.

(** C5 (amended).  Neither reporter tests for a zero play time.
    [plot_rebuf_rate] computes [100 * rebuf / play] for every session: when
    every session has a non-zero play time each scheme receives the rates
    of all its sessions, in order, and the series go to
    [plot_rebuf_rate_cdf], which plots them when [np.histogram] can divide
    the range it takes from them into bins; as soon as one session has a
    zero play time the division raises [ZeroDivisionError] and nothing is
    plotted.  [plot_ssim_rebuffer] divides by [ceil(total_play / 60)] for
    every scheme it plots. *)
Theorem plot_rebuf_rate_every_session {num} `{Arith num} (pg : MetadataStore)
    (d : odict VideoSession (PlayRebuf num)) (w : World num)
    (tagged : list (string * (VideoSession * PlayRebuf num))) :
  tag_all (λ item, session_3 (fst item)) congestion_control pg w d = Some tagged →
  (Forall (λ item, zero_play item = false) d →
   ∃ r w1,
     (∀ cc, oget cc r = match of_scheme cc tagged with
                        | [] => None
                        | items => Some (map session_rate items)
                        end)
     ∧ plots w1 = plots w
     ∧ plot_rebuf_rate pg d w = plot_rebuf_rate_cdf r w1
     ∧ (plottable r = true →
        ∃ w', plot_rebuf_rate pg d w = (Return tt, w')
              ∧ plots w' = CdfSeries "bbr_cubic_rebuf_rate_cdf.png" r :: plots w))
  ∧ (Exists (λ item, zero_play item = true) d →
     ∃ w', plot_rebuf_rate pg d w = (Raise ZeroDivisionError, w')
           ∧ plots w' = plots w)
  ∧ (∀ rebuffer (item : SchemeKey * ssim_entry num) r w0,
       rebuffer !! fst item = Some r →
       drawable rebuffer item = true →
       plot_scheme rebuffer item w0
       = (Return tt,
          draw [Scatter (mul (div (of_int (rebuf_minute r))
                                (np_ceil (int_div (total_play r) 60)))
                           (of_int 100)) (snd item);
                Annotate (abr_cc_str (fst item) r)
                  (mul (div (of_int (rebuf_minute r))
                          (np_ceil (int_div (total_play r) 60)))
                     (of_int 100)) (snd item)] w0)).
Proof.
  intros Htag. split; [|split].
  - intros Hall.
    destruct (plot_rebuf_rate_loop_nonzero pg d [] w tagged Htag Hall)
      as (w1 & _ & _ & Hp & Hrun).
    exists (fold_left (group_step [] (λ (item : VideoSession * PlayRebuf num) l,
                                        l ++ [session_rate item])) tagged []), w1.
    split; [|split; [exact Hp|split]].
    + intros cc. rewrite oget_group_fold. simpl.
      destruct (of_scheme cc tagged) as [|item items] eqn:Hcc; [done|].
      by rewrite fold_left_append.
    + unfold plot_rebuf_rate, bind. by rewrite Hrun.
    + intros Hplot. unfold plot_rebuf_rate, bind. rewrite Hrun.
      rewrite plot_rebuf_rate_cdf_spec. unfold plottable in Hplot.
      destruct (histograms_outcome _); [|done]. eexists. split; [done|].
      simpl. by rewrite Hp.
  - intros Hex.
    destruct (plot_rebuf_rate_loop_zero pg d [] w tagged Htag Hex) as (w1 & Hrun & Hp).
    exists w1. split; [|done]. unfold plot_rebuf_rate, bind. by rewrite Hrun.
  - intros rebuffer item r w0 Hr Hd.
    rewrite (plot_scheme_present _ _ r) by done.
    unfold scheme_drawing. by rewrite Hr.
Qed.

Lemma plot_rebuf_rate_every_session_witness :
  tag_all (λ item, session_3 (fst item)) congestion_control example_store
    (fresh_world (num:=float)) buffer_data_played
  = Some [("bbr"%string, (session_a, {| rebuf := 5%float; play := 100%float |}));
          ("bbr"%string, (session_b, {| rebuf := 3%float; play := 60%float |}))]
  ∧ Forall (λ item, zero_play item = false) buffer_data_played
  ∧ ∃ r w', plottable r = true
            ∧ plot_rebuf_rate example_store buffer_data_played fresh_world = (Return tt, w')
            ∧ plots w' = [CdfSeries "bbr_cubic_rebuf_rate_cdf.png" r]
            ∧ oget "bbr"%string r = Some [5%float; 5%float]
            ∧ oget "cubic"%string r = None.
Proof.
  assert (Forall (λ item, zero_play item = false) buffer_data_played) as Hall.
  { repeat constructor. }
  split; [reflexivity|]. split; [exact Hall|].
  destruct (proj1 (plot_rebuf_rate_every_session example_store buffer_data_played
                     fresh_world _ eq_refl) Hall) as (r & w1 & Hr & _ & Hcdf & Hplot).
  assert (plottable r = true) as Hok.
  { assert (fst (plot_rebuf_rate example_store buffer_data_played fresh_world)
            = Return tt) as Hfst by reflexivity.
    rewrite Hcdf, plot_rebuf_rate_cdf_spec in Hfst. unfold plottable.
    by destruct (histograms_outcome r). }
  destruct (Hplot Hok) as (w' & Hrun & Hplots).
  exists r, w'. split; [exact Hok|]. split; [exact Hrun|]. split; [exact Hplots|].
  split; rewrite Hr; reflexivity.
Defined.

(* ===================================================================== *)
(** * SSIM sums and counts ([collect_ssim]) *)
(* ===================================================================== *)

Section SsimAccumulation.
Context {num : Type} `{Arith num} `{SsimIndex num}.
Implicit Types (w : World num) (pg : MetadataStore) (d : odict SchemeKey (num * Z)).

Local Abbreviation tag := (tag_all (@va_expt_id num) get_abr_cc).
Local Abbreviation account := (group_step (of_int 0, 0%Z) ssim_step).

Lemma collect_point_spec pg d pt w :
  ∃ w', later pg w w' ∧ stderr w' = stderr w ∧ plots w' = plots w
        ∧ collect_point pg d pt w
          = (match resolved pg w (va_expt_id pt) with
             | Some config => Return (account d (get_abr_cc config, pt))
             | None => Raise (ConfigResolutionError (va_expt_id pt))
             end, w').
Proof.
  unfold collect_point, bind.
  destruct (retrieve_expt_config_spec pg (va_expt_id pt) w)
    as (w' & -> & Hl & Hs & Hp).
  exists w'. do 3 (split; [done|]).
  destruct (resolved pg w (va_expt_id pt)) as [config|]; [|done].
  unfold group_step, ssim_step. simpl.
  destruct (get_ssim_index pt); [done|]. by rewrite oupdate_id.
Qed.

Lemma collect_points_spec pg pts : ∀ d w,
  ∃ w', later pg w w' ∧ stderr w' = stderr w ∧ plots w' = plots w
        ∧ match tag pg w pts with
          | Some tagged =>
              fold_each pts (collect_point pg) d w
              = (Return (fold_left account tagged d), w')
          | None =>
              ∃ e, fold_each pts (collect_point pg) d w = (Raise e, w')
          end.
Proof.
  induction pts as [|pt pts IH]; intros d w; simpl.
  - exists w. split; [apply later_refl | done].
  - unfold bind.
    destruct (collect_point_spec pg d pt w) as (w1 & Hl1 & Hs1 & Hp1 & ->).
    destruct (resolved pg w (va_expt_id pt)) as [config|].
    2:{ exists w1. do 3 (split; [done|]). by eexists. }
    destruct (IH (account d (get_abr_cc config, pt)) w1)
      as (w2 & Hl2 & Hs2 & Hp2 & Hrun).
    rewrite (tag_all_later _ _ _ _ _ _ Hl1) in Hrun.
    exists w2. split; [by eapply later_trans|].
    split; [congruence|]. split; [congruence|].
    by destruct (tag pg w pts).
Qed.

(** All windows together: the dictionary is the one the points build when
    taken as one sequence. *)
Lemma accumulate_windows_spec pg (windows : list (Window (VideoAcked num))) : ∀ d w,
  ∃ w', later pg w w' ∧ plots w' = plots w
        ∧ match tag pg w (all_points windows) with
          | Some tagged =>
              fold_each windows (λ d win, do_collect_ssim pg win d) d w
              = (Return (fold_left account tagged d), w')
          | None =>
              ∃ e, fold_each windows (λ d win, do_collect_ssim pg win d) d w
                   = (Raise e, w')
          end.
Proof.
  induction windows as [|win windows IH]; intros d w.
  - exists w. split; [apply later_refl | done].
  - unfold all_points. simpl. rewrite tag_all_app.
    unfold bind, do_collect_ssim at 1 3, bind.
    set (w0 := snd (write_stderr (Processing "video_acked" (s_str win) (e_str win)) w)).
    assert (later pg w w0) as Hl0 by apply steady_write_stderr.
    change (write_stderr (Processing "video_acked" (s_str win) (e_str win)) w)
      with (Return tt, w0).
    destruct (collect_points_spec pg (points win) d w0) as (w1 & Hl1 & _ & Hp1 & Hrun1).
    rewrite (tag_all_later _ _ _ _ _ _ Hl0) in Hrun1.
    destruct (tag pg w (points win)) as [t1|].
    2:{ destruct Hrun1 as [e Hrun1]. rewrite Hrun1.
        exists w1. split; [by eapply later_trans|]. split; [done|]. by eexists. }
    rewrite Hrun1.
    destruct (IH (fold_left account t1 d) w1) as (w2 & Hl2 & Hp2 & Hrun2).
    assert (later pg w w1) as Hl01 by (by eapply later_trans).
    rewrite (tag_all_later _ _ _ _ _ _ Hl01) in Hrun2.
    exists w2. split; [by eapply later_trans|].
    split; [by rewrite Hp2, Hp1|].
    fold (all_points windows).
    destruct (tag pg w (all_points windows)) as [t2|]; [|done].
    by rewrite fold_left_app.
Qed.

(** Sum and count of a scheme: the indices added left to right to [0.0],
    and their number. *)
Lemma ssim_steps (pts : list (VideoAcked num)) : ∀ sc,
  fold_left (λ v pt, ssim_step pt v) pts sc
  = (fold_left add (indices pts) (fst sc),
     (snd sc + Z.of_nat (length (indices pts)))%Z).
Proof.
  induction pts as [|pt pts IH]; intros [s c]; simpl.
  - f_equal. lia.
  - rewrite IH. unfold ssim_step at 1 2.
    destruct (get_ssim_index pt) as [x|]; simpl; [|done]. f_equal. lia.
Qed.

Lemma accumulate_ssim_lookup pg windows w d w1 :
  accumulate_ssim pg windows w = (Return d, w1) →
  ∃ tagged,
    tag pg w (all_points windows) = Some tagged
    ∧ later pg w w1
    ∧ ∀ k, oget k d
           = match of_scheme k tagged with
             | [] => None
             | pts => Some (fold_left add (indices pts) (of_int 0),
                            Z.of_nat (length (indices pts)))
             end.
Proof.
  intros Hrun. unfold accumulate_ssim in Hrun.
  destruct (accumulate_windows_spec pg windows [] w) as (w' & Hl & _ & Hspec).
  destruct (tag pg w (all_points windows)) as [tagged|].
  2:{ destruct Hspec as [e Hspec]. congruence. }
  exists tagged. rewrite Hspec in Hrun. injection Hrun as <- <-.
  split; [done|]. split; [done|]. intros k.
  rewrite oget_group_fold.
  destruct (of_scheme k tagged) as [|pt pts]; [done|].
  rewrite ssim_steps. reflexivity.
Qed.

Lemma accumulate_ssim_resolved pg windows w tagged :
  tag pg w (all_points windows) = Some tagged →
  ∃ w1, accumulate_ssim pg windows w = (Return (fold_left account tagged []), w1).
Proof.
  intros Htag. unfold accumulate_ssim.
  destruct (accumulate_windows_spec pg windows [] w) as (w' & _ & _ & Hspec).
  rewrite Htag in Hspec. by exists w'.
Qed.

(** Reordering a sum, when addition is commutative and associative. *)
Lemma fold_left_add_Permutation (l1 l2 : list num) :
  (∀ x y, add x y = add y x) → (∀ x y z, add (add x y) z = add x (add y z)) →
  l1 ≡ₚ l2 → ∀ s, fold_left add l1 s = fold_left add l2 s.
Proof.
  intros Hcomm Hassoc Hp.
  induction Hp as [|x l1 l2 Hp IH|x y l|l1 l2 l3 Hp1 IH1 Hp2 IH2]; intros s; simpl.
  - done.
  - apply IH.
  - f_equal. by rewrite !Hassoc, (Hcomm x y).
  - by rewrite IH1.
Qed.

Lemma indices_Permutation (l1 l2 : list (VideoAcked num)) :
  l1 ≡ₚ l2 → indices l1 ≡ₚ indices l2.
Proof.
  intros Hp.
  induction Hp as [|x l1 l2 Hp IH|x y l|l1 l2 l3 Hp1 IH1 Hp2 IH2]; simpl.
  - done.
  - destruct (get_ssim_index x); [by apply perm_skip | done].
  - destruct (get_ssim_index x), (get_ssim_index y); try done. apply perm_swap.
  - by etrans.
Qed.
End SsimAccumulation.

Section SsimAverage.
Context {num : Type} `{Arith num} `{DbScale num} `{SsimIndex num}.
Implicit Types (w : World num) (pg : MetadataStore) (d : odict SchemeKey (num * Z)).

Lemma say_nil w : say [] w = w.
Proof. by destruct w. Qed.

Lemma say_say (m1 m2 : list message) w : say m2 (say m1 w) = say (m1 ++ m2) w.
Proof. unfold say; simpl. by rewrite rev_app_distr, app_assoc. Qed.

(** The second loop of [collect_ssim] rewrites every value in place and
    warns about the schemes it leaves alone. *)
Lemma average_all d : ∀ w,
  map_each average_ssim d w
  = (Return (map (λ item, (fst item, ssim_average (snd item))) d),
     say (no_ssim_data d) w).
Proof.
  unfold no_ssim_data.
  induction d as [|[k [s c]] d IH]; intros w; simpl.
  - by rewrite say_nil.
  - unfold bind, average_ssim at 1, ssim_average at 1. simpl.
    destruct (c =? 0)%Z eqn:Hc; simpl.
    + unfold bind. simpl. rewrite IH. simpl.
      f_equal. unfold say; simpl. by rewrite <- app_assoc.
    + by rewrite IH.
Qed.

Lemma collect_ssim_spec pg windows w d w1 :
  accumulate_ssim pg windows w = (Return d, w1) →
  collect_ssim pg windows w
  = (Return (map (λ item, (fst item, ssim_average (snd item))) d),
     say (no_ssim_data d) w1).
Proof.
  intros Hacc. unfold collect_ssim, bind. rewrite Hacc. apply average_all.
Qed.

Lemma oget_averaged k d :
  oget k (map (λ item, (fst item, ssim_average (snd item))) d)
  = ssim_average <$> oget k d.
Proof. by rewrite (oget_map_items (λ item, ssim_average (snd item))). Qed.

Lemma no_ssim_data_warns k s d :
  oget k d = Some (s, 0%Z) → WarnNoSsim k ∈ no_ssim_data d.
Proof.
  intros Hget. apply oget_Some_elem in Hget. unfold no_ssim_data.
  apply (list_elem_of_fmap_2 (λ item : SchemeKey * (num * Z), WarnNoSsim (fst item))
           _ (k, (s, 0%Z))).
  apply list_elem_of_In, filter_In. split; [by apply list_elem_of_In | done].
Qed.
End SsimAverage.

(** C9.  A scheme whose count is still zero after all windows is warned
    about and stays in the mapping returned by [collect_ssim], bound to the
    raw pair [[0.0, 0]]: the mapping is not empty, so that [main] goes on to
    [plot_ssim_rebuffer] when there is rebuffer data.  The reporter does
    not skip the scheme either: it stops there, the raw pair being no
    ordinate [ax.scatter] accepts. *)
Theorem collect_ssim_keeps_empty_scheme {num} `{Arith num} `{DbScale num}
    `{SsimIndex num} (pg : MetadataStore) (windows : list (Window (VideoAcked num)))
    (w w1 : World num) (d : odict SchemeKey (num * Z))
    (abr_cc : SchemeKey) (sum : num) :
  accumulate_ssim pg windows w = (Return d, w1) →
  oget abr_cc d = Some (sum, 0%Z) →
  ∃ ssim w2,
    collect_ssim pg windows w = (Return ssim, w2)
    ∧ WarnNoSsim abr_cc ∈ stderr w2
    ∧ oget abr_cc ssim = Some (SumCount (of_int 0) 0)
    ∧ ssim ≠ []
    ∧ (∀ output minutes client_buffer rebuffer w3,
         collect_rebuffer pg minutes client_buffer w2 = (Return rebuffer, w3) →
         rebuffer ≠ ∅ →
         report output pg minutes windows client_buffer w
         = plot_ssim_rebuffer output ssim rebuffer w3)
    ∧ (∀ rebuffer w3,
         ∃ e, plot_scheme rebuffer (abr_cc, SumCount (of_int 0) 0) w3 = (Raise e, w3)).
Proof.
  intros Hacc Hget.
  assert (sum = of_int 0) as ->.
  { destruct (accumulate_ssim_lookup pg windows w d w1 Hacc) as (tagged & _ & _ & Hd).
    rewrite Hd in Hget. destruct (of_scheme abr_cc tagged) as [|pt pts]; [done|].
    cbv zeta in Hget. remember (indices (pt :: pts)) as l eqn:Hl. clear Hl.
    injection Hget as <- Hcount. by destruct l. }
  eexists _, _. split; [by apply collect_ssim_spec|].
  assert (oget abr_cc (map (λ item, (fst item, ssim_average (snd item))) d)
          = Some (SumCount (of_int 0) 0)) as Hbound.
  { by rewrite oget_averaged, Hget. }
  assert (map (λ item, (fst item, ssim_average (snd item))) d ≠ []) as Hne.
  { intros Hnil. by rewrite Hnil in Hbound. }
  split; [|split; [done|split; [done|split]]].
  - simpl. apply elem_of_app. left.
    apply list_elem_of_In. rewrite <- in_rev. apply list_elem_of_In.
    by eapply no_ssim_data_warns.
  - intros output minutes client_buffer rebuffer w3 Hreb Hdata.
    unfold report, bind. rewrite (collect_ssim_spec pg windows w d w1 Hacc), Hreb.
    by rewrite !bool_decide_eq_false_2.
  - intros rebuffer w3.
    destruct (rebuffer !! abr_cc) as [r|] eqn:Hr.
    + rewrite (plot_scheme_spec _ _ r) by done. simpl.
      destruct (convertible r); by eexists.
    + rewrite plot_scheme_missing by done. by eexists.
Qed.

Lemma collect_ssim_keeps_empty_scheme_witness :
  fst (accumulate_ssim example_store [silent_window] fresh_world)
  = Return [(cubic, (0%R, 0%Z))]
  ∧ ∃ ssim w2,
      collect_ssim example_store [silent_window] fresh_world = (Return ssim, w2)
      ∧ WarnNoSsim cubic ∈ stderr w2
      ∧ oget cubic ssim = Some (SumCount 0%R 0).
Proof.
  split; [reflexivity|].
  assert (accumulate_ssim example_store [silent_window] fresh_world
          = (Return [(cubic, (0%R, 0%Z))],
             snd (accumulate_ssim example_store [silent_window] fresh_world)))
    as Hacc by reflexivity.
  destruct (collect_ssim_keeps_empty_scheme example_store [silent_window] fresh_world
              _ _ cubic 0%R Hacc eq_refl)
    as (ssim & w2 & Hrun & Hwarn & Hbound & _).
  exists ssim, w2. split; [exact Hrun|]. split; [exact Hwarn | exact Hbound].
Defined.

(* ===================================================================== *)
(** * The decibel scale *)
(* ===================================================================== *)

Section Decibel.
Local Open Scope R_scope.

Lemma ln10_pos : 0 < ln 10.
Proof. rewrite <- ln_1. apply ln_increasing; lra. Qed.

Lemma db_formula_increasing x y : x < y → y < 1 → db_formula x < db_formula y.
Proof.
  intros Hxy Hy. unfold db_formula, log10.
  assert (ln (1 - y) < ln (1 - x)) as Hln by (apply ln_increasing; lra).
  pose proof ln10_pos as Hpos.
  assert (ln (1 - y) / ln 10 < ln (1 - x) / ln 10) as Hdiv.
  { unfold Rdiv. apply Rmult_lt_compat_r; [by apply Rinv_0_lt_compat | done]. }
  lra.
Qed.

Lemma db_formula_0 : db_formula 0 = 0.
Proof. unfold db_formula, log10. rewrite Rminus_0_r, ln_1. lra. Qed.

Lemma db_formula_0_9 : db_formula 0.9 = 10.
Proof.
  unfold db_formula, log10. pose proof ln10_pos as Hpos.
  replace (1 - 0.9) with (/ 10) by lra. rewrite ln_Rinv by lra. field. lra.
Qed.

Lemma db_formula_0_999 : db_formula 0.999 = 30.
Proof.
  unfold db_formula, log10. pose proof ln10_pos as Hpos.
  replace (1 - 0.999) with (/ (10 * 10 * 10)) by lra.
  rewrite ln_Rinv by lra. rewrite !ln_mult by lra. field. lra.
Qed.

(** The decibel value of a mean is not the mean of the decibel values:
    indices 0 and 0.9 have mean 0.45, about 2.6 dB, while their decibel
    values 0 dB and 10 dB average to 5 dB. *)
Lemma db_formula_of_mean :
  db_formula ((0 + 0 + 0.9) / 2) ≠ (db_formula 0 + db_formula 0.9) / 2.
Proof.
  rewrite db_formula_0, db_formula_0_9. unfold db_formula, log10.
  pose proof ln10_pos as Hpos. intros Heq.
  replace (1 - (0 + 0 + 0.9) / 2) with 0.55 in Heq by lra.
  assert (ln 0.55 / ln 10 = - (1 / 2)) as Hratio by lra.
  assert (ln 0.55 = - (1 / 2) * ln 10) as Hln.
  { rewrite <- Hratio. field. lra. }
  assert (ln (0.55 * 0.55) = ln (/ 10)) as Hsq.
  { rewrite ln_mult by lra. rewrite ln_Rinv by lra. lra. }
  apply ln_inv in Hsq; lra.
Qed.

Lemma Req_bool_false x y : x ≠ y → Req_bool x y = false.
Proof. intros Hne. unfold Req_bool. by destruct (Req_dec_T x y). Qed.

Lemma Req_bool_true x : Req_bool x x = true.
Proof. unfold Req_bool. by destruct (Req_dec_T x x). Qed.
End Decibel.

(** C8.  On indices below 1 the conversion is [-10 * log10 (1 - index)];
    it is strictly increasing there, in particular on [0, 1); it sends
    0.999 to 30; and it has no value at index 1. *)
Theorem ssim_index_to_db_spec_properties :
  (∀ index : R, (0 <= index < 1)%R →
     ssim_index_to_db_spec index = Some (-10 * log10 (1 - index))%R)
  ∧ (∀ x y : R, (0 <= x)%R → (x < y)%R → (y < 1)%R →
       ∃ dx dy, ssim_index_to_db_spec x = Some dx
                ∧ ssim_index_to_db_spec y = Some dy ∧ (dx < dy)%R)
  ∧ ssim_index_to_db_spec 0.999%R = Some 30%R
  ∧ ssim_index_to_db_spec 1%R = None.
Proof.
  assert (∀ index : R, (index < 1)%R →
            ssim_index_to_db_spec index = Some (db_formula index)) as Hdef.
  { intros index Hlt. unfold ssim_index_to_db_spec.
    by destruct (Rlt_dec index 1). }
  split; [|split; [|split]].
  - intros index [_ Hlt]. by rewrite Hdef.
  - intros x y _ Hxy Hy. exists (db_formula x), (db_formula y).
    split; [apply Hdef; lra|]. split; [by apply Hdef|].
    by apply db_formula_increasing.
  - rewrite Hdef by lra. f_equal. apply db_formula_0_999.
  - unfold ssim_index_to_db_spec. destruct (Rlt_dec 1 1) as [Hlt|]; [lra | done].
Qed.

Lemma ssim_index_to_db_spec_properties_witness :
  (0 <= 0.5 < 1)%R ∧ (0 <= 0.5)%R ∧ (0.5 < 0.75)%R ∧ (0.75 < 1)%R
  ∧ ssim_index_to_db_spec 0.5%R = Some (-10 * log10 (1 - 0.5))%R
  ∧ ∃ dx dy, ssim_index_to_db_spec 0.5%R = Some dx
             ∧ ssim_index_to_db_spec 0.75%R = Some dy ∧ (dx < dy)%R.
Proof.
  assert (0 <= 0.5 < 1)%R as H1 by lra.
  assert (0 <= 0.5)%R as H2 by lra.
  assert (0.5 < 0.75)%R as H3 by lra.
  assert (0.75 < 1)%R as H4 by lra.
  do 4 (split; [done|]).
  split.
  - exact (proj1 ssim_index_to_db_spec_properties 0.5%R H1).
  - exact (proj1 (proj2 ssim_index_to_db_spec_properties) 0.5%R 0.75%R H2 H3 H4).
Defined.

(** C10.  For a scheme with at least one aggregated sample, [collect_ssim]
    reports the conversion of the mean index, [ssim_index_to_db (sum /
    count)], where [sum] adds the scheme's indices to [0.0] in arrival
    order and [count] is their number, whatever [ssim_index_to_db] and
    [get_ssim_index] compute.  This is not the mean of the samples' decibel
    values: for the indices 0 and 0.9 the two differ. *)
Theorem collect_ssim_average_of_indices :
  (∀ (num : Type) (A : Arith num) (D : DbScale num) (S : SsimIndex num)
     (pg : MetadataStore)
     (windows : list (Window (VideoAcked num))) (w w1 : World num)
     (d : odict SchemeKey (num * Z)) (abr_cc : SchemeKey) (sum : num) (count : Z),
      accumulate_ssim pg windows w = (Return d, w1) →
      oget abr_cc d = Some (sum, count) →
      count ≠ 0%Z →
      ∃ ssim w2 tagged,
        collect_ssim pg windows w = (Return ssim, w2)
        ∧ oget abr_cc ssim
          = Some (AvgDb (ssim_index_to_db (div sum (of_int count))))
        ∧ tag_all va_expt_id get_abr_cc pg w (all_points windows) = Some tagged
        ∧ sum = fold_left add (indices (of_scheme abr_cc tagged)) (of_int 0)
        ∧ count = Z.of_nat (length (indices (of_scheme abr_cc tagged))))
  ∧ ssim_average (num:=R) (fold_left Rplus [0; 0.9]%R 0%R, 2%Z)
    = AvgDb (db_formula ((0 + 0 + 0.9) / 2))
  ∧ db_formula ((0 + 0 + 0.9) / 2) ≠ ((db_formula 0 + db_formula 0.9) / 2)%R.
Proof.
  split; [|split; [reflexivity | apply db_formula_of_mean]].
  intros num A D S pg windows w w1 d abr_cc sum count Hacc Hget Hcount.
  destruct (accumulate_ssim_lookup pg windows w d w1 Hacc) as (tagged & Htag & _ & Hd).
  eexists _, _, tagged. split; [by apply collect_ssim_spec|].
  split.
  { rewrite oget_averaged, Hget. simpl. unfold ssim_average. simpl.
    by rewrite (proj2 (Z.eqb_neq count 0) Hcount). }
  split; [done|].
  rewrite Hd in Hget. destruct (of_scheme abr_cc tagged) as [|pt pts]; [done|].
  cbv zeta in Hget. by injection Hget as <- <-.
Qed.

Lemma collect_ssim_average_of_indices_witness :
  ∃ d w1,
    accumulate_ssim example_store [two_indices] fresh_world = (Return d, w1)
    ∧ oget bbr d = Some ((0 + 0 + 0.9)%R, 2%Z)
    ∧ 2%Z ≠ 0%Z
    ∧ ∃ ssim w2,
        collect_ssim example_store [two_indices] fresh_world = (Return ssim, w2)
        ∧ oget bbr ssim = Some (AvgDb (db_formula ((0 + 0 + 0.9) / 2))).
Proof.
  destruct (accumulate_ssim_resolved example_store [two_indices] fresh_world _ eq_refl)
    as [w1 Hacc].
  eexists _, w1. split; [exact Hacc|].
  assert (oget bbr (fold_left (group_step (of_int 0, 0%Z) ssim_step)
                      [(bbr, {| va_expt_id := "1"; va_ssim_index := Some 0%R |});
                       (bbr, {| va_expt_id := "1"; va_ssim_index := Some 0.9%R |})] [])
          = Some ((0 + 0 + 0.9)%R, 2%Z)) as Hget.
  { rewrite oget_group_fold.
    change (of_scheme bbr _) with [{| va_expt_id := "1"; va_ssim_index := Some 0%R |};
                                   {| va_expt_id := "1"; va_ssim_index := Some 0.9%R |}].
    cbv beta iota zeta. rewrite ssim_steps.
    unfold indices, get_ssim_index, sample_get_ssim_index. simpl.
    rewrite !Req_bool_false by lra. reflexivity. }
  assert (2%Z ≠ 0%Z) as Hcount by done.
  split; [exact Hget|]. split; [exact Hcount|].
  destruct (proj1 collect_ssim_average_of_indices R _ _ _ example_store [two_indices]
              fresh_world w1 _ bbr _ 2%Z Hacc Hget Hcount)
    as (ssim & w2 & _ & Hrun & Hbound & _).
  exists ssim, w2. split; [exact Hrun | exact Hbound].
Defined.

(* ===================================================================== *)
(** * Order of accumulation *)
(* ===================================================================== *)

(** In binary64 the sum, and with it the average index, depends on the
    order in which the samples arrive. *)
Lemma accumulate_ssim_depends_on_order :
  all_points [ascending] ≡ₚ all_points [descending]
  ∧ fst (accumulate_ssim example_store [ascending] fresh_world)
    = Return [(bbr, (0.6000000000000001%float, 3%Z))]
  ∧ fst (accumulate_ssim example_store [descending] fresh_world)
    = Return [(bbr, (0.6%float, 3%Z))]
  ∧ PrimFloat.eqb 0.6000000000000001 0.6 = false
  ∧ PrimFloat.eqb (avg_ssim_index (0.6000000000000001%float, 3%Z))
      (avg_ssim_index (0.6%float, 3%Z)) = false.
Proof.
  split; [|repeat split; reflexivity].
  exact (Permutation_rev (all_points [ascending])).
Qed.

Section OrderOfAccumulation.
Context {num : Type} `{Arith num} `{SsimIndex num}.
Implicit Types (w : World num) (pg : MetadataStore).

Lemma accumulate_ssim_Permutation pg (ws1 ws2 : list (Window (VideoAcked num)))
    w d1 w1 :
  all_points ws1 ≡ₚ all_points ws2 →
  accumulate_ssim pg ws1 w = (Return d1, w1) →
  ∃ d2 w2 tagged1 tagged2,
    accumulate_ssim pg ws2 w = (Return d2, w2)
    ∧ tagged1 ≡ₚ tagged2
    ∧ (∀ k, oget k d1
            = match of_scheme k tagged1 with
              | [] => None
              | pts => Some (fold_left add (indices pts) (of_int 0),
                             Z.of_nat (length (indices pts)))
              end)
    ∧ (∀ k, oget k d2
            = match of_scheme k tagged2 with
              | [] => None
              | pts => Some (fold_left add (indices pts) (of_int 0),
                             Z.of_nat (length (indices pts)))
              end).
Proof.
  intros Hperm Hacc1.
  destruct (accumulate_ssim_lookup pg ws1 w d1 w1 Hacc1) as (tagged1 & Htag1 & _ & Hd1).
  destruct (tag_all_Permutation _ _ pg w _ _ tagged1 Hperm Htag1)
    as (tagged2 & Htag2 & Htagged).
  destruct (accumulate_ssim_resolved pg ws2 w tagged2 Htag2) as [w2 Hacc2].
  destruct (accumulate_ssim_lookup pg ws2 w _ w2 Hacc2) as (tagged2' & Htag2' & _ & Hd2).
  assert (tagged2' = tagged2) as -> by congruence.
  by eexists _, w2, tagged1, tagged2.
Qed.

Lemma sum_count_Permutation (pts1 pts2 : list (VideoAcked num)) :
  pts1 ≡ₚ pts2 →
  Z.of_nat (length (indices pts1)) = Z.of_nat (length (indices pts2))
  ∧ ((∀ x y, add x y = add y x) →
     (∀ x y z, add (add x y) z = add x (add y z)) →
     fold_left add (indices pts1) (of_int 0) = fold_left add (indices pts2) (of_int 0)).
Proof.
  intros Hperm. apply indices_Permutation in Hperm. split.
  - by rewrite (Permutation_length Hperm).
  - intros Hcomm Hassoc. by apply fold_left_add_Permutation.
Qed.
End OrderOfAccumulation.

(** C7 (amended).  Feeding the same multiset of samples in another order
    (and in other pages) binds the same schemes, each with the same count.
    The sums, and with them the averages, are the same whenever the
    addition of the number type is commutative and associative, as exact
    addition is; the binary64 addition the script runs on is not
    associative, and there the sum depends on the order. *)
Theorem accumulate_ssim_order {num} `{Arith num} `{SsimIndex num}
    (pg : MetadataStore) (ws1 ws2 : list (Window (VideoAcked num)))
    (w w1 : World num) (d1 : odict SchemeKey (num * Z)) :
  all_points ws1 ≡ₚ all_points ws2 →
  accumulate_ssim pg ws1 w = (Return d1, w1) →
  ∃ d2 w2,
    accumulate_ssim pg ws2 w = (Return d2, w2)
    ∧ (∀ k, snd <$> oget k d1 = snd <$> oget k d2)
    ∧ ((∀ x y, add x y = add y x) →
       (∀ x y z, add (add x y) z = add x (add y z)) →
       ∀ k, oget k d1 = oget k d2
            ∧ avg_ssim_index <$> oget k d1 = avg_ssim_index <$> oget k d2).
Proof.
  intros Hperm Hacc1.
  destruct (accumulate_ssim_Permutation pg ws1 ws2 w d1 w1 Hperm Hacc1)
    as (d2 & w2 & tagged1 & tagged2 & Hacc2 & Htagged & Hd1 & Hd2).
  exists d2, w2. split; [done|].
  assert (∀ k, of_scheme k tagged1 ≡ₚ of_scheme k tagged2) as Hk.
  { intros k. by apply of_scheme_Permutation. }
  split.
  - intros k. rewrite Hd1, Hd2. specialize (Hk k).
    destruct (of_scheme k tagged1) as [|p1 l1], (of_scheme k tagged2) as [|p2 l2];
      try done.
    + by apply Permutation_nil_cons in Hk.
    + symmetry in Hk. by apply Permutation_nil_cons in Hk.
    + change (Some (Z.of_nat (length (indices (p1 :: l1))))
              = Some (Z.of_nat (length (indices (p2 :: l2))))).
      f_equal. exact (proj1 (sum_count_Permutation _ _ Hk)).
  - intros Hcomm Hassoc k.
    assert (oget k d1 = oget k d2) as Heq; [|by rewrite Heq].
    rewrite Hd1, Hd2. specialize (Hk k).
    destruct (of_scheme k tagged1) as [|p1 l1], (of_scheme k tagged2) as [|p2 l2];
      try done.
    + by apply Permutation_nil_cons in Hk.
    + symmetry in Hk. by apply Permutation_nil_cons in Hk.
    + cbv zeta. destruct (sum_count_Permutation _ _ Hk) as [Hcount Hsum].
      by rewrite Hcount, Hsum.
Qed.

Lemma accumulate_ssim_order_witness :
  all_points [ascending] ≡ₚ all_points [descending]
  ∧ ∃ d1 w1 d2 w2,
      accumulate_ssim example_store [ascending] fresh_world = (Return d1, w1)
      ∧ accumulate_ssim example_store [descending] fresh_world = (Return d2, w2)
      ∧ snd <$> oget bbr d1 = Some 3%Z
      ∧ snd <$> oget bbr d2 = Some 3%Z.
Proof.
  assert (all_points [ascending] ≡ₚ all_points [descending]) as Hperm.
  { exact (Permutation_rev (all_points [ascending])). }
  split; [exact Hperm|].
  assert (accumulate_ssim example_store [ascending] fresh_world
          = (Return [(bbr, (0.6000000000000001%float, 3%Z))],
             snd (accumulate_ssim example_store [ascending] fresh_world)))
    as Hacc1 by reflexivity.
  destruct (accumulate_ssim_order example_store [ascending] [descending]
              fresh_world _ _ Hperm Hacc1) as (d2 & w2 & Hacc2 & Hcount & _).
  eexists _, _, d2, w2. split; [exact Hacc1|]. split; [exact Hacc2|].
  split; [reflexivity|]. rewrite <- Hcount. reflexivity.
Defined.

(* ===================================================================== *)
(** * Samples with SSIM index 1 *)
(* ===================================================================== *)

Lemma sample_get_ssim_index_perfect {num} `{Arith num} (pt : VideoAcked num) :
  perfect pt = true → sample_get_ssim_index pt = None.
Proof.
  unfold perfect, sample_get_ssim_index. destruct (va_ssim_index pt); [|done].
  by intros ->.
Qed.


Section PerfectSamples.
Context {num : Type} `{Arith num} `{SsimIndex num}.
Implicit Types (w : World num) (pg : MetadataStore).

(** The helper yields no index for a perfect point. *)
Hypothesis get_ssim_index_perfect :
  ∀ pt : VideoAcked num, perfect pt = true → get_ssim_index pt = None.

Lemma indices_drop_perfect (pts : list (VideoAcked num)) :
  indices (List.filter (λ pt, negb (perfect pt)) pts) = indices pts.
Proof.
  induction pts as [|pt pts IH]; simpl; [done|].
  destruct (perfect pt) eqn:Hp; simpl.
  - by rewrite (get_ssim_index_perfect pt Hp).
  - by rewrite IH.
Qed.

Lemma tag_all_filter {K X} (expt_of : X → string) (scheme : ExperimentConfig → K)
    (P : X → bool) pg w (xs : list X) tagged :
  tag_all expt_of scheme pg w xs = Some tagged →
  tag_all expt_of scheme pg w (List.filter P xs)
  = Some (List.filter (λ kx, P (snd kx)) tagged).
Proof.
  revert tagged. induction xs as [|x xs IH]; intros tagged; simpl.
  - by intros [= <-].
  - destruct (resolved pg w (expt_of x)) as [config|] eqn:Hres; [|done].
    destruct (tag_all expt_of scheme pg w xs) as [t|]; [|done].
    intros [= <-]. simpl. destruct (P x); simpl.
    + by rewrite Hres, (IH t).
    + by apply IH.
Qed.

Lemma of_scheme_filter {K} `{EqDecision K} {X} (k : K) (P : X → bool)
    (tagged : list (K * X)) :
  of_scheme k (List.filter (λ kx, P (snd kx)) tagged)
  = List.filter P (of_scheme k tagged).
Proof.
  unfold of_scheme. induction tagged as [|[k0 x] tagged IH]; simpl; [done|].
  destruct (P x) eqn:HP; simpl; destruct (bool_decide (k0 = k)); simpl;
    rewrite ?HP; by rewrite IH.
Qed.

Lemma all_points_drop_perfect (windows : list (Window (VideoAcked num))) :
  all_points (map drop_perfect windows)
  = List.filter (λ pt, negb (perfect pt)) (all_points windows).
Proof.
  unfold all_points. induction windows as [|win windows IH]; simpl; [done|].
  by rewrite List.filter_app, IH.
Qed.

(** Perfect samples can be deleted from the input of [collect_ssim]
    without changing any scheme's sum or count. *)
Lemma accumulate_ssim_drop_perfect pg (windows : list (Window (VideoAcked num)))
    w d w1 :
  accumulate_ssim pg windows w = (Return d, w1) →
  ∃ d' w1',
    accumulate_ssim pg (map drop_perfect windows) w = (Return d', w1')
    ∧ ∀ k, default (of_int 0, 0%Z) (oget k d) = default (of_int 0, 0%Z) (oget k d').
Proof.
  intros Hacc.
  destruct (accumulate_ssim_lookup pg windows w d w1 Hacc) as (tagged & Htag & _ & Hd).
  pose proof (tag_all_filter va_expt_id get_abr_cc (λ pt, negb (perfect pt))
                pg w _ _ Htag) as Htag'.
  rewrite <- all_points_drop_perfect in Htag'.
  destruct (accumulate_ssim_resolved pg _ w _ Htag') as [w1' Hacc'].
  destruct (accumulate_ssim_lookup pg _ w _ w1' Hacc') as (tagged' & Htag'' & _ & Hd').
  assert (tagged' = List.filter (λ kx, negb (perfect (snd kx))) tagged) as ->
    by congruence.
  eexists _, w1'. split; [exact Hacc'|]. intros k.
  rewrite Hd, Hd', (of_scheme_filter k (λ pt, negb (perfect pt))).
  pose proof (indices_drop_perfect (of_scheme k tagged)) as Hidx.
  destruct (of_scheme k tagged) as [|pt pts]; [done|].
  destruct (List.filter _ (pt :: pts)) as [|pt' pts'] eqn:Hfilter.
  - cbv zeta. rewrite <- Hidx. done.
  - cbv zeta. by rewrite Hidx.
Qed.
End PerfectSamples.

Section PerfectChunks.
Context {num : Type} `{Arith num} `{DbScale num}.
Variable VIDEO_DURATION : Z.
Implicit Types (w : World num) (pg : MetadataStore) (ds : odict Z (Dsv num))
  (acc : odict string (list num) * odict string (list num)).

Local Abbreviation kept := (λ entry : Z * Dsv num, negb (perfect_dsv entry)).

(** Looking up the previous chunk in the filtered session. *)
Lemma previous_chunk ds cc acc (entry : Z * Dsv num) :
  NoDup (okeys ds) →
  plot_ssim_video VIDEO_DURATION cc (List.filter kept ds) acc entry
  = plot_ssim_video VIDEO_DURATION cc ds acc entry.
Proof.
  intros Hnd. unfold plot_ssim_video.
  destruct (num_eqb (ssim_index (snd entry)) (of_int 1)); [done|].
  rewrite (oget_filter kept _ ds Hnd).
  destruct (oget (fst entry - VIDEO_DURATION)%Z ds) as [prev|]; [|done].
  unfold perfect_dsv. simpl.
  destruct (num_eqb (ssim_index prev) (of_int 1)) eqn:Hprev; simpl; [done|].
  by rewrite Hprev.
Qed.

Lemma plot_ssim_videos_drop_perfect ds cc (entries : odict Z (Dsv num)) : ∀ acc,
  NoDup (okeys ds) →
  fold_left (plot_ssim_video VIDEO_DURATION cc (List.filter kept ds))
    (List.filter kept entries) acc
  = fold_left (plot_ssim_video VIDEO_DURATION cc ds) entries acc.
Proof.
  intros acc Hnd. revert acc.
  induction entries as [|entry entries IH]; intros acc; simpl; [done|].
  destruct (perfect_dsv entry) eqn:Hp; simpl.
  - rewrite IH. f_equal. unfold plot_ssim_video.
    unfold perfect_dsv in Hp. by rewrite Hp.
  - by rewrite IH, previous_chunk.
Qed.

Lemma plot_ssim_session_drop_perfect pg acc (item : VideoSession * odict Z (Dsv num)) w :
  NoDup (okeys (snd item)) →
  plot_ssim_session VIDEO_DURATION pg acc (drop_perfect_chunks item) w
  = plot_ssim_session VIDEO_DURATION pg acc item w.
Proof.
  intros Hnd. unfold plot_ssim_session, bind. simpl.
  destruct (retrieve_expt_config pg (session_3 (fst item)) w) as [[config|e] w']; [|done].
  unfold ret. f_equal. f_equal. by apply plot_ssim_videos_drop_perfect.
Qed.

Lemma plot_ssim_sessions_drop_perfect pg (d : odict VideoSession (odict Z (Dsv num))) :
  ∀ acc w,
  Forall (λ item, NoDup (okeys (snd item))) d →
  fold_each (map drop_perfect_chunks d) (plot_ssim_session VIDEO_DURATION pg) acc w
  = fold_each d (plot_ssim_session VIDEO_DURATION pg) acc w.
Proof.
  induction d as [|item d IH]; intros acc w Hall; simpl; [done|].
  apply Forall_cons in Hall as [Hnd Hall]. unfold bind.
  rewrite plot_ssim_session_drop_perfect by done.
  destruct (plot_ssim_session VIDEO_DURATION pg acc item w) as [[acc'|e] w']; [|done].
  by apply IH.
Qed.
End PerfectChunks.



(* ===================================================================== *)
(** * Keys and totals of the grouping loops *)
(* ===================================================================== *)

Section Keys.
Context {K : Type} `{EqDecision K} {V : Type}.
Implicit Types (k : K) (v : V) (d : odict K V) (keys : list K).

Lemma ocontains_keys k d : ocontains k d = true ↔ k ∈ okeys d.
Proof.
  unfold ocontains. destruct (oget k d) as [v|] eqn:Hget.
  - split; [intros _|done]. destruct (decide (k ∈ okeys d)) as [|Hnot]; [done|].
    apply oget_None_keys in Hnot. congruence.
  - split; [done|]. intros Hin. by apply oget_None_keys in Hget.
Qed.

Lemma okeys_oupdate k (f : V → V) d : okeys (oupdate k f d) = okeys d.
Proof.
  induction d as [|[k' v'] d IH]; simpl; [done|].
  destruct (decide (k = k')); simpl; [done|]. by rewrite IH.
Qed.

Lemma okeys_oset_old k v d : k ∈ okeys d → okeys (oset k v d) = okeys d.
Proof.
  induction d as [|[k' v'] d IH]; simpl.
  - by intros ?%elem_of_nil.
  - destruct (decide (k = k')) as [->|Hne]; simpl; [done|].
    intros [?|Hin]%elem_of_cons; [done|]. by rewrite IH.
Qed.

Lemma okeys_oset_new k v d : k ∉ okeys d → okeys (oset k v d) = okeys d ++ [k].
Proof.
  induction d as [|[k' v'] d IH]; simpl; [done|].
  intros Hnot. apply not_elem_of_cons in Hnot as [Hne Hnot].
  destruct (decide (k = k')); [done|]. simpl. by rewrite IH.
Qed.

Lemma okeys_oset k v d : okeys (oset k v d) = note_key (okeys d) k.
Proof.
  unfold note_key. destruct (decide (k ∈ okeys d)).
  - by apply okeys_oset_old.
  - by apply okeys_oset_new.
Qed.

Lemma okeys_osetdefault k v d : okeys (osetdefault k v d) = note_key (okeys d) k.
Proof.
  unfold osetdefault, note_key.
  destruct (ocontains k d) eqn:Hin.
  - apply ocontains_keys in Hin. by destruct (decide (k ∈ okeys d)).
  - destruct (decide (k ∈ okeys d)) as [Hk|Hk].
    + apply ocontains_keys in Hk. congruence.
    + by apply okeys_oset_new.
Qed.

Lemma okeys_group_step {X} v0 (f : X → V → V) d (kx : K * X) :
  okeys (group_step v0 f d kx) = note_key (okeys d) (fst kx).
Proof. unfold group_step. by rewrite okeys_oupdate, okeys_osetdefault. Qed.

Lemma okeys_group_fold {X} v0 (f : X → V → V) (tagged : list (K * X)) : ∀ d,
  okeys (fold_left (group_step v0 f) tagged d)
  = fold_left note_key (map fst tagged) (okeys d).
Proof.
  induction tagged as [|kx tagged IH]; intros d; simpl; [done|].
  by rewrite IH, okeys_group_step.
Qed.

Lemma elem_of_note_key keys k k' : k' ∈ note_key keys k ↔ k' ∈ keys ∨ k' = k.
Proof.
  unfold note_key. destruct (decide (k ∈ keys)) as [Hin|Hnot].
  - split; [by left|]. by intros [?| ->].
  - rewrite elem_of_app, list_elem_of_singleton. done.
Qed.

Lemma NoDup_note_key keys k : NoDup keys → NoDup (note_key keys k).
Proof.
  intros Hnd. unfold note_key. destruct (decide (k ∈ keys)) as [Hin|Hnot]; [done|].
  apply NoDup_app. split; [done|]. split; [|apply NoDup_singleton].
  intros x Hx ->%list_elem_of_singleton. done.
Qed.

Lemma elem_of_note_keys (ks : list K) : ∀ keys k,
  k ∈ fold_left note_key ks keys ↔ k ∈ keys ∨ k ∈ ks.
Proof.
  induction ks as [|k0 ks IH]; intros keys k; simpl.
  - split; [by left|]. by intros [?|?%elem_of_nil].
  - rewrite IH, elem_of_note_key, elem_of_cons. tauto.
Qed.

Lemma NoDup_note_keys (ks : list K) : ∀ keys,
  NoDup keys → NoDup (fold_left note_key ks keys).
Proof.
  induction ks as [|k0 ks IH]; intros keys Hnd; simpl; [done|].
  by apply IH, NoDup_note_key.
Qed.

Lemma NoDup_first_seen (ks : list K) : NoDup (first_seen ks).
Proof. apply NoDup_note_keys, NoDup_nil_2. Qed.

Lemma elem_of_first_seen (ks : list K) k : k ∈ first_seen ks ↔ k ∈ ks.
Proof.
  unfold first_seen. rewrite elem_of_note_keys. split; [|by right].
  by intros [?%elem_of_nil|?].
Qed.

Lemma first_seen_nil (ks : list K) : first_seen ks = [] ↔ ks = [].
Proof.
  split; [|by intros ->]. destruct ks as [|k ks]; [done|]. intros Hnil.
  assert (k ∈ first_seen (k :: ks)) as Hin by (apply elem_of_first_seen; left).
  rewrite Hnil in Hin. by apply elem_of_nil in Hin.
Qed.

(** ** Totals *)

Lemma weigh_oupdate (m : V → Z) k (f : V → V) d v :
  oget k d = Some v →
  weigh m (oupdate k f d) = (weigh m d - m v + m (f v))%Z.
Proof.
  induction d as [|[k' v'] d IH]; simpl; [done|].
  destruct (decide (k = k')) as [->|Hne]; simpl.
  - intros [= ->]. lia.
  - intros Hget. rewrite IH by done. lia.
Qed.

Lemma weigh_oset_new (m : V → Z) k v d :
  oget k d = None → weigh m (oset k v d) = (weigh m d + m v)%Z.
Proof.
  induction d as [|[k' v'] d IH]; simpl; [lia|].
  destruct (decide (k = k')); [done|]. simpl. intros Hget. rewrite IH by done. lia.
Qed.

(** One pass of a grouping loop changes the total by what the update adds
    to the value of its key, the initial value weighing nothing. *)
Lemma weigh_group_step {X} (m : V → Z) v0 (f : X → V → V) d (kx : K * X) :
  m v0 = 0%Z →
  weigh m (group_step v0 f d kx)
  = (weigh m d + (m (f (snd kx) (default v0 (oget (fst kx) d)))
                  - m (default v0 (oget (fst kx) d))))%Z.
Proof.
  intros Hv0. unfold group_step, osetdefault, ocontains.
  destruct (oget (fst kx) d) as [v|] eqn:Hget; simpl.
  - rewrite (weigh_oupdate m _ _ _ v) by done. lia.
  - rewrite (weigh_oupdate m _ _ _ v0) by apply oget_oset_eq.
    rewrite weigh_oset_new by done. lia.
Qed.

(** When every pass adds [gain] of its item, the total is the sum of the
    gains. *)
Lemma weigh_group_fold {X} (m : V → Z) v0 (f : X → V → V) (gain : X → Z)
    (tagged : list (K * X)) :
  m v0 = 0%Z → (∀ x v, m (f x v) = (m v + gain x)%Z) →
  ∀ d, weigh m (fold_left (group_step v0 f) tagged d)
       = (weigh m d + foldr (λ kx total, gain (snd kx) + total) 0 tagged)%Z.
Proof.
  intros Hv0 Hgain. induction tagged as [|kx tagged IH]; intros d; simpl; [lia|].
  rewrite IH, weigh_group_step, Hgain by done. lia.
Qed.
End Keys.

(* ===================================================================== *)
(** * What leaves the figure alone *)
(* ===================================================================== *)

Section Quiet.
Context {num : Type}.
Implicit Types (w : World num) (pg : MetadataStore).

Lemma quiet_ret {A} (a : A) : quiet (num:=num) (ret a).
Proof. done. Qed.

Lemma quiet_raise {A} e : quiet (num:=num) (A:=A) (raise e).
Proof. done. Qed.

Lemma quiet_bind {A B} (c : M num A) (k : A → M num B) :
  quiet c → (∀ a, quiet (k a)) → quiet (bind c k).
Proof.
  intros Hc Hk w. unfold bind. specialize (Hc w).
  destruct (c w) as [[a|e] w']; simpl in *; [|done].
  by rewrite Hk.
Qed.

Lemma quiet_catch {A} (c : M num A) (h : exn → M num A) :
  quiet c → (∀ e, quiet (h e)) → quiet (catch c h).
Proof.
  intros Hc Hh w. unfold catch. specialize (Hc w).
  destruct (c w) as [[a|e] w']; simpl in *; [done|].
  by rewrite Hh.
Qed.

Lemma quiet_write_stderr m : quiet (num:=num) (write_stderr m).
Proof. done. Qed.

Lemma quiet_retrieve_expt_config pg expt_id :
  quiet (num:=num) (retrieve_expt_config pg expt_id).
Proof.
  intros w. destruct (retrieve_expt_config_spec pg expt_id w) as (w' & -> & _ & _ & Hp).
  done.
Qed.

Lemma quiet_fold_each {A S} (xs : list A) (body : S → A → M num S) s :
  (∀ s x, quiet (body s x)) → quiet (fold_each xs body s).
Proof.
  intros Hbody. revert s. induction xs as [|x xs IH]; intros s; simpl.
  - apply quiet_ret.
  - apply quiet_bind; [apply Hbody | intros s'; apply IH].
Qed.

Lemma quiet_map_each {A B} (f : A → M num B) (xs : list A) :
  (∀ x, quiet (f x)) → quiet (map_each f xs).
Proof.
  intros Hf. induction xs as [|x xs IH]; simpl.
  - apply quiet_ret.
  - apply quiet_bind; [apply Hf | intros y].
    apply quiet_bind; [apply IH | intros ys; apply quiet_ret].
Qed.
End Quiet.

Create HintDb quiet discriminated.
#[export] Hint Resolve quiet_ret quiet_raise quiet_write_stderr
  quiet_retrieve_expt_config : quiet.
#[export] Hint Extern 2 (quiet (bind _ _)) =>
  (apply quiet_bind; [|intros ?]) : quiet.
#[export] Hint Extern 2 (quiet (catch _ _)) =>
  (apply quiet_catch; [|intros ?]) : quiet.
#[export] Hint Extern 2 (quiet (fold_each _ _ _)) =>
  (apply quiet_fold_each; intros ? ?) : quiet.
#[export] Hint Extern 2 (quiet (map_each _ _)) =>
  (apply quiet_map_each; intros ?) : quiet.
#[export] Hint Extern 3 (quiet (match ?x with _ => _ end)) =>
  destruct x : quiet.
#[export] Hint Extern 3 (quiet (if ?x then _ else _)) =>
  destruct x : quiet.

Section ScriptsQuiet.
Context {num : Type} `{Arith num} `{DbScale num} `{SsimIndex num}.
Implicit Types (pg : MetadataStore).

Lemma quiet_collect_ssim pg windows : quiet (collect_ssim pg windows).
Proof.
  unfold collect_ssim, accumulate_ssim, do_collect_ssim, collect_point, average_ssim.
  eauto 30 with quiet.
Qed.

Lemma quiet_collect_rebuffer pg minutes windows :
  quiet (collect_rebuffer (num:=num) pg minutes windows).
Proof.
  unfold collect_rebuffer, do_collect_rebuffer, add_data_point, done_data_points.
  eauto 30 with quiet.
Qed.

Lemma quiet_plot_rebuf_rate_loop pg d by_cc :
  quiet (fold_each d (plot_rebuf_rate_session pg) by_cc).
Proof.
  unfold plot_rebuf_rate_session, py_div. eauto 30 with quiet.
Qed.

Lemma quiet_plot_ssim_loop VIDEO_DURATION pg d acc :
  quiet (fold_each d (plot_ssim_session VIDEO_DURATION pg) acc).
Proof.
  unfold plot_ssim_session. eauto 30 with quiet.
Qed.
End ScriptsQuiet.

(* ===================================================================== *)
(** * The outcome of [collect_ssim] *)
(* ===================================================================== *)

Section SsimOutcome.
Context {num : Type} `{Arith num} `{SsimIndex num}.
Implicit Types (w : World num) (pg : MetadataStore) (d : odict SchemeKey (num * Z)).

Local Abbreviation tag := (tag_all (@va_expt_id num) get_abr_cc).
Local Abbreviation account := (group_step (of_int 0, 0%Z) ssim_step).

Lemma accumulate_points_later pg w w' pts :
  later pg w w' → ∀ d, accumulate_points pg w' pts d = accumulate_points pg w pts d.
Proof.
  intros Hl. induction pts as [|pt pts IH]; intros d; simpl; [done|].
  rewrite (later_resolved _ _ _ Hl).
  by destruct (resolved pg w (va_expt_id pt)).
Qed.

Lemma accumulate_points_app pg w pts1 pts2 : ∀ d,
  accumulate_points pg w (pts1 ++ pts2) d
  = match accumulate_points pg w pts1 d with
    | Return d' => accumulate_points pg w pts2 d'
    | Raise e => Raise e
    end.
Proof.
  induction pts1 as [|pt pts1 IH]; intros d; simpl; [done|].
  by destruct (resolved pg w (va_expt_id pt)).
Qed.

Lemma accumulate_points_tagged pg w pts : ∀ d tagged,
  tag pg w pts = Some tagged →
  accumulate_points pg w pts d = Return (fold_left account tagged d).
Proof.
  induction pts as [|pt pts IH]; intros d tagged; simpl.
  - by intros [= <-].
  - destruct (resolved pg w (va_expt_id pt)) as [config|]; [|done].
    destruct (tag pg w pts) as [t|]; [|done].
    intros [= <-]. simpl. by apply IH.
Qed.

Lemma accumulate_points_returns pg w pts : ∀ d d',
  accumulate_points pg w pts d = Return d' →
  ∃ tagged, tag pg w pts = Some tagged ∧ d' = fold_left account tagged d.
Proof.
  induction pts as [|pt pts IH]; intros d d'; simpl.
  - intros [= <-]. by exists [].
  - destruct (resolved pg w (va_expt_id pt)) as [config|]; [|done].
    intros (t & -> & ->)%IH. by eexists.
Qed.

Lemma collect_points_outcome pg pts : ∀ d w,
  fst (fold_each pts (collect_point pg) d w) = accumulate_points pg w pts d.
Proof.
  induction pts as [|pt pts IH]; intros d w; simpl; [done|].
  unfold bind.
  destruct (collect_point_spec pg d pt w) as (w1 & Hl1 & _ & _ & ->).
  destruct (resolved pg w (va_expt_id pt)) as [config|]; [|done].
  by rewrite IH, (accumulate_points_later _ _ _ _ Hl1).
Qed.

Lemma do_collect_ssim_outcome pg win d w :
  fst (do_collect_ssim pg win d w) = accumulate_points pg w (points win) d.
Proof.
  unfold do_collect_ssim, bind.
  set (w0 := snd (write_stderr (Processing "video_acked" (s_str win) (e_str win)) w)).
  assert (later pg w w0) as Hl0 by apply steady_write_stderr.
  change (write_stderr (Processing "video_acked" (s_str win) (e_str win)) w)
    with (Return tt, w0).
  cbv beta iota.
  by rewrite collect_points_outcome, (accumulate_points_later _ _ _ _ Hl0).
Qed.

(** The windows only cut the sequence of points into pages. *)
Lemma accumulate_windows_outcome pg (windows : list (Window (VideoAcked num))) :
  ∀ d w,
  fst (fold_each windows (λ d win, do_collect_ssim pg win d) d w)
  = accumulate_points pg w (all_points windows) d.
Proof.
  induction windows as [|win windows IH]; intros d w; [done|].
  unfold all_points. simpl. rewrite accumulate_points_app.
  fold (all_points windows). unfold bind.
  pose proof (do_collect_ssim_outcome pg win d w) as Hwin.
  pose proof (steady_do_collect_ssim pg win d w) as Hl.
  destruct (do_collect_ssim pg win d w) as [[d1|e] w1]; simpl in *.
  - by rewrite <- Hwin, IH, (accumulate_points_later _ _ _ _ Hl).
  - by rewrite <- Hwin.
Qed.

(** One line per window, and nothing else, while the points resolve. *)
Lemma accumulate_windows_stderr pg (windows : list (Window (VideoAcked num))) :
  ∀ d w d' w',
  fold_each windows (λ d win, do_collect_ssim pg win d) d w = (Return d', w') →
  stderr w' = rev (processing "video_acked" windows) ++ stderr w.
Proof.
  induction windows as [|win windows IH]; intros d w d' w'; simpl.
  - by intros [= _ <-].
  - unfold bind, do_collect_ssim at 1, bind.
    set (w0 := snd (write_stderr (Processing "video_acked" (s_str win) (e_str win)) w)).
    change (write_stderr (Processing "video_acked" (s_str win) (e_str win)) w)
      with (Return tt, w0).
    destruct (collect_points_spec pg (points win) d w0) as (w1 & _ & Hs1 & _ & Hrun1).
    destruct (tag pg w0 (points win)) as [t1|].
    2:{ destruct Hrun1 as [e ->]. done. }
    rewrite Hrun1. intros Hrest. rewrite (IH _ _ _ _ Hrest), Hs1.
    unfold w0; simpl. by rewrite <- app_assoc.
Qed.

Lemma gains_indices (tagged : list (SchemeKey * VideoAcked num)) :
  foldr (λ kx total, (match get_ssim_index (snd kx) with
                      | Some _ => 1
                      | None => 0
                      end + total)%Z) 0%Z tagged
  = Z.of_nat (length (indices (map snd tagged))).
Proof.
  induction tagged as [|[k pt] tagged IH]; simpl; [done|].
  rewrite IH. destruct (get_ssim_index pt); simpl; lia.
Qed.

Lemma account_counts (tagged : list (SchemeKey * VideoAcked num)) d :
  weigh snd (fold_left account tagged d)
  = (weigh snd d + Z.of_nat (length (indices (map snd tagged))))%Z.
Proof.
  rewrite <- gains_indices.
  apply (weigh_group_fold snd (of_int 0, 0%Z) ssim_step
           (λ pt, match get_ssim_index pt with Some _ => 1 | None => 0 end)%Z);
    [done|].
  intros pt [s c]. unfold ssim_step. destruct (get_ssim_index pt); simpl; lia.
Qed.

Lemma accumulate_ssim_returns pg windows w d w1 :
  accumulate_ssim pg windows w = (Return d, w1) →
  ∃ tagged, tag pg w (all_points windows) = Some tagged
            ∧ d = fold_left account tagged [].
Proof.
  intros Hacc. apply accumulate_points_returns.
  unfold accumulate_ssim in Hacc.
  by rewrite <- accumulate_windows_outcome, Hacc.
Qed.
End SsimOutcome.

Section CollectSsimOutcome.
Context {num : Type} `{Arith num} `{DbScale num} `{SsimIndex num}.
Implicit Types (w : World num) (pg : MetadataStore).

Lemma collect_ssim_outcome pg windows w :
  fst (collect_ssim pg windows w)
  = match accumulate_points pg w (all_points windows) [] with
    | Return d => Return (map (λ item, (fst item, ssim_average (snd item))) d)
    | Raise e => Raise e
    end.
Proof.
  pose proof (accumulate_windows_outcome pg windows [] w) as Hout.
  fold (accumulate_ssim pg windows) in Hout. rewrite <- Hout.
  unfold collect_ssim, bind.
  destruct (accumulate_ssim pg windows w) as [[d|e] w1]; simpl; [|done].
  by rewrite average_all.
Qed.

Lemma collect_ssim_returns pg windows w ssim w2 :
  collect_ssim pg windows w = (Return ssim, w2) →
  ∃ d w1, accumulate_ssim pg windows w = (Return d, w1)
          ∧ ssim = map (λ item, (fst item, ssim_average (snd item))) d
          ∧ w2 = say (no_ssim_data d) w1.
Proof.
  unfold collect_ssim, bind.
  destruct (accumulate_ssim pg windows w) as [[d|e] w1]; [|done].
  rewrite average_all. intros [= <- <-]. by exists d, w1.
Qed.
End CollectSsimOutcome.

(** X1.  The outcome of [collect_ssim] depends on the points only through
    their sequence: however [datetime_iter] cuts the queried range into
    windows, the same points in the same order give the same mapping, or
    the same failure. *)
Theorem collect_ssim_pages {num} `{Arith num} `{DbScale num} `{SsimIndex num}
    (pg : MetadataStore) (ws1 ws2 : list (Window (VideoAcked num))) (w : World num) :
  all_points ws1 = all_points ws2 →
  fst (accumulate_ssim pg ws1 w) = fst (accumulate_ssim pg ws2 w)
  ∧ fst (collect_ssim pg ws1 w) = fst (collect_ssim pg ws2 w).
Proof.
  intros Hpts. split.
  - unfold accumulate_ssim. by rewrite !accumulate_windows_outcome, Hpts.
  - by rewrite !collect_ssim_outcome, Hpts.
Qed.

Lemma collect_ssim_pages_witness :
  all_points [two_indices] = all_points two_indices_pages
  ∧ fst (collect_ssim example_store [two_indices] fresh_world)
    = fst (collect_ssim example_store two_indices_pages fresh_world).
Proof.
  split; [reflexivity|].
  exact (proj2 (collect_ssim_pages example_store [two_indices] two_indices_pages
                  fresh_world eq_refl)).
Defined.

(** X2.  [do_collect_ssim] has no handler around the resolution of a
    point's experiment: the first point whose experiment does not resolve
    ends [collect_ssim] with that failure, whatever follows it, and no
    average is reported. *)
Theorem collect_ssim_stops_at_unresolved {num} `{Arith num} `{DbScale num}
    `{SsimIndex num} (pg : MetadataStore) (windows : list (Window (VideoAcked num)))
    (w : World num) (before after : list (VideoAcked num)) (pt : VideoAcked num)
    (tagged : list (SchemeKey * VideoAcked num)) :
  all_points windows = before ++ pt :: after →
  tag_all va_expt_id get_abr_cc pg w before = Some tagged →
  resolved pg w (va_expt_id pt) = None →
  fst (collect_ssim pg windows w) = Raise (ConfigResolutionError (va_expt_id pt)).
Proof.
  intros Hpts Hbefore Hpt.
  rewrite collect_ssim_outcome, Hpts, accumulate_points_app.
  rewrite (accumulate_points_tagged _ _ _ _ _ Hbefore). simpl. by rewrite Hpt.
Qed.

Lemma collect_ssim_stops_at_unresolved_witness :
  resolved (num:=R) example_store fresh_world "3" = None
  ∧ fst (collect_ssim example_store [window_unknown] fresh_world)
    = Raise (ConfigResolutionError "3").
Proof.
  split; [reflexivity|].
  exact (collect_ssim_stops_at_unresolved example_store [window_unknown] fresh_world
           [{| va_expt_id := "1"; va_ssim_index := None |}]
           [{| va_expt_id := "2"; va_ssim_index := None |}]
           {| va_expt_id := "3"; va_ssim_index := None |}
           _ eq_refl eq_refl eq_refl).
Defined.

(** X3.  The mapping [collect_ssim] returns has one entry per scheme met
    among the points, in order of first appearance, a point without SSIM
    index counting as much as any other; it is empty only when the query
    returned no point at all. *)
Theorem collect_ssim_keys {num} `{Arith num} `{DbScale num} `{SsimIndex num}
    (pg : MetadataStore) (windows : list (Window (VideoAcked num)))
    (w w2 : World num) (ssim : odict SchemeKey (ssim_entry num)) :
  collect_ssim pg windows w = (Return ssim, w2) →
  ∃ tagged,
    tag_all va_expt_id get_abr_cc pg w (all_points windows) = Some tagged
    ∧ okeys ssim = first_seen (map fst tagged)
    ∧ NoDup (okeys ssim)
    ∧ (∀ k, k ∈ okeys ssim ↔ k ∈ map fst tagged)
    ∧ (ssim = [] ↔ all_points windows = []).
Proof.
  intros (d & w1 & Hacc & -> & _)%collect_ssim_returns.
  destruct (accumulate_ssim_returns pg windows w d w1 Hacc) as (tagged & Htag & ->).
  exists tagged. split; [done|].
  assert (okeys (map (λ item : SchemeKey * (num * Z),
                        (fst item, ssim_average (snd item)))
                   (fold_left (group_step (of_int 0, 0%Z) ssim_step) tagged []))
          = first_seen (map fst tagged)) as Hkeys.
  { unfold okeys. rewrite map_map. simpl.
    apply (okeys_group_fold (of_int 0, 0%Z) ssim_step tagged []). }
  rewrite Hkeys. split; [done|]. split; [apply NoDup_first_seen|].
  split; [exact (elem_of_first_seen (map fst tagged))|].
  rewrite <- (tag_all_items _ _ _ _ _ _ Htag).
  split.
  - intros Hnil. rewrite Hnil in Hkeys. symmetry in Hkeys.
    apply (proj1 (first_seen_nil _)), map_eq_nil in Hkeys. by subst tagged.
  - intros Hnil. apply map_eq_nil in Hnil. by subst tagged.
Qed.

Lemma collect_ssim_keys_witness :
  ∃ ssim w2,
    collect_ssim example_store [silent_window] fresh_world = (Return ssim, w2)
    ∧ okeys ssim = [cubic].
Proof.
  assert (collect_ssim example_store [silent_window] fresh_world
          = (Return [(cubic, SumCount 0%R 0%Z)],
             snd (collect_ssim example_store [silent_window] fresh_world)))
    as Hrun by reflexivity.
  eexists _, _. split; [exact Hrun|].
  destruct (collect_ssim_keys example_store [silent_window] fresh_world _ _ Hrun)
    as (tagged & Htag & Hkeys & _).
  injection Htag as <-. exact Hkeys.
Defined.

(** X4.  The counts of all schemes add up to the number of points that
    carry an SSIM index: [do_collect_ssim] counts every such point once,
    for one scheme, and no count is negative. *)
Theorem accumulate_ssim_counts {num} `{Arith num} `{SsimIndex num}
    (pg : MetadataStore) (windows : list (Window (VideoAcked num)))
    (w w1 : World num) (d : odict SchemeKey (num * Z)) :
  accumulate_ssim pg windows w = (Return d, w1) →
  weigh snd d = Z.of_nat (length (indices (all_points windows)))
  ∧ ∀ k sum count, oget k d = Some (sum, count) → (0 ≤ count)%Z.
Proof.
  intros Hacc. split.
  - destruct (accumulate_ssim_returns pg windows w d w1 Hacc) as (tagged & Htag & ->).
    rewrite account_counts. simpl.
    by rewrite (tag_all_items _ _ _ _ _ _ Htag).
  - intros k sum count Hget.
    destruct (accumulate_ssim_lookup pg windows w d w1 Hacc) as (tagged & _ & _ & Hd).
    rewrite Hd in Hget. destruct (of_scheme k tagged) as [|pt pts]; [done|].
    cbv zeta in Hget. injection Hget as _ <-. lia.
Qed.

Lemma accumulate_ssim_counts_witness :
  ∃ d w1,
    accumulate_ssim example_store [ascending] fresh_world = (Return d, w1)
    ∧ weigh snd d = 3%Z.
Proof.
  assert (accumulate_ssim example_store [ascending] fresh_world
          = (Return [(bbr, (0.6000000000000001%float, 3%Z))],
             snd (accumulate_ssim example_store [ascending] fresh_world)))
    as Hacc by reflexivity.
  eexists _, _. split; [exact Hacc|].
  exact (proj1 (accumulate_ssim_counts example_store [ascending] fresh_world _ _ Hacc)).
Defined.

(** X5.  What a successful [collect_ssim] writes to stderr: one
    "Processing" line per window, in order, then one warning per scheme
    without SSIM data, in the order of the mapping; nothing else. *)
Theorem collect_ssim_log {num} `{Arith num} `{DbScale num} `{SsimIndex num}
    (pg : MetadataStore) (windows : list (Window (VideoAcked num)))
    (w w2 : World num) (ssim : odict SchemeKey (ssim_entry num)) :
  collect_ssim pg windows w = (Return ssim, w2) →
  stderr w2
  = rev (processing "video_acked" windows
         ++ map (λ item, WarnNoSsim (fst item))
              (List.filter (λ item, match snd item with
                                    | SumCount _ _ => true
                                    | AvgDb _ => false
                                    end) ssim))
    ++ stderr w.
Proof.
  intros (d & w1 & Hacc & -> & ->)%collect_ssim_returns.
  unfold accumulate_ssim in Hacc.
  apply accumulate_windows_stderr in Hacc. simpl. rewrite Hacc.
  rewrite rev_app_distr, <- app_assoc. f_equal. f_equal.
  unfold no_ssim_data. clear Hacc.
  induction d as [|[k [s c]] d IH]; simpl; [done|].
  unfold ssim_average at 1. simpl.
  destruct (c =? 0)%Z; simpl; by rewrite IH.
Qed.

Lemma collect_ssim_log_witness :
  ∃ ssim w2,
    collect_ssim example_store [silent_window] fresh_world = (Return ssim, w2)
    ∧ stderr w2
      = [WarnNoSsim cubic;
         Processing "video_acked" "2019-01-01T11:00:00Z" "2019-01-02T11:00:00Z"].
Proof.
  assert (collect_ssim example_store [silent_window] fresh_world
          = (Return [(cubic, SumCount 0%R 0%Z)],
             snd (collect_ssim example_store [silent_window] fresh_world)))
    as Hrun by reflexivity.
  eexists _, _. split; [exact Hrun|].
  exact (collect_ssim_log example_store [silent_window] fresh_world _ _ Hrun).
Defined.

(** X6.  [main] exits with "no data found" exactly when the [video_acked]
    query returned no point or the rebuffer mapping is empty, and the two
    collections have drawn nothing by then; otherwise it goes on to
    [plot_ssim_rebuffer] with what they returned. *)
Theorem report_no_data {num} `{Arith num} `{DbScale num} `{SsimIndex num}
    (output : string) (pg : MetadataStore) (minutes : Session → Z)
    (video_acked : list (Window (VideoAcked num)))
    (client_buffer : list (Window Sample)) (w w1 w2 : World num)
    (ssim : odict SchemeKey (ssim_entry num))
    (rebuffer : gmap SchemeKey AggregateRecord) :
  collect_ssim pg video_acked w = (Return ssim, w1) →
  collect_rebuffer pg minutes client_buffer w1 = (Return rebuffer, w2) →
  plots w2 = plots w
  ∧ (all_points video_acked = [] ∨ rebuffer = ∅ →
     report output pg minutes video_acked client_buffer w = (Raise ExitNoData, w2))
  ∧ (all_points video_acked ≠ [] → rebuffer ≠ ∅ →
     report output pg minutes video_acked client_buffer w
     = plot_ssim_rebuffer output ssim rebuffer w2).
Proof.
  intros Hssim Hreb.
  assert (ssim = [] ↔ all_points video_acked = []) as Hempty.
  { destruct (collect_ssim_returns _ _ _ _ _ Hssim) as (d & w0 & Hacc & -> & _).
    destruct (accumulate_ssim_returns pg video_acked w d w0 Hacc)
      as (tagged & Htag & ->).
    rewrite <- (tag_all_items _ _ _ _ _ _ Htag).
    destruct tagged as [|kx tagged]; [done|].
    split; [|done]. intros Hnil. exfalso.
    assert (fst kx ∈ okeys (fold_left (group_step (of_int 0, 0%Z) ssim_step)
                              (kx :: tagged) [])) as Hin.
    { rewrite okeys_group_fold. apply elem_of_note_keys. right. simpl. left. }
    apply map_eq_nil in Hnil. rewrite Hnil in Hin. by apply elem_of_nil in Hin. }
  split.
  { pose proof (quiet_collect_ssim pg video_acked w) as Hq1.
    pose proof (quiet_collect_rebuffer pg minutes client_buffer w1) as Hq2.
    rewrite Hssim in Hq1. rewrite Hreb in Hq2. simpl in *. congruence. }
  unfold report, bind. rewrite Hssim, Hreb. split.
  - intros [Hnone%Hempty | ->].
    + by rewrite (bool_decide_eq_true_2 _ Hnone).
    + rewrite (bool_decide_eq_true_2 (∅ = ∅)) by done. by rewrite orb_true_r.
  - intros Hsome Hreb'.
    rewrite !bool_decide_eq_false_2; [done|done|]. by rewrite Hempty.
Qed.

Lemma report_no_data_witness :
  ∃ ssim w1 w2,
    collect_ssim example_store [silent_window] fresh_world = (Return ssim, w1)
    ∧ collect_rebuffer example_store (λ _, 0%Z) [] w1 = (Return ∅, w2)
    ∧ report "out.png" example_store (λ _, 0%Z) [silent_window] [] fresh_world
      = (Raise ExitNoData, w2).
Proof.
  assert (collect_ssim example_store [silent_window] fresh_world
          = (Return [(cubic, SumCount 0%R 0%Z)],
             snd (collect_ssim example_store [silent_window] fresh_world)))
    as Hssim by reflexivity.
  assert (collect_rebuffer example_store (λ _, 0%Z) []
            (snd (collect_ssim example_store [silent_window] fresh_world))
          = (Return ∅, snd (collect_ssim example_store [silent_window] fresh_world)))
    as Hreb by reflexivity.
  eexists _, _, _. split; [exact Hssim|]. split; [exact Hreb|].
  exact (proj1 (proj2 (report_no_data "out.png" example_store (λ _, 0%Z)
                         [silent_window] [] fresh_world _ _ _ _ Hssim Hreb))
           (or_intror eq_refl)).
Defined.

(* ===================================================================== *)
(** * The series of [plot_ssim] *)
(* ===================================================================== *)

Section PlotSsimSeries.
Context {num : Type} `{Arith num} `{DbScale num}.
Variable VIDEO_DURATION : Z.
Implicit Types (w : World num) (pg : MetadataStore) (ds : odict Z (Dsv num))
  (acc : odict string (list num) * odict string (list num)).

Local Abbreviation tag :=
  (tag_all (λ item : VideoSession * odict Z (Dsv num), session_3 (fst item))
     congestion_control).
Local Abbreviation chunks := (plot_ssim_chunks VIDEO_DURATION).

Lemma plot_ssim_session_spec pg acc (item : VideoSession * odict Z (Dsv num)) w :
  ∃ w', later pg w w' ∧ stderr w' = stderr w ∧ plots w' = plots w
        ∧ plot_ssim_session VIDEO_DURATION pg acc item w
          = (match resolved pg w (session_3 (fst item)) with
             | Some config => Return (chunks acc (congestion_control config, item))
             | None => Raise (ConfigResolutionError (session_3 (fst item)))
             end, w').
Proof.
  unfold plot_ssim_session, bind.
  destruct (retrieve_expt_config_spec pg (session_3 (fst item)) w)
    as (w' & -> & Hl & Hs & Hp).
  exists w'. do 3 (split; [done|]).
  by destruct (resolved pg w (session_3 (fst item))).
Qed.

Lemma plot_ssim_loop pg (d : odict VideoSession (odict Z (Dsv num))) : ∀ acc w,
  ∃ w', later pg w w' ∧ stderr w' = stderr w ∧ plots w' = plots w
        ∧ match tag pg w d with
          | Some tagged =>
              fold_each d (plot_ssim_session VIDEO_DURATION pg) acc w
              = (Return (fold_left chunks tagged acc), w')
          | None =>
              ∃ e, fold_each d (plot_ssim_session VIDEO_DURATION pg) acc w
                   = (Raise e, w')
          end.
Proof.
  induction d as [|item d IH]; intros acc w; simpl.
  - exists w. split; [apply later_refl | done].
  - unfold bind.
    destruct (plot_ssim_session_spec pg acc item w) as (w1 & Hl1 & Hs1 & Hp1 & ->).
    destruct (resolved pg w (session_3 (fst item))) as [config|].
    2:{ exists w1. do 3 (split; [done|]). by eexists. }
    destruct (IH (chunks acc (congestion_control config, item)) w1)
      as (w2 & Hl2 & Hs2 & Hp2 & Hrun).
    rewrite (tag_all_later _ _ _ _ _ _ Hl1) in Hrun.
    exists w2. split; [by eapply later_trans|].
    split; [congruence|]. split; [congruence|].
    by destruct (tag pg w d).
Qed.

Lemma fmap_app_nil (o : option (list num)) : (λ l, l ++ []) <$> o = o.
Proof. destruct o as [l|]; simpl; [|done]. by rewrite app_nil_r. Qed.

Lemma fmap_app_app (o : option (list num)) (l1 l2 : list num) :
  (λ l, l ++ l2) <$> ((λ l, l ++ l1) <$> o) = (λ l, l ++ (l1 ++ l2)) <$> o.
Proof. destruct o as [l|]; simpl; [|done]. by rewrite app_assoc. Qed.

(** One chunk: the keys stay, and only the series of [cc] grow. *)
Lemma plot_ssim_video_lookup cc ds acc (entry : Z * Dsv num) :
  okeys (fst (plot_ssim_video VIDEO_DURATION cc ds acc entry)) = okeys (fst acc)
  ∧ okeys (snd (plot_ssim_video VIDEO_DURATION cc ds acc entry)) = okeys (snd acc)
  ∧ (∀ k, oget k (fst (plot_ssim_video VIDEO_DURATION cc ds acc entry))
          = if decide (k = cc)
            then (λ l, l ++ chunk_ssim entry) <$> oget cc (fst acc)
            else oget k (fst acc))
  ∧ (∀ k, oget k (snd (plot_ssim_video VIDEO_DURATION cc ds acc entry))
          = if decide (k = cc)
            then (λ l, l ++ chunk_variation VIDEO_DURATION ds entry)
                 <$> oget cc (snd acc)
            else oget k (snd acc)).
Proof.
  assert (∀ (x : list num) (data : odict string (list num)) k,
            oget k (oupdate cc (λ l, l ++ x) data)
            = if decide (k = cc) then (λ l, l ++ x) <$> oget cc data
              else oget k data) as Happend.
  { intros x data k. destruct (decide (k = cc)) as [->|Hne].
    - apply oget_oupdate_eq.
    - by apply oget_oupdate_ne. }
  assert (∀ (data : odict string (list num)) k,
            oget k data
            = if decide (k = cc) then (λ l, l ++ []) <$> oget cc data
              else oget k data) as Hsame.
  { intros data k. destruct (decide (k = cc)) as [->|Hne]; [|done].
    by rewrite fmap_app_nil. }
  unfold plot_ssim_video, chunk_ssim, chunk_variation, perfect_dsv, append_to.
  destruct (num_eqb (ssim_index (snd entry)) (of_int 1)); [done|].
  destruct (oget (fst entry - VIDEO_DURATION)%Z ds) as [prev|]; simpl.
  - destruct (num_eqb (ssim_index prev) (of_int 1)); simpl;
      rewrite ?okeys_oupdate; done.
  - rewrite okeys_oupdate. done.
Qed.

(** All chunks of a session. *)
Lemma plot_ssim_videos_lookup cc ds (entries : odict Z (Dsv num)) : ∀ acc,
  okeys (fst (fold_left (plot_ssim_video VIDEO_DURATION cc ds) entries acc))
  = okeys (fst acc)
  ∧ okeys (snd (fold_left (plot_ssim_video VIDEO_DURATION cc ds) entries acc))
    = okeys (snd acc)
  ∧ (∀ k, oget k (fst (fold_left (plot_ssim_video VIDEO_DURATION cc ds) entries acc))
          = if decide (k = cc)
            then (λ l, l ++ flat_map chunk_ssim entries) <$> oget cc (fst acc)
            else oget k (fst acc))
  ∧ (∀ k, oget k (snd (fold_left (plot_ssim_video VIDEO_DURATION cc ds) entries acc))
          = if decide (k = cc)
            then (λ l, l ++ flat_map (chunk_variation VIDEO_DURATION ds) entries)
                 <$> oget cc (snd acc)
            else oget k (snd acc)).
Proof.
  induction entries as [|entry entries IH]; intros acc; simpl.
  - do 2 (split; [done|]).
    split; intros k; destruct (decide (k = cc)) as [->|]; by rewrite ?fmap_app_nil.
  - destruct (IH (plot_ssim_video VIDEO_DURATION cc ds acc entry))
      as (Hk1 & Hk2 & Hg1 & Hg2).
    destruct (plot_ssim_video_lookup cc ds acc entry) as (Hk1' & Hk2' & Hg1' & Hg2').
    split; [congruence|]. split; [congruence|].
    split; intros k.
    + rewrite Hg1. destruct (decide (k = cc)) as [->|Hne].
      * rewrite Hg1'. destruct (decide (cc = cc)); [|done]. apply fmap_app_app.
      * rewrite Hg1'. by destruct (decide (k = cc)).
    + rewrite Hg2. destruct (decide (k = cc)) as [->|Hne].
      * rewrite Hg2'. destruct (decide (cc = cc)); [|done]. apply fmap_app_app.
      * rewrite Hg2'. by destruct (decide (k = cc)).
Qed.

(** One session: both dictionaries get the key of its cc, and its chunks'
    values go to the series of that cc. *)
Lemma plot_ssim_chunks_lookup acc cc (item : VideoSession * odict Z (Dsv num)) :
  okeys (fst acc) = okeys (snd acc) →
  okeys (fst (chunks acc (cc, item))) = note_key (okeys (fst acc)) cc
  ∧ okeys (snd (chunks acc (cc, item))) = note_key (okeys (fst acc)) cc
  ∧ (∀ k, oget k (fst (chunks acc (cc, item)))
          = if decide (k = cc)
            then Some (default [] (oget cc (fst acc)) ++ session_ssim item)
            else oget k (fst acc))
  ∧ (∀ k, oget k (snd (chunks acc (cc, item)))
          = if decide (k = cc)
            then Some (default [] (oget cc (snd acc))
                       ++ session_variation VIDEO_DURATION item)
            else oget k (snd acc)).
Proof.
  intros Hkeys. unfold plot_ssim_chunks, session_ssim, session_variation. simpl.
  destruct (ocontains cc (fst acc)) eqn:Hin.
  - destruct (plot_ssim_videos_lookup cc (snd item) (snd item) acc)
      as (Hk1 & Hk2 & Hg1 & Hg2).
    apply ocontains_keys in Hin.
    assert (is_Some (oget cc (fst acc))) as [l1 Hl1].
    { by apply ocontains_true, ocontains_keys. }
    assert (is_Some (oget cc (snd acc))) as [l2 Hl2].
    { apply ocontains_true, ocontains_keys. by rewrite <- Hkeys. }
    unfold note_key. destruct (decide (cc ∈ okeys (fst acc))); [|done].
    split; [done|]. split; [congruence|].
    split; intros k.
    + rewrite Hg1, Hl1. done.
    + rewrite Hg2, Hl2. done.
  - destruct (plot_ssim_videos_lookup cc (snd item) (snd item)
                (oset cc [] (fst acc), oset cc [] (snd acc)))
      as (Hk1 & Hk2 & Hg1 & Hg2).
    simpl in *.
    assert (cc ∉ okeys (fst acc)) as Hnot1.
    { intros Hcc%ocontains_keys. congruence. }
    assert (oget cc (fst acc) = None) as Hn1 by (by apply oget_None_keys).
    assert (oget cc (snd acc) = None) as Hn2.
    { apply oget_None_keys. by rewrite <- Hkeys. }
    rewrite Hk1, Hk2, !okeys_oset, <- Hkeys. do 2 (split; [done|]).
    split; intros k.
    + rewrite Hg1, oget_oset_eq, Hn1. simpl.
      destruct (decide (k = cc)) as [->|Hne]; [done|].
      by rewrite oget_oset_ne.
    + rewrite Hg2, oget_oset_eq, Hn2. simpl.
      destruct (decide (k = cc)) as [->|Hne]; [done|].
      by rewrite oget_oset_ne.
Qed.

Lemma of_scheme_cons {K} `{EqDecision K} {X} (k k' : K) (x : X) (tagged : list (K * X)) :
  of_scheme k ((k', x) :: tagged)
  = if decide (k = k') then x :: of_scheme k tagged else of_scheme k tagged.
Proof.
  unfold of_scheme. simpl. destruct (decide (k = k')) as [->|Hne].
  - by rewrite bool_decide_eq_true_2.
  - rewrite bool_decide_eq_false_2; [done|]. by intros ->.
Qed.

Lemma of_scheme_absent {K} `{EqDecision K} {X} (k : K) (tagged : list (K * X)) :
  k ∉ map fst tagged → of_scheme k tagged = [].
Proof.
  induction tagged as [|[k' x] tagged IH]; simpl; [done|].
  intros [Hne Hnot]%not_elem_of_cons. rewrite of_scheme_cons.
  destruct (decide (k = k')); [done|]. by apply IH.
Qed.

(** Where a series stands after some more sessions, each adding [g] of
    itself to the series of its cc. *)
Lemma series_grow {X} (g : X → list num) (before after : option (list num))
    (k cc : string) (x : X) (tagged : list (string * X)) :
  after = (if decide (k = cc) then Some (default [] before ++ g x) else before) →
  (if decide (k ∈ map fst tagged)
   then Some (default [] after ++ flat_map g (of_scheme k tagged))
   else after)
  = (if decide (k ∈ map fst ((cc, x) :: tagged))
     then Some (default [] before ++ flat_map g (of_scheme k ((cc, x) :: tagged)))
     else before).
Proof.
  intros ->. rewrite of_scheme_cons. simpl.
  destruct (decide (k = cc)) as [->|Hne].
  - rewrite (decide_True (P := cc ∈ cc :: map fst tagged)) by left. simpl.
    destruct (decide (cc ∈ map fst tagged)) as [Hin|Hnot].
    + by rewrite <- app_assoc.
    + by rewrite (of_scheme_absent _ _ Hnot), app_nil_r.
  - destruct (decide (k ∈ map fst tagged)) as [Hin|Hnot].
    + by rewrite (decide_True (P := k ∈ cc :: map fst tagged)) by (by right).
    + rewrite (decide_False (P := k ∈ cc :: map fst tagged)); [done|].
      by intros [?|?]%elem_of_cons.
Qed.

(** All sessions. *)
Lemma plot_ssim_chunks_fold
    (tagged : list (string * (VideoSession * odict Z (Dsv num)))) : ∀ acc,
  okeys (fst acc) = okeys (snd acc) →
  okeys (fst (fold_left chunks tagged acc))
  = fold_left note_key (map fst tagged) (okeys (fst acc))
  ∧ okeys (snd (fold_left chunks tagged acc))
    = okeys (fst (fold_left chunks tagged acc))
  ∧ (∀ k, oget k (fst (fold_left chunks tagged acc))
          = if decide (k ∈ map fst tagged)
            then Some (default [] (oget k (fst acc))
                       ++ flat_map session_ssim (of_scheme k tagged))
            else oget k (fst acc))
  ∧ (∀ k, oget k (snd (fold_left chunks tagged acc))
          = if decide (k ∈ map fst tagged)
            then Some (default [] (oget k (snd acc))
                       ++ flat_map (session_variation VIDEO_DURATION)
                            (of_scheme k tagged))
            else oget k (snd acc)).
Proof.
  induction tagged as [|[cc item] tagged IH]; intros acc Hkeys.
  - done.
  - destruct (plot_ssim_chunks_lookup acc cc item Hkeys) as (Hk1 & Hk2 & Hg1 & Hg2).
    destruct (IH (chunks acc (cc, item))) as (Hf1 & Hf2 & Hl1 & Hl2); [congruence|].
    change (fold_left chunks ((cc, item) :: tagged) acc)
      with (fold_left chunks tagged (chunks acc (cc, item))).
    split; [by rewrite Hf1, Hk1|]. split; [done|].
    split; intros k.
    + rewrite Hl1. apply series_grow. rewrite Hg1.
      by destruct (decide (k = cc)) as [->|].
    + rewrite Hl2. apply series_grow. rewrite Hg2.
      by destruct (decide (k = cc)) as [->|].
Qed.

Lemma flat_map_shorter {A B C} (f : A → list B) (g : A → list C) (l : list A) :
  (∀ y, length (f y) ≤ length (g y)) →
  length (flat_map f l) ≤ length (flat_map g l).
Proof.
  intros Hle. induction l as [|a l IH]; simpl; [done|].
  rewrite !length_app. specialize (Hle a). lia.
Qed.

Lemma chunk_variation_length ds (entry : Z * Dsv num) :
  length (chunk_variation VIDEO_DURATION ds entry) ≤ length (chunk_ssim entry).
Proof.
  unfold chunk_variation, chunk_ssim.
  destruct (perfect_dsv entry); [done|].
  destruct (oget (fst entry - VIDEO_DURATION)%Z ds) as [prev|]; simpl; [|lia].
  destruct (num_eqb (ssim_index prev) (of_int 1)); simpl; lia.
Qed.

(** The variation series of a session is never longer than its SSIM
    series. *)
Lemma session_variation_length (item : VideoSession * odict Z (Dsv num)) :
  length (session_variation VIDEO_DURATION item) ≤ length (session_ssim item).
Proof. apply flat_map_shorter, chunk_variation_length. Qed.

Lemma sessions_variation_length (items : list (VideoSession * odict Z (Dsv num))) :
  length (flat_map (session_variation VIDEO_DURATION) items)
  ≤ length (flat_map session_ssim items).
Proof. apply flat_map_shorter, session_variation_length. Qed.

(** A session whose chunks all have index 1 adds nothing. *)
Lemma session_ssim_perfect (item : VideoSession * odict Z (Dsv num)) :
  Forall (λ entry, perfect_dsv entry = true) (snd item) →
  session_ssim item = [] ∧ session_variation VIDEO_DURATION item = [].
Proof.
  unfold session_variation, session_ssim.
  generalize (snd item) at 3 as ds.
  induction 1 as [|entry entries Hentry _ IH]; intros; simpl; [done|].
  destruct IH as [-> ->]. unfold chunk_ssim, chunk_variation.
  by rewrite Hentry.
Qed.

(** [plot_ssim], its sessions resolved: the two series dictionaries go to
    the two CDF plots. *)
Lemma plot_ssim_resolved pg (d : odict VideoSession (odict Z (Dsv num))) w tagged :
  tag pg w d = Some tagged →
  ∃ w', later pg w w'
        ∧ plot_ssim VIDEO_DURATION pg d w = (Return tt, w')
        ∧ plots w' = ssim_cdf (fold_left chunks tagged ([], [])) ++ plots w
        ∧ stderr w' = [SavedPlot "bbr_cubic_ssim_var_cdf.png";
                       SavedPlot "bbr_cubic_ssim_cdf.png"] ++ stderr w.
Proof.
  intros Htag.
  destruct (plot_ssim_loop pg d ([], []) w) as (w1 & Hl1 & Hs1 & Hp1 & Hrun).
  rewrite Htag in Hrun.
  pose proof (steady_plot_ssim pg VIDEO_DURATION d w) as Hl.
  unfold plot_ssim, bind in *. rewrite Hrun in *. simpl in *.
  eexists. split; [exact Hl|]. split; [done|]. simpl. by rewrite Hp1, Hs1.
Qed.

Lemma plot_ssim_unresolved pg (d : odict VideoSession (odict Z (Dsv num))) w :
  tag pg w d = None →
  ∃ e w', plot_ssim VIDEO_DURATION pg d w = (Raise e, w')
          ∧ later pg w w' ∧ plots w' = plots w ∧ stderr w' = stderr w.
Proof.
  intros Htag.
  destruct (plot_ssim_loop pg d ([], []) w) as (w1 & Hl1 & Hs1 & Hp1 & Hrun).
  rewrite Htag in Hrun. destruct Hrun as [e Hrun].
  exists e, w1. unfold plot_ssim, bind. by rewrite Hrun.
Qed.

(** An element of a non-empty list that is least for [m]. *)
Lemma least_element {A} (m : A → Z) (l : list A) :
  l ≠ [] → ∃ x, x ∈ l ∧ ∀ y, y ∈ l → (m x ≤ m y)%Z.
Proof.
  induction l as [|a l IH]; [done|]. intros _.
  destruct l as [|b l].
  { exists a. split; [left|]. intros y ->%list_elem_of_singleton. lia. }
  destruct IH as (x & Hx & Hleast); [done|].
  destruct (decide (m a ≤ m x)%Z) as [Hle|Hgt].
  - exists a. split; [left|]. intros y [->|Hy]%elem_of_cons; [lia|].
    specialize (Hleast y Hy). lia.
  - exists x. split; [by right|]. intros y [->|Hy]%elem_of_cons; [lia|].
    by apply Hleast.
Qed.

Lemma flat_map_strictly_shorter {A B C} (f : A → list B) (g : A → list C)
    (l : list A) (x : A) :
  (∀ y, length (f y) ≤ length (g y)) → x ∈ l → length (f x) < length (g x) →
  length (flat_map f l) < length (flat_map g l).
Proof.
  intros Hle Hx Hlt. induction l as [|a l IH]; simpl.
  - by apply elem_of_nil in Hx.
  - rewrite !length_app. apply elem_of_cons in Hx as [<-|Hx].
    + pose proof (flat_map_shorter f g l Hle). lia.
    + specialize (IH Hx). specialize (Hle a). lia.
Qed.

(** With a non-zero chunk duration, the chunk of a session that comes
    first (last, when the duration is negative) among those with an index
    other than 1 has no predecessor to differ from. *)
Lemma session_variation_fewer (item : VideoSession * odict Z (Dsv num)) :
  VIDEO_DURATION ≠ 0%Z → session_ssim item ≠ [] →
  length (session_variation VIDEO_DURATION item) < length (session_ssim item).
Proof.
  intros Hduration Hdata. unfold session_variation, session_ssim in *.
  set (ds := snd item) in *.
  set (kept := List.filter (λ entry, negb (perfect_dsv entry)) ds).
  set (m := λ entry : Z * Dsv num,
              (if decide (0 < VIDEO_DURATION)%Z then fst entry else - fst entry)%Z).
  assert (kept ≠ []) as Hkept.
  { intros Hnil. apply Hdata. unfold kept in Hnil. clear -Hnil.
    induction ds as [|entry ds IH]; simpl in *; [done|].
    unfold chunk_ssim at 1. destruct (perfect_dsv entry); simpl in *; [|done].
    by apply IH. }
  destruct (least_element m kept Hkept) as (first & Hin & Hleast).
  apply list_elem_of_In, filter_In in Hin as [Hin%list_elem_of_In Hgood].
  apply negb_true_iff in Hgood.
  apply (flat_map_strictly_shorter _ _ _ first); [apply chunk_variation_length|done|].
  unfold chunk_variation, chunk_ssim. rewrite Hgood. simpl.
  destruct (oget (fst first - VIDEO_DURATION)%Z ds) as [prev|] eqn:Hprev; simpl; [|lia].
  destruct (num_eqb (ssim_index prev) (of_int 1)) eqn:Hperfect; simpl; [lia|].
  exfalso. apply oget_Some_elem in Hprev.
  assert (((fst first - VIDEO_DURATION)%Z, prev) ∈ kept) as Hearlier.
  { apply list_elem_of_In, filter_In. split; [by apply list_elem_of_In|].
    unfold perfect_dsv. simpl. by rewrite Hperfect. }
  specialize (Hleast _ Hearlier). unfold m in Hleast. simpl in Hleast.
  destruct (decide (0 < VIDEO_DURATION)%Z); lia.
Qed.

Lemma sessions_variation_fewer (items : list (VideoSession * odict Z (Dsv num))) :
  VIDEO_DURATION ≠ 0%Z → flat_map session_ssim items ≠ [] →
  length (flat_map (session_variation VIDEO_DURATION) items)
  < length (flat_map session_ssim items).
Proof.
  intros Hduration Hdata.
  assert (∃ item, item ∈ items ∧ session_ssim item ≠ []) as (item & Hin & Hitem).
  { induction items as [|item items IH]; simpl in *; [done|].
    destruct (session_ssim item) as [|x l] eqn:Hs.
    - destruct (IH Hdata) as (item' & Hin & Hitem). exists item'. split; [by right|done].
    - exists item. split; [left|]. by rewrite Hs. }
  apply (flat_map_strictly_shorter _ _ _ item);
    [apply session_variation_length | done | by apply session_variation_fewer].
Qed.
End PlotSsimSeries.

(* ===================================================================== *)
(** * The plots of [plot_bbr_vs_cubic.py] *)
(* ===================================================================== *)

Section BbrVsCubic.
Context {num : Type} `{Arith num} `{DbScale num}.
Implicit Types (w : World num) (pg : MetadataStore)
  (d : odict VideoSession (PlayRebuf num)) (by_cc : odict string (list num)).

Local Abbreviation tag := (tag_all (λ item : VideoSession * PlayRebuf num, session_3 (fst item))
                   congestion_control).
Local Abbreviation step := (group_step [] (λ (item : VideoSession * PlayRebuf num) l,
                                   l ++ [session_rate item])).

Lemma plot_rebuf_rate_loop_unresolved pg d : ∀ by_cc w,
  tag pg w d = None →
  ∃ e w', fold_each d (plot_rebuf_rate_session pg) by_cc w = (Raise e, w').
Proof.
  induction d as [|item d IH]; intros by_cc w; simpl; [done|].
  unfold bind.
  destruct (resolved pg w (session_3 (fst item))) as [config|] eqn:Hres.
  - destruct (plot_rebuf_rate_session_spec pg by_cc item w config Hres)
      as (w1 & Hl1 & _ & _ & ->).
    destruct (zero_play item); [by eexists _, _|].
    destruct (tag pg w d) as [t|] eqn:Ht; [done|]. intros _.
    apply IH. by rewrite (tag_all_later _ _ _ _ _ _ Hl1).
  - intros _. unfold plot_rebuf_rate_session, bind.
    destruct (retrieve_expt_config_spec pg (session_3 (fst item)) w) as (w' & -> & _).
    rewrite Hres. by eexists _, _.
Qed.

Lemma plot_rebuf_rate_unresolved pg d w :
  tag pg w d = None →
  ∃ e w', plot_rebuf_rate pg d w = (Raise e, w') ∧ plots w' = plots w.
Proof.
  intros Htag.
  destruct (plot_rebuf_rate_loop_unresolved pg d [] w Htag) as (e & w' & Hrun).
  exists e, w'. pose proof (quiet_plot_rebuf_rate_loop pg d [] w) as Hq.
  unfold plot_rebuf_rate, bind. rewrite Hrun in *. done.
Qed.

(** Every session with play time: the series go to [plot_rebuf_rate_cdf],
    nothing having been plotted so far. *)
Lemma plot_rebuf_rate_nonzero pg d w tagged :
  tag pg w d = Some tagged → existsb zero_play d = false →
  ∃ w1, plots w1 = plots w
        ∧ plot_rebuf_rate pg d w = plot_rebuf_rate_cdf (fold_left step tagged []) w1.
Proof.
  intros Htag Hnone.
  assert (Forall (λ item, zero_play item = false) d) as Hall.
  { apply Forall_forall. intros item Hin.
    destruct (zero_play item) eqn:Hzero; [|done].
    assert (existsb zero_play d = true); [|congruence].
    apply existsb_exists. exists item. by rewrite <- list_elem_of_In. }
  destruct (plot_rebuf_rate_loop_nonzero pg d [] w tagged Htag Hall)
    as (w1 & _ & _ & Hp & Hrun).
  exists w1. split; [done|]. unfold plot_rebuf_rate, bind. by rewrite Hrun.
Qed.

Lemma plot_rebuf_rate_zero pg d w tagged :
  tag pg w d = Some tagged → existsb zero_play d = true →
  ∃ w', plot_rebuf_rate pg d w = (Raise ZeroDivisionError, w') ∧ plots w' = plots w.
Proof.
  intros Htag (item & Hin & Hzero)%existsb_exists.
  assert (Exists (λ item, zero_play item = true) d) as Hex.
  { apply Exists_exists. exists item. by rewrite list_elem_of_In. }
  destruct (plot_rebuf_rate_loop_zero pg d [] w tagged Htag Hex) as (w1 & Hrun & Hp).
  exists w1. unfold plot_rebuf_rate, bind. by rewrite Hrun.
Qed.

(** What [plot_rebuf_rate_cdf] does with the series. *)
Lemma plot_rebuf_rate_cdf_plotted by_cc w :
  plottable by_cc = true →
  ∃ w', plot_rebuf_rate_cdf by_cc w = (Return tt, w')
        ∧ plots w' = CdfSeries "bbr_cubic_rebuf_rate_cdf.png" by_cc :: plots w.
Proof.
  intros Hok. rewrite plot_rebuf_rate_cdf_spec. unfold plottable in Hok.
  destruct (histograms_outcome by_cc); [by eexists | done].
Qed.

Lemma plot_rebuf_rate_cdf_refused by_cc w :
  refused by_cc = true → plot_rebuf_rate_cdf by_cc w = (Raise ValueError, w).
Proof.
  intros Hno. rewrite plot_rebuf_rate_cdf_spec. unfold refused in Hno.
  by destruct (histograms_outcome by_cc) as [|[]].
Qed.

(** The series of [plot_rebuf_rate]: one rate per session, no series
    empty. *)
Lemma rebuf_rate_series (tagged : list (string * (VideoSession * PlayRebuf num))) :
  okeys (fold_left step tagged []) = first_seen (map fst tagged)
  ∧ weigh (λ l, Z.of_nat (length l)) (fold_left step tagged [])
    = Z.of_nat (length tagged)
  ∧ ∀ cc rates, oget cc (fold_left step tagged []) = Some rates → rates ≠ [].
Proof.
  split; [apply (okeys_group_fold (V:=list num) [] _ tagged [])|]. split.
  - rewrite (weigh_group_fold (λ l : list num, Z.of_nat (length l)) []
               (λ (item : VideoSession * PlayRebuf num) l, l ++ [session_rate item])
               (λ _, 1%Z)); [|done|].
    + simpl. induction tagged as [|kx tagged IH]; simpl; lia.
    + intros x l. rewrite length_app. simpl. lia.
  - intros cc rates. rewrite oget_group_fold. simpl.
    destruct (of_scheme cc tagged) as [|item items]; [done|].
    rewrite fold_left_append. by intros [= <-].
Qed.
End BbrVsCubic.

(** A rate that is not finite: the product [100 * rebuf] overflows, the
    quotient is infinite, and [np.histogram] refuses the range that
    [plot_rebuf_rate_cdf] takes from it.  Nothing is plotted. *)
Lemma infinite_rate_is_not_plotted :
  plot_rebuf_rate example_store
    [(session_a, {| rebuf := 1e308%float; play := 1%float |})] fresh_world
  = (Raise ValueError,
     {| expt := {[ "1"%string := {| experiment_id := "1"; congestion_control := "bbr";
                                    abr_algorithm := Some "linear_bba"%string |} ]};
        pg_queries := ["1"%string]; stderr := []; plots := [] |})
  ∧ plottable [("bbr"%string, [infinity])] = false
  ∧ refused [("bbr"%string, [infinity])] = true.
Proof. repeat split; reflexivity. Qed.

(** Ranges of [plot_rebuf_rate_cdf]: equal rates make an empty range, which
    is widened; a NaN in the first series is the least value, and refused,
    while a NaN met later loses every comparison and leaves the range as it
    is; a rate so large that a half does not change it, and rates further
    apart than the largest float, leave no width to divide by. *)
Lemma histogram_ranges :
  map histograms_outcome
    [[("bbr"%string, [5; 5])];
     [("bbr"%string, [2.5; 0]); ("cubic"%string, [7])];
     [("bbr"%string, [1; nan])];
     [("bbr"%string, [1]); ("cubic"%string, [nan])];
     [("bbr"%string, [1; neg_infinity])];
     [("bbr"%string, [1e20])];
     [("bbr"%string, [-1.5e308]); ("cubic"%string, [1.5e308])]]%float
  = [Return tt; Return tt; Raise ValueError; Return tt; Raise ValueError;
     Raise IndexError; Raise IndexError]
  ∧ histograms_outcome (num:=float) [] = Return tt
  ∧ histograms_outcome (num:=float) [("bbr"%string, [])] = Raise ValueError.
Proof. repeat split; reflexivity. Qed.

(** X7.  [plot_ssim] hands to the two CDF plots, for every congestion
    control met among the sessions, the decibel values of the chunks whose
    index is not 1, session after session, and the absolute differences
    between such a chunk and the chunk [VIDEO_DURATION] earlier in the same
    session when that one exists with an index other than 1. *)
Theorem plot_ssim_series {num} `{Arith num} `{DbScale num} (VIDEO_DURATION : Z)
    (pg : MetadataStore) (d : odict VideoSession (odict Z (Dsv num))) (w : World num)
    (tagged : list (string * (VideoSession * odict Z (Dsv num)))) :
  tag_all (λ item, session_3 (fst item)) congestion_control pg w d = Some tagged →
  ∃ ssim_by_cc ssim_var_by_cc w',
    plot_ssim VIDEO_DURATION pg d w = (Return tt, w')
    ∧ plots w' = [CdfSeries "bbr_cubic_ssim_var_cdf.png" ssim_var_by_cc;
                  CdfSeries "bbr_cubic_ssim_cdf.png" ssim_by_cc] ++ plots w
    ∧ (∀ cc, oget cc ssim_by_cc = series_of session_ssim tagged cc)
    ∧ (∀ cc, oget cc ssim_var_by_cc
             = series_of (session_variation VIDEO_DURATION) tagged cc).
Proof.
  intros Htag.
  destruct (plot_ssim_resolved VIDEO_DURATION pg d w tagged Htag)
    as (w' & _ & Hrun & Hp & _).
  destruct (plot_ssim_chunks_fold VIDEO_DURATION tagged ([], []) eq_refl)
    as (_ & _ & Hssim & Hvar).
  eexists _, _, w'. split; [exact Hrun|]. split; [exact Hp|].
  unfold series_of. split; intros cc.
  - rewrite Hssim. by destruct (decide (cc ∈ map fst tagged)).
  - rewrite Hvar. by destruct (decide (cc ∈ map fst tagged)).
Qed.

Lemma plot_ssim_series_witness :
  ∃ tagged ssim_by_cc ssim_var_by_cc w',
    tag_all (num:=R) (λ item, session_3 (fst item)) congestion_control example_store
      fresh_world video_data_perfect = Some tagged
    ∧ plot_ssim 180180 example_store video_data_perfect fresh_world = (Return tt, w')
    ∧ plots w' = [CdfSeries "bbr_cubic_ssim_var_cdf.png" ssim_var_by_cc;
                  CdfSeries "bbr_cubic_ssim_cdf.png" ssim_by_cc]
    ∧ oget "bbr" ssim_by_cc = series_of session_ssim tagged "bbr".
Proof.
  destruct (plot_ssim_series 180180 example_store video_data_perfect fresh_world
              _ eq_refl) as (ssim_by_cc & ssim_var_by_cc & w' & Hrun & Hp & Hssim & _).
  eexists _, ssim_by_cc, ssim_var_by_cc, w'.
  split; [reflexivity|]. split; [exact Hrun|]. split; [exact Hp | exact (Hssim _)].
Defined.

(** X8.  The two dictionaries of [plot_ssim] always have the same keys:
    the congestion controls of the sessions, each once, in order of first
    appearance, whether or not the session has any chunk. *)
Theorem plot_ssim_same_keys {num} `{Arith num} `{DbScale num} (VIDEO_DURATION : Z)
    (pg : MetadataStore) (d : odict VideoSession (odict Z (Dsv num))) (w : World num)
    (tagged : list (string * (VideoSession * odict Z (Dsv num)))) :
  tag_all (λ item, session_3 (fst item)) congestion_control pg w d = Some tagged →
  ∃ ssim_by_cc ssim_var_by_cc w',
    plot_ssim VIDEO_DURATION pg d w = (Return tt, w')
    ∧ plots w' = [CdfSeries "bbr_cubic_ssim_var_cdf.png" ssim_var_by_cc;
                  CdfSeries "bbr_cubic_ssim_cdf.png" ssim_by_cc] ++ plots w
    ∧ okeys ssim_by_cc = first_seen (map fst tagged)
    ∧ okeys ssim_var_by_cc = okeys ssim_by_cc
    ∧ NoDup (okeys ssim_by_cc).
Proof.
  intros Htag.
  destruct (plot_ssim_resolved VIDEO_DURATION pg d w tagged Htag)
    as (w' & _ & Hrun & Hp & _).
  destruct (plot_ssim_chunks_fold VIDEO_DURATION tagged ([], []) eq_refl)
    as (Hkeys & Hsame & _).
  eexists _, _, w'. split; [exact Hrun|]. split; [exact Hp|].
  split; [exact Hkeys|]. split; [exact Hsame|].
  rewrite Hkeys. apply NoDup_first_seen.
Qed.

Lemma plot_ssim_same_keys_witness :
  ∃ tagged ssim_by_cc ssim_var_by_cc w',
    tag_all (num:=R) (λ item, session_3 (fst item)) congestion_control example_store
      fresh_world video_data_only_perfect = Some tagged
    ∧ plot_ssim 180180 example_store video_data_only_perfect fresh_world
      = (Return tt, w')
    ∧ plots w' = [CdfSeries "bbr_cubic_ssim_var_cdf.png" ssim_var_by_cc;
                  CdfSeries "bbr_cubic_ssim_cdf.png" ssim_by_cc]
    ∧ okeys ssim_by_cc = ["cubic"%string]
    ∧ okeys ssim_var_by_cc = okeys ssim_by_cc.
Proof.
  destruct (plot_ssim_same_keys 180180 example_store video_data_only_perfect
              fresh_world _ eq_refl)
    as (ssim_by_cc & ssim_var_by_cc & w' & Hrun & Hp & Hkeys & Hsame & _).
  eexists _, ssim_by_cc, ssim_var_by_cc, w'.
  split; [reflexivity|]. split; [exact Hrun|]. split; [exact Hp|].
  split; [exact Hkeys | exact Hsame].
Defined.

(** X9.  For every congestion control the variation series is at most as
    long as the SSIM series; when [VIDEO_DURATION] is not zero and the SSIM
    series is not empty it is strictly shorter, the first chunk of a
    session having nothing to differ from. *)
Theorem plot_ssim_variation_fewer {num} `{Arith num} `{DbScale num}
    (VIDEO_DURATION : Z) (pg : MetadataStore)
    (d : odict VideoSession (odict Z (Dsv num))) (w : World num)
    (tagged : list (string * (VideoSession * odict Z (Dsv num)))) :
  tag_all (λ item, session_3 (fst item)) congestion_control pg w d = Some tagged →
  ∃ ssim_by_cc ssim_var_by_cc w',
    plot_ssim VIDEO_DURATION pg d w = (Return tt, w')
    ∧ plots w' = [CdfSeries "bbr_cubic_ssim_var_cdf.png" ssim_var_by_cc;
                  CdfSeries "bbr_cubic_ssim_cdf.png" ssim_by_cc] ++ plots w
    ∧ ∀ cc ssim, oget cc ssim_by_cc = Some ssim →
        ∃ var, oget cc ssim_var_by_cc = Some var
               ∧ length var ≤ length ssim
               ∧ (VIDEO_DURATION ≠ 0%Z → ssim ≠ [] → length var < length ssim).
Proof.
  intros Htag.
  destruct (plot_ssim_resolved VIDEO_DURATION pg d w tagged Htag)
    as (w' & _ & Hrun & Hp & _).
  destruct (plot_ssim_chunks_fold VIDEO_DURATION tagged ([], []) eq_refl)
    as (_ & _ & Hssim & Hvar).
  eexists _, _, w'. split; [exact Hrun|]. split; [exact Hp|].
  intros cc ssim. rewrite Hssim, Hvar.
  destruct (decide (cc ∈ map fst tagged)); [|done]. simpl.
  intros [= <-]. eexists. split; [done|].
  split; [apply sessions_variation_length|].
  intros Hduration Hdata. by apply sessions_variation_fewer.
Qed.

Lemma plot_ssim_variation_fewer_witness :
  ∃ tagged ssim_by_cc ssim_var_by_cc w',
    tag_all (num:=R) (λ item, session_3 (fst item)) congestion_control example_store
      fresh_world video_data_perfect = Some tagged
    ∧ plot_ssim 180180 example_store video_data_perfect fresh_world = (Return tt, w')
    ∧ plots w' = [CdfSeries "bbr_cubic_ssim_var_cdf.png" ssim_var_by_cc;
                  CdfSeries "bbr_cubic_ssim_cdf.png" ssim_by_cc]
    ∧ ∀ ssim, oget "bbr" ssim_by_cc = Some ssim →
        ∃ var, oget "bbr" ssim_var_by_cc = Some var ∧ length var ≤ length ssim.
Proof.
  destruct (plot_ssim_variation_fewer 180180 example_store video_data_perfect
              fresh_world _ eq_refl)
    as (ssim_by_cc & ssim_var_by_cc & w' & Hrun & Hp & Hlen).
  eexists _, ssim_by_cc, ssim_var_by_cc, w'.
  split; [reflexivity|]. split; [exact Hrun|]. split; [exact Hp|].
  intros ssim Hssim. destruct (Hlen _ _ Hssim) as (var & Hvar & Hle & _).
  exists var. split; [exact Hvar | exact Hle].
Defined.

(** X10.  A congestion control whose sessions hold no chunk with an index
    other than 1 is still a key of both dictionaries: [plot_ssim] hands it
    to [plot_ssim_cdf] and [plot_ssim_var_cdf] with an empty series. *)
Theorem plot_ssim_empty_series {num} `{Arith num} `{DbScale num} (VIDEO_DURATION : Z)
    (pg : MetadataStore) (d : odict VideoSession (odict Z (Dsv num))) (w : World num)
    (tagged : list (string * (VideoSession * odict Z (Dsv num)))) (cc : string) :
  tag_all (λ item, session_3 (fst item)) congestion_control pg w d = Some tagged →
  cc ∈ map fst tagged →
  Forall (λ item, Forall (λ entry, perfect_dsv entry = true) (snd item))
    (of_scheme cc tagged) →
  ∃ ssim_by_cc ssim_var_by_cc w',
    plot_ssim VIDEO_DURATION pg d w = (Return tt, w')
    ∧ plots w' = [CdfSeries "bbr_cubic_ssim_var_cdf.png" ssim_var_by_cc;
                  CdfSeries "bbr_cubic_ssim_cdf.png" ssim_by_cc] ++ plots w
    ∧ oget cc ssim_by_cc = Some []
    ∧ oget cc ssim_var_by_cc = Some [].
Proof.
  intros Htag Hcc Hperfect.
  destruct (plot_ssim_resolved VIDEO_DURATION pg d w tagged Htag)
    as (w' & _ & Hrun & Hp & _).
  destruct (plot_ssim_chunks_fold VIDEO_DURATION tagged ([], []) eq_refl)
    as (_ & _ & Hssim & Hvar).
  eexists _, _, w'. split; [exact Hrun|]. split; [exact Hp|].
  rewrite Hssim, Hvar, !decide_True by done. simpl.
  induction Hperfect as [|item items Hitem _ IH]; simpl; [done|].
  destruct (session_ssim_perfect VIDEO_DURATION item Hitem) as [-> ->]. exact IH.
Qed.

Lemma plot_ssim_empty_series_witness :
  ∃ ssim_by_cc ssim_var_by_cc w',
    plot_ssim 180180 example_store video_data_only_perfect fresh_world
    = (Return tt, w')
    ∧ plots w' = [CdfSeries "bbr_cubic_ssim_var_cdf.png" ssim_var_by_cc;
                  CdfSeries "bbr_cubic_ssim_cdf.png" ssim_by_cc]
    ∧ oget "cubic" ssim_by_cc = Some []
    ∧ oget "cubic" ssim_var_by_cc = Some [].
Proof.
  apply (plot_ssim_empty_series 180180 example_store video_data_only_perfect
           fresh_world _ "cubic" eq_refl).
  - left.
  - repeat constructor. apply Req_bool_true.
Defined.

(** X11.  [main] of [plot_bbr_vs_cubic.py] plots SSIM first and rebuffer
    rates second, and nothing undoes a figure that was saved: when an
    experiment of the buffer data does not resolve, when a session of the
    buffer data has no play time, or when [np.histogram] refuses the range
    of the rates, the run fails with the two SSIM figures already written;
    when an experiment of the video data does not resolve, it fails before
    any figure; and when the range of the rates can be divided into bins,
    the run ends with the rebuffer-rate figure as the third. *)
Theorem bbr_vs_cubic_main_outcome {num} `{Arith num} `{DbScale num}
    (VIDEO_DURATION : Z) (pg : MetadataStore)
    (video_data : odict VideoSession (odict Z (Dsv num)))
    (buffer_data : odict VideoSession (PlayRebuf num)) (w : World num) :
  ∃ w',
    match tag_all (λ item, session_3 (fst item)) congestion_control pg w video_data with
    | None =>
        (∃ e, bbr_vs_cubic_main VIDEO_DURATION pg video_data buffer_data w
              = (Raise e, w'))
        ∧ plots w' = plots w
    | Some sessions =>
        let figures :=
          ssim_cdf (fold_left (plot_ssim_chunks VIDEO_DURATION) sessions ([], [])) in
        match tag_all (λ item, session_3 (fst item)) congestion_control pg w
                buffer_data with
        | None =>
            (∃ e, bbr_vs_cubic_main VIDEO_DURATION pg video_data buffer_data w
                  = (Raise e, w'))
            ∧ plots w' = figures ++ plots w
        | Some rated =>
            let rates :=
              fold_left (group_step [] (λ item l, l ++ [session_rate item])) rated [] in
            if existsb zero_play buffer_data then
              bbr_vs_cubic_main VIDEO_DURATION pg video_data buffer_data w
              = (Raise ZeroDivisionError, w')
              ∧ plots w' = figures ++ plots w
            else
              (plottable rates = true →
               bbr_vs_cubic_main VIDEO_DURATION pg video_data buffer_data w
               = (Return tt, w')
               ∧ plots w'
                 = CdfSeries "bbr_cubic_rebuf_rate_cdf.png" rates :: figures ++ plots w)
              ∧ (refused rates = true →
                 bbr_vs_cubic_main VIDEO_DURATION pg video_data buffer_data w
                 = (Raise ValueError, w')
                 ∧ plots w' = figures ++ plots w)
        end
    end.
Proof.
  unfold bbr_vs_cubic_main, bind.
  destruct (tag_all _ _ pg w video_data) as [sessions|] eqn:Hvideo.
  2:{ destruct (plot_ssim_unresolved VIDEO_DURATION pg video_data w Hvideo)
        as (e & w' & -> & _ & Hp & _).
      exists w'. split; [by exists e | done]. }
  destruct (plot_ssim_resolved VIDEO_DURATION pg video_data w sessions Hvideo)
    as (w1 & Hl1 & -> & Hp1 & _).
  cbv zeta. rewrite <- Hp1, <- (tag_all_later _ _ _ _ _ _ Hl1).
  destruct (tag_all _ _ pg w1 buffer_data) as [rated|] eqn:Hbuffer.
  2:{ destruct (plot_rebuf_rate_unresolved pg buffer_data w1 Hbuffer)
        as (e & w' & -> & Hp).
      exists w'. split; [by exists e | done]. }
  destruct (existsb zero_play buffer_data) eqn:Hzero.
  - destruct (plot_rebuf_rate_zero pg buffer_data w1 rated Hbuffer Hzero)
      as (w' & -> & Hp).
    by exists w'.
  - destruct (plot_rebuf_rate_nonzero pg buffer_data w1 rated Hbuffer Hzero)
      as (w2 & Hp2 & ->).
    exists (snd (plot_rebuf_rate_cdf
                   (fold_left (group_step [] (λ (item : VideoSession * PlayRebuf num) l,
                                                l ++ [session_rate item])) rated [])
                   w2)).
    split.
    + intros Hok.
      destruct (plot_rebuf_rate_cdf_plotted _ w2 Hok) as (w' & Hrun & Hp).
      rewrite Hrun. simpl. by rewrite Hp, Hp2.
    + intros Hno. by rewrite (plot_rebuf_rate_cdf_refused _ w2 Hno).
Qed.

(** X12.  When every session has play time, [plot_rebuf_rate] hands to
    [plot_rebuf_rate_cdf] one series per congestion control met, in order
    of first appearance; the series together hold exactly one rate per
    session, and none of them is empty.  The figure is written when the
    range taken from the rates can be divided into bins; when
    [np.histogram] refuses that range, the function fails with
    [ValueError] and nothing is plotted. *)
Theorem plot_rebuf_rate_series_shape {num} `{Arith num} (pg : MetadataStore)
    (d : odict VideoSession (PlayRebuf num)) (w : World num)
    (tagged : list (string * (VideoSession * PlayRebuf num))) :
  tag_all (λ item, session_3 (fst item)) congestion_control pg w d = Some tagged →
  Forall (λ item, zero_play item = false) d →
  ∃ rebuf_rate_by_cc w1 w',
    plots w1 = plots w
    ∧ plot_rebuf_rate pg d w = plot_rebuf_rate_cdf rebuf_rate_by_cc w1
    ∧ okeys rebuf_rate_by_cc = first_seen (map fst tagged)
    ∧ NoDup (okeys rebuf_rate_by_cc)
    ∧ weigh (λ rates, Z.of_nat (length rates)) rebuf_rate_by_cc = Z.of_nat (length d)
    ∧ (∀ cc rates, oget cc rebuf_rate_by_cc = Some rates → rates ≠ [])
    ∧ (plottable rebuf_rate_by_cc = true →
       plot_rebuf_rate pg d w = (Return tt, w')
       ∧ plots w'
         = CdfSeries "bbr_cubic_rebuf_rate_cdf.png" rebuf_rate_by_cc :: plots w)
    ∧ (refused rebuf_rate_by_cc = true →
       plot_rebuf_rate pg d w = (Raise ValueError, w')
       ∧ plots w' = plots w).
Proof.
  intros Htag Hall.
  destruct (plot_rebuf_rate_loop_nonzero pg d [] w tagged Htag Hall)
    as (w1 & _ & _ & Hp & Hrun).
  destruct (rebuf_rate_series tagged) as (Hkeys & Htotal & Hfull).
  assert (plot_rebuf_rate pg d w
          = plot_rebuf_rate_cdf
              (fold_left (group_step [] (λ (item : VideoSession * PlayRebuf num) l,
                                           l ++ [session_rate item])) tagged []) w1)
    as Hgo.
  { unfold plot_rebuf_rate, bind. by rewrite Hrun. }
  eexists _, w1, (snd (plot_rebuf_rate pg d w)).
  split; [exact Hp|]. split; [exact Hgo|].
  split; [exact Hkeys|]. split; [rewrite Hkeys; apply NoDup_first_seen|].
  split. { rewrite Htotal. by rewrite <- (tag_all_items _ _ _ _ _ _ Htag), length_map. }
  split; [exact Hfull|]. rewrite Hgo. split.
  - intros Hok. destruct (plot_rebuf_rate_cdf_plotted _ w1 Hok) as (w' & Hcdf & Hplots).
    rewrite Hcdf. simpl. by rewrite Hplots, Hp.
  - intros Hno. by rewrite (plot_rebuf_rate_cdf_refused _ w1 Hno).
Qed.

Lemma plot_rebuf_rate_series_shape_witness :
  ∃ tagged (rebuf_rate_by_cc : odict string (list float)) w',
    tag_all (num:=float) (λ item, session_3 (fst item)) congestion_control
      example_store fresh_world buffer_data_played = Some tagged
    ∧ Forall (λ item, zero_play item = false) buffer_data_played
    ∧ plottable rebuf_rate_by_cc = true
    ∧ plot_rebuf_rate example_store buffer_data_played fresh_world = (Return tt, w')
    ∧ plots w' = [CdfSeries "bbr_cubic_rebuf_rate_cdf.png" rebuf_rate_by_cc]
    ∧ okeys rebuf_rate_by_cc = ["bbr"%string]
    ∧ weigh (λ rates, Z.of_nat (length rates)) rebuf_rate_by_cc = 2%Z.
Proof.
  assert (Forall (λ item, zero_play item = false) buffer_data_played) as Hall.
  { repeat constructor. }
  destruct (plot_rebuf_rate_series_shape example_store buffer_data_played fresh_world
              _ eq_refl Hall)
    as (rebuf_rate_by_cc & w1 & w' & _ & Hgo & Hkeys & _ & Htotal & _ & Hend).
  assert (plottable rebuf_rate_by_cc = true) as Hok.
  { assert (fst (plot_rebuf_rate example_store buffer_data_played fresh_world)
            = Return tt) as Hfst by reflexivity.
    rewrite Hgo, plot_rebuf_rate_cdf_spec in Hfst. unfold plottable.
    by destruct (histograms_outcome rebuf_rate_by_cc). }
  destruct (proj1 Hend Hok) as [Hrun Hp].
  eexists _, rebuf_rate_by_cc, w'.
  split; [reflexivity|]. split; [exact Hall|]. split; [exact Hok|].
  split; [exact Hrun|]. split; [exact Hp|]. split; [exact Hkeys | exact Htotal].
Defined.

(* ===================================================================== *)
(** * The first scheme without rebuffer data *)
(* ===================================================================== *)

(** X13.  When the schemes of [ssim] before the first one that [rebuffer]
    lacks are averages with convertible totals, [plot_ssim_rebuffer] exits
    at that scheme and names it: the schemes before it have been drawn on
    the figure, which is not saved, and the later ones are not looked
    at. *)
Theorem plot_ssim_rebuffer_first_missing {num} `{Arith num}
    (output : string) (ssim : odict SchemeKey (ssim_entry num))
    (rebuffer : gmap SchemeKey AggregateRecord) (w : World num)
    (before after : odict SchemeKey (ssim_entry num))
    (item : SchemeKey * ssim_entry num) :
  ssim = before ++ item :: after →
  Forall (λ item, is_Some (rebuffer !! fst item)) before →
  Forall (λ item, drawable rebuffer item = true) before →
  rebuffer !! fst item = None →
  ∃ w', plot_ssim_rebuffer output ssim rebuffer w
        = (Raise (ExitNotInRebuffer (fst item)), w')
        ∧ plots w' = rev (flat_map (scheme_drawing rebuffer) before) ++ plots w
        ∧ length (flat_map (scheme_drawing rebuffer) before) = 2 * length before
        ∧ stderr w' = stderr w.
Proof.
  intros -> Hbefore Hdraw Hitem.
  exists (draw (flat_map (scheme_drawing rebuffer) before) w).
  split; [|split; [done|split; [|done]]].
  - unfold plot_ssim_rebuffer, bind.
    by rewrite plot_schemes_first_missing.
  - by apply scheme_drawing_length.
Qed.

Lemma plot_ssim_rebuffer_first_missing_witness :
  rebuffer_bbr_only !! cubic = None
  ∧ drawable (num:=float) rebuffer_bbr_only (bbr, AvgDb 15%float) = true
  ∧ ∃ w', plot_ssim_rebuffer "out.png" ssim_both rebuffer_bbr_only fresh_world
          = (Raise (ExitNotInRebuffer cubic), w')
          ∧ length (plots w') = 2.
Proof.
  assert (rebuffer_bbr_only !! cubic = None) as Hcubic by reflexivity.
  assert (drawable (num:=float) rebuffer_bbr_only (bbr, AvgDb 15%float) = true)
    as Hdraw by reflexivity.
  split; [exact Hcubic|]. split; [exact Hdraw|].
  destruct (plot_ssim_rebuffer_first_missing "out.png" ssim_both rebuffer_bbr_only
              fresh_world [(bbr, AvgDb 15%float)] [] (cubic, AvgDb 14%float) eq_refl)
    as (w' & Hrun & Hplots & Hlen & _).
  - repeat constructor. by eexists.
  - repeat constructor.
  - exact Hcubic.
  - exists w'. split; [exact Hrun|].
    rewrite Hplots, length_app, length_rev, Hlen. reflexivity.
Defined.

(* ===================================================================== *)
(** * The outcome of [collect_rebuffer] *)
(* ===================================================================== *)

Section RebufferOutcome.
Context {num : Type}.
Implicit Types (w : World num) (pg : MetadataStore) (bs : BufferStream).

Lemma finalize_later pg w w' minutes sessions o :
  later pg w w' → finalize pg w' minutes sessions o = finalize pg w minutes sessions o.
Proof.
  intros Hl. revert o.
  induction sessions as [|item sessions IH]; intros o; simpl; [done|].
  rewrite (later_resolved _ _ _ Hl).
  destruct (resolved pg w (session_expt (fst item))); [done|]. by destruct pg.
Qed.

Lemma done_data_points_loop pg minutes (sessions : odict SessionKey Session) :
  ∀ (o : gmap SchemeKey AggregateRecord) w,
  fst (fold_each sessions
         (λ o item,
            catch
              (config <- retrieve_expt_config pg (session_expt (fst item)) ;;
               let abr_cc := get_abr_cc config in
               ret (<[abr_cc := fold_session (minutes (snd item)) (snd item)
                                  (o !! abr_cc)]> o))
              (λ e,
                 match pg with
                 | Some _ =>
                     write_stderr (WarnUnresolved (session_expt (fst item))) ;;
                     ret o
                 | None => raise e
                 end))
         o w)
  = finalize pg w minutes sessions o.
Proof.
  induction sessions as [|item sessions IH]; intros o w; [done|].
  cbn [fold_each finalize]. unfold bind at 1, catch at 1, bind at 1.
  destruct (retrieve_expt_config_spec pg (session_expt (fst item)) w)
    as (w1 & -> & Hl1 & _).
  destruct (resolved pg w (session_expt (fst item))) as [config|] eqn:Hres.
  - cbv beta iota zeta. unfold ret at 1. rewrite IH.
    exact (finalize_later pg w w1 minutes sessions _ Hl1).
  - cbv beta iota zeta. destruct pg as [rows|]; [|done].
    unfold bind at 1, write_stderr at 1, ret at 1.
    rewrite IH.
    etrans; [exact (finalize_later (Some rows) w1 _ minutes sessions o
                      (steady_write_stderr (Some rows)
                         (WarnUnresolved (session_expt (fst item))) w1))|].
    exact (finalize_later (Some rows) w w1 minutes sessions o Hl1).
Qed.

Lemma done_data_points_outcome pg minutes bs w :
  fst (done_data_points pg minutes bs w)
  = match finalize pg w minutes (smap bs) (out bs) with
    | Return o => Return {| smap := []; out := o |}
    | Raise e => Raise e
    end.
Proof.
  unfold done_data_points, bind at 1.
  pose proof (done_data_points_loop pg minutes (smap bs) (out bs) w) as Hloop.
  destruct (fold_each (smap bs) _ (out bs) w) as [[o|e] w1]; simpl in *;
    by rewrite <- Hloop.
Qed.

Lemma collect_rebuffer_outcome pg minutes (windows : list (Window Sample)) w :
  fst (collect_rebuffer pg minutes windows w)
  = finalize pg w minutes
      (smap (fold_left absorb (all_points windows) new_buffer_stream))
      (out (fold_left absorb (all_points windows) new_buffer_stream)).
Proof.
  unfold collect_rebuffer, bind.
  pose proof (do_collect_rebuffer_pages windows new_buffer_stream w) as Hpages.
  pose proof (steady_fold_each pg windows
                (λ bs win, do_collect_rebuffer (num:=num) win bs) new_buffer_stream)
    as Hlater.
  specialize (Hlater ltac:(intros bs win; unfold do_collect_rebuffer;
                           apply steady_bind; [apply steady_write_stderr|intros _];
                           apply steady_fold_each; intros; apply steady_add_data_point) w).
  destruct (fold_each windows _ new_buffer_stream w) as [[bs|e] w1];
    simpl in Hpages, Hlater; [|done].
  injection Hpages as ->.
  pose proof (done_data_points_outcome pg minutes
                (fold_left absorb (all_points windows) new_buffer_stream) w1) as Hdone.
  rewrite (finalize_later pg w w1 _ _ _ Hlater) in Hdone.
  destruct (done_data_points pg minutes _ w1) as [[bs'|e] w2]; simpl in *;
    destruct (finalize pg w minutes _ _); by simplify_eq.
Qed.
End RebufferOutcome.

(** X14.  The outcome of [collect_rebuffer] depends on the [client_buffer]
    points only through their sequence: the windows of [datetime_iter] are
    pages of one stream, all fed to the same [BufferStream] before
    [done_data_points] is called once. *)
Theorem collect_rebuffer_pages {num} (pg : MetadataStore) (minutes : Session → Z)
    (ws1 ws2 : list (Window Sample)) (w : World num) :
  all_points ws1 = all_points ws2 →
  fst (collect_rebuffer pg minutes ws1 w) = fst (collect_rebuffer pg minutes ws2 w).
Proof.
  intros Hpts. by rewrite !collect_rebuffer_outcome, Hpts.
Qed.

Lemma collect_rebuffer_pages_witness :
  all_points scenario_pages
  = all_points [{| s_str := "2019-01-01T11:00:00Z"; e_str := "2019-01-03T11:00:00Z";
                   points := scenario |}]
  ∧ fst (collect_rebuffer (num:=float) example_store (λ _, 0%Z) scenario_pages
           fresh_world)
    = fst (collect_rebuffer (num:=float) example_store (λ _, 0%Z)
             [{| s_str := "2019-01-01T11:00:00Z"; e_str := "2019-01-03T11:00:00Z";
                 points := scenario |}] fresh_world).
Proof.
  split; [reflexivity|].
  exact (collect_rebuffer_pages (num:=float) example_store (λ _, 0%Z)
           scenario_pages _ fresh_world eq_refl).
Defined.
